(** * Animinder: chat, match and like services

    A shallow embedding of the synchronisation code of the application:
    [chatService] (thread ids, message send, mark-as-read, thread list),
    [matchService] (match creation and the two-query realtime merge),
    [likeService] (mutual-like check) and the message reconciliation and
    send-failure rollback of [ChatDetailScreen]; further the paging of
    messages, the notification listener, the one-shot listings of matches
    and likes, the time labels of the chat screen and the opening of a chat
    from a match.

    Conventions.
    - JavaScript strings are [string]; characters are compared by code.
    - [Date] values and Firestore timestamps are milliseconds in [Z].
    - A Firestore collection is a finite map from document id to document.
    - A document field that may be absent is an [option].
    - A JavaScript [Map] is an insertion-ordered association list.
    - [Array.prototype.sort] is a stable sort driven by a comparator.
    - The writes of a transaction are applied together or not at all, on the
      store its [transaction.get] read. A read made outside a transaction
      takes the store it saw as a separate argument: other clients may
      commit between that read and the write that follows it. *)

From Stdlib Require Import ZArith String Ascii List Sorted Permutation.
From stdpp Require Import gmap strings list fin_maps pretty.

Local Open Scope string_scope.
Local Open Scope Z_scope.

(** ** JavaScript arrays and strings *)

Module Js.

Section Sorting.
Context {A : Type}.
Variable compareFn : A -> A -> Z.

(** Position of [x] among already sorted later elements: [x] stays in
    front of every element it does not compare greater than, which keeps
    the sort stable. *)
Fixpoint sort_insert (x : A) (l : list A) : list A :=
  match l with
  | [] => [x]
  | y :: l' =>
      if (compareFn x y <=? 0)%Z then x :: y :: l'
      else y :: sort_insert x l'
  end.

(** [arr.sort(compareFn)] *)
Definition sort (l : list A) : list A := foldr sort_insert [] l.

End Sorting.

(** The default comparator of [sort()] on strings: code-unit order. *)
Definition defaultCompare (x y : string) : Z :=
  match String.compare x y with
  | Lt => -1
  | Eq => 0
  | Gt => 1
  end.

(** [arr.join(sep)] *)
Definition join (sep : string) (l : list string) : string :=
  String.concat sep l.

(** [s.startsWith(p)] *)
Definition startsWith (s p : string) : bool := String.prefix p s.

(** [arr.includes(x)] on an array of strings *)
Definition includes (l : list string) (x : string) : bool :=
  existsb (String.eqb x) l.

(** White space recognised by [trim] among the one-byte code units. *)
Definition isWhiteSpace (c : ascii) : bool :=
  let n := nat_of_ascii c in
  (Nat.eqb n 9 || Nat.eqb n 10 || Nat.eqb n 11 || Nat.eqb n 12
   || Nat.eqb n 13 || Nat.eqb n 32 || Nat.eqb n 160)%bool.

Fixpoint trimStart (s : string) : string :=
  match s with
  | EmptyString => EmptyString
  | String c s' => if isWhiteSpace c then trimStart s' else s
  end.

(** Drops trailing white space: a character is kept when it is not white
    space or when something is kept after it. *)
Fixpoint trimEnd (s : string) : string :=
  match s with
  | EmptyString => EmptyString
  | String c s' =>
      match trimEnd s' with
      | EmptyString =>
          if isWhiteSpace c then EmptyString else String c EmptyString
      | t => String c t
      end
  end.

(** [s.trim()] *)
Definition trim (s : string) : string := trimEnd (trimStart s).

(** [x || d] on a string field that may be absent: the empty string is
    falsy. *)
Definition orString (x : option string) (d : string) : string :=
  match x with
  | Some (String c s) => String c s
  | _ => d
  end.

(** [x || ''] *)
Definition orEmpty (x : option string) : string := orString x "".

(** [x || 0] on a numeric field that may be absent *)
Definition orZero (x : option Z) : Z := default 0 x.

(** [x || undefined] on a string field: the empty string is falsy. *)
Definition orUndefined (x : option string) : option string :=
  match x with
  | Some EmptyString => None
  | _ => x
  end.

(** [field === s] where the field may be absent *)
Definition fieldIs (x : option string) (s : string) : bool :=
  match x with
  | Some v => String.eqb v s
  | None => false
  end.

End Js.

(** ** JavaScript [Map] with string keys *)

Module JsMap.

Section Ops.
Context {V : Type}.

Definition t := list (string * V).

Definition empty : t := [].

Fixpoint get (k : string) (m : t) : option V :=
  match m with
  | [] => None
  | (k', v) :: m' => if String.eqb k k' then Some v else get k m'
  end.

(** [m.set(k, v)]: an existing key keeps its position, a new key goes
    last. *)
Fixpoint set (k : string) (v : V) (m : t) : t :=
  match m with
  | [] => [(k, v)]
  | (k', v') :: m' =>
      if String.eqb k k' then (k, v) :: m' else (k', v') :: set k v m'
  end.

(** [m.delete(k)] *)
Fixpoint delete (k : string) (m : t) : t :=
  match m with
  | [] => []
  | (k', v') :: m' =>
      if String.eqb k k' then delete k m' else (k', v') :: delete k m'
  end.

(** [m.forEach((v, k) => { if (drop(k, v)) m.delete(k) })] *)
Definition deleteWhere (drop : string -> V -> bool) (m : t) : t :=
  List.filter (fun e => negb (drop (fst e) (snd e))) m.

(** [Array.from(m.values())] *)
Definition values (m : t) : list V := List.map snd m.

Definition keys (m : t) : list string := List.map fst m.

(** [new Map(entries)] *)
Definition ofEntries (entries : list (string * V)) : t :=
  fold_left (fun m e => set (fst e) (snd e) m) entries empty.

End Ops.

Arguments t : clear implicits.

End JsMap.

(** ** Application types (types/index.ts) *)

Record Animal := mkAnimal {
  animal_id : string;
  animal_name : string;
  animal_type : string;
  animal_age : Z;
  animal_breed : string;
  animal_image : string;
  animal_bio : string;
  animal_ownerId : string
}.

Record User := mkUser {
  user_id : string;
  user_name : string;
  user_email : string;
  user_photoURL : option string;
  user_phone : option string
}.

Module Match.
Record t := mk {
  id : string;
  userId1 : string;
  userId2 : string;
  animal1Id : string;
  animal1 : option Animal;
  animal2Id : string;
  animal2 : option Animal;
  timestamp : Z
}.
End Match.

Module Message.
Record t := mk {
  id : string;
  chatId : string;
  senderId : string;
  receiverId : string;
  text : string;
  timestamp : Z;
  read : bool
}.
End Message.

Module Chat.
Record t := mk {
  id : string;
  userId1 : string;
  userId2 : string;
  lastMessage : option string;
  lastMessageTime : option Z;
  unreadCount1 : Z;
  unreadCount2 : Z;
  user1Data : option User;
  user2Data : option User
}.
End Chat.

(** ** Firestore documents *)

(** A document of [chats]. *)
Module ChatDoc.
Record t := mk {
  userId1 : option string;
  userId2 : option string;
  lastMessage : option string;
  lastMessageTime : option Z;
  unreadCount1 : option Z;
  unreadCount2 : option Z
}.
End ChatDoc.

(** A document of [chats/{chatId}/messages]. *)
Module MessageDoc.
Record t := mk {
  chatId : string;
  senderId : string;
  receiverId : string;
  text : string;
  timestamp : Z;
  read : bool
}.
End MessageDoc.

(** A document of [matches]; [createdAt] is absent while the server
    timestamp of a local write is pending. *)
Module MatchDoc.
Record t := mk {
  userId1 : option string;
  userId2 : option string;
  animal1Id : option string;
  animal1 : option Animal;
  animal2Id : option string;
  animal2 : option Animal;
  createdAt : option Z
}.
End MatchDoc.

(** A document of [likes]. *)
Module LikeDoc.
Record t := mk {
  likerUserId : string;
  likedAnimalId : string;
  ownerId : string;
  createdAt : Z
}.
End LikeDoc.

(** Outcome of a promise: resolved with a value or rejected with an error. *)
Inductive result (A : Type) : Type :=
| Ok (a : A)
| Error (msg : string).

Arguments Ok {A} a.
Arguments Error {A} msg.

(** What [get()] of a document reference returns. *)
Record DocumentSnapshot (A : Type) := mkSnapshot {
  snapshot_exists : bool;
  snapshot_data : option A
}.

Arguments mkSnapshot {A} _ _.
Arguments snapshot_exists {A} _.
Arguments snapshot_data {A} _.

(** [collection.doc(id).get()] *)
Definition getDoc {A} (coll : gmap string A) (id : string)
  : DocumentSnapshot A :=
  match coll !! id with
  | Some d => mkSnapshot true (Some d)
  | None => mkSnapshot false None
  end.

(** [collection.where(field, '==', v).get()]: the documents whose field is
    present and equal to [v]. *)
Definition whereEq {A} (field : A -> option string) (v : string)
    (coll : gmap string A) : list (string * A) :=
  map_to_list (filter (fun e => field (snd e) = Some v) coll).

(** ** chatService: store and transactions *)

(** The [chats] collection with the [messages] subcollection of every
    chat, keyed by chat id and then by message id. *)
Record ChatStore := mkChatStore {
  chats : gmap string ChatDoc.t;
  messages : gmap string (gmap string MessageDoc.t)
}.

(** [getMessagesCollection(chatId)] *)
Definition getMessagesCollection (chatId : string) (db : ChatStore)
  : gmap string MessageDoc.t :=
  default ∅ (messages db !! chatId).

(** The fields an [update] of a chat document may carry. *)
Record ChatUpdate := mkChatUpdate {
  set_lastMessage : option string;
  set_lastMessageTime : option Z;
  set_unreadCount1 : option Z;
  set_unreadCount2 : option Z
}.

(** Writes buffered by a transaction. *)
Inductive Write :=
| SetMessage (chatId messageId : string) (d : MessageDoc.t)
| UpdateMessageRead (chatId messageId : string) (r : bool)
| UpdateChat (chatId : string) (u : ChatUpdate).

Definition overwrite {A} (new old : option A) : option A :=
  match new with
  | Some _ => new
  | None => old
  end.

Definition applyChatUpdate (u : ChatUpdate) (d : ChatDoc.t) : ChatDoc.t :=
  ChatDoc.mk (ChatDoc.userId1 d) (ChatDoc.userId2 d)
    (overwrite (set_lastMessage u) (ChatDoc.lastMessage d))
    (overwrite (set_lastMessageTime u) (ChatDoc.lastMessageTime d))
    (overwrite (set_unreadCount1 u) (ChatDoc.unreadCount1 d))
    (overwrite (set_unreadCount2 u) (ChatDoc.unreadCount2 d)).

Definition setRead (r : bool) (d : MessageDoc.t) : MessageDoc.t :=
  MessageDoc.mk (MessageDoc.chatId d) (MessageDoc.senderId d)
    (MessageDoc.receiverId d) (MessageDoc.text d) (MessageDoc.timestamp d) r.

(** One buffered write applied to the store; [update] of a document that
    does not exist fails. *)
Definition applyWrite (w : Write) (db : ChatStore) : option ChatStore :=
  match w with
  | SetMessage c mid d =>
      Some (mkChatStore (chats db)
              (<[c := <[mid := d]> (getMessagesCollection c db)]> (messages db)))
  | UpdateMessageRead c mid r =>
      match getMessagesCollection c db !! mid with
      | Some d =>
          Some (mkChatStore (chats db)
                  (<[c := <[mid := setRead r d]> (getMessagesCollection c db)]>
                     (messages db)))
      | None => None
      end
  | UpdateChat c u =>
      match chats db !! c with
      | Some d =>
          Some (mkChatStore (<[c := applyChatUpdate u d]> (chats db))
                  (messages db))
      | None => None
      end
  end.

Fixpoint applyWrites (ws : list Write) (db : ChatStore) : option ChatStore :=
  match ws with
  | [] => Some db
  | w :: ws' =>
      match applyWrite w db with
      | Some db' => applyWrites ws' db'
      | None => None
      end
  end.

(** [firestore().runTransaction(updateFunction)]: the update function reads
    the store and buffers writes; the writes are applied together when the
    commit goes through ([commits]), and not at all when the function throws
    or the commit fails. *)
Definition runTransaction (commits : bool)
    (updateFunction : ChatStore -> result (list Write)) (db : ChatStore)
  : result unit * ChatStore :=
  match updateFunction db with
  | Error e => (Error e, db)
  | Ok ws =>
      if commits then
        match applyWrites ws db with
        | Some db' => (Ok tt, db')
        | None => (Error "not-found", db)
        end
      else (Error "unavailable", db)
  end.

(** ** chatService *)

(** [getChatId]: [[userId1, userId2].sort().join('_')] *)
Definition getChatId (userId1 userId2 : string) : string :=
  Js.join "_" (Js.sort Js.defaultCompare [userId1; userId2]).

(** [createOrGetChat]: the existing chat, or a new one with both unread
    counters at zero. The [get()] and the [set()] are two separate requests
    and no transaction: [dbRead] is the store as the [get()] sees it and
    [db] the store at the time of the write; the two are the same store
    when no other client commits in between. [reads] and [writes] tell
    whether the requests succeed, and the call rejects when one of them
    fails. [now] is the server time of the write. *)
Definition createOrGetChat (reads writes : bool) (now : Z)
    (userId1 userId2 : string) (dbRead db : ChatStore)
  : result Chat.t * ChatStore :=
  let chatId := getChatId userId1 userId2 in
  if negb reads then (Error "unavailable", db)
  else
    let chatDoc := getDoc (chats dbRead) chatId in
    let create (db0 : ChatStore) :=
      (Ok (Chat.mk chatId userId1 userId2 None None 0 0 None None),
       mkChatStore
         (<[chatId := ChatDoc.mk (Some userId1) (Some userId2) (Some "")
                        (Some now) (Some 0) (Some 0)]> (chats db0))
         (messages db0)) in
    if snapshot_exists chatDoc then
      match snapshot_data chatDoc with
      | None =>
          if writes
          then create (mkChatStore (delete chatId (chats db)) (messages db))
          else (Error "unavailable", db)
      | Some data =>
          (Ok (Chat.mk chatId
                 (Js.orString (ChatDoc.userId1 data) userId1)
                 (Js.orString (ChatDoc.userId2 data) userId2)
                 (Js.orUndefined (ChatDoc.lastMessage data))
                 (ChatDoc.lastMessageTime data)
                 (Js.orZero (ChatDoc.unreadCount1 data))
                 (Js.orZero (ChatDoc.unreadCount2 data))
                 None None),
           db)
      end
    else if writes then create db else (Error "unavailable", db).

(** The update function of [sendMessage], after [transaction.get(chatRef)]
    returned [chatDoc]. [messageId] is the id of [messagesRef.doc()] and
    [now] the server timestamp. *)
Definition sendMessageWrites (chatDoc : DocumentSnapshot ChatDoc.t)
    (messageId : string) (now : Z)
    (chatId senderId receiverId text : string) : result (list Write) :=
  if negb (snapshot_exists chatDoc) then Error "Chat does not exist"
  else
    match snapshot_data chatDoc with
    | None => Error "Chat data is null"
    | Some chatData =>
        let message :=
          MessageDoc.mk chatId senderId receiverId text now false in
        let isUser1 := Js.fieldIs (ChatDoc.userId1 chatData) senderId in
        let updateData :=
          if isUser1 then
            let currentCount := Js.orZero (ChatDoc.unreadCount2 chatData) in
            mkChatUpdate (Some text) (Some now) None (Some (currentCount + 1))
          else
            let currentCount := Js.orZero (ChatDoc.unreadCount1 chatData) in
            mkChatUpdate (Some text) (Some now) (Some (currentCount + 1)) None
        in
        Ok [SetMessage chatId messageId message; UpdateChat chatId updateData]
    end.

(** [sendMessage]: resolves, or rejects with the error of the transaction. *)
Definition sendMessage (commits : bool) (messageId : string) (now : Z)
    (chatId senderId receiverId text : string) (db : ChatStore)
  : result unit * ChatStore :=
  runTransaction commits
    (fun db0 =>
       sendMessageWrites (getDoc (chats db0) chatId) messageId now
         chatId senderId receiverId text)
    db.

(** The query of [markMessagesAsRead]:
    [where('receiverId', '==', userId).where('read', '==', false)] *)
Definition unreadMessages (userId : string)
    (msgs : gmap string MessageDoc.t) : gmap string MessageDoc.t :=
  filter (fun e => MessageDoc.receiverId (snd e) = userId
                   /\ MessageDoc.read (snd e) = false) msgs.

(** What the unread query of [markMessagesAsRead] returns on the store
    [db]. *)
Definition unreadQuery (chatId userId : string) (db : ChatStore)
  : list (string * MessageDoc.t) :=
  map_to_list (unreadMessages userId (getMessagesCollection chatId db)).

(** The update function of [markMessagesAsRead]. The unread messages are
    fetched with a plain [messagesRef.where(...).get()], which is no read of
    the transaction: [unreadSnapshot] is what that query returned. Only the
    chat is read with [transaction.get], from the store [db] on which the
    transaction commits. *)
Definition markMessagesAsReadWrites (chatId userId : string)
    (unreadSnapshot : list (string * MessageDoc.t)) (db : ChatStore)
  : result (list Write) :=
  let reads :=
    List.map (fun e => UpdateMessageRead chatId (fst e) true) unreadSnapshot in
  let chatDoc := getDoc (chats db) chatId in
  match snapshot_data chatDoc with
  | Some chatData =>
      let isUser1 := Js.fieldIs (ChatDoc.userId1 chatData) userId in
      let updateData :=
        if isUser1 then mkChatUpdate None None (Some 0) None
        else mkChatUpdate None None None (Some 0) in
      Ok (reads ++ [UpdateChat chatId updateData])%list
  | None => Ok reads
  end.

(** [markMessagesAsRead]. [dbQuery] is the store as the unread query sees
    it, [db] the store from which the transaction reads the chat and on
    which it commits. The two are the same store when no other client
    commits between the query and [transaction.get(chatRef)]. *)
Definition markMessagesAsRead (commits : bool) (chatId userId : string)
    (dbQuery db : ChatStore) : result unit * ChatStore :=
  runTransaction commits
    (markMessagesAsReadWrites chatId userId (unreadQuery chatId userId dbQuery))
    db.

(** Conversion of a chat document in [getUserChats]. *)
Definition toChat (id : string) (data : ChatDoc.t) : Chat.t :=
  Chat.mk id
    (Js.orEmpty (ChatDoc.userId1 data))
    (Js.orEmpty (ChatDoc.userId2 data))
    (Js.orUndefined (ChatDoc.lastMessage data))
    (ChatDoc.lastMessageTime data)
    (Js.orZero (ChatDoc.unreadCount1 data))
    (Js.orZero (ChatDoc.unreadCount2 data))
    None None.

(** The profile of the other participant is attached on its side. *)
Definition withUserData (userId : string) (users : gmap string User)
    (chat : Chat.t) : Chat.t :=
  let otherUserId :=
    if String.eqb (Chat.userId1 chat) userId then Chat.userId2 chat
    else Chat.userId1 chat in
  let userData := users !! otherUserId in
  Chat.mk (Chat.id chat) (Chat.userId1 chat) (Chat.userId2 chat)
    (Chat.lastMessage chat) (Chat.lastMessageTime chat)
    (Chat.unreadCount1 chat) (Chat.unreadCount2 chat)
    (if String.eqb (Chat.userId1 chat) userId then None else userData)
    (if String.eqb (Chat.userId2 chat) userId then None else userData).

(** Newest last message first; a chat without one counts as time 0. *)
Definition byLastMessageTimeDesc (a b : Chat.t) : Z :=
  let timeA := Js.orZero (Chat.lastMessageTime a) in
  let timeB := Js.orZero (Chat.lastMessageTime b) in
  timeB - timeA.

(** [processChats] of [getUserChats]: the list handed to the callback. *)
Definition processChats (userId : string) (chatsCollection : gmap string ChatDoc.t)
    (usersCollection : gmap string User) : list Chat.t :=
  let snapshot1 := whereEq ChatDoc.userId1 userId chatsCollection in
  let snapshot2 := whereEq ChatDoc.userId2 userId chatsCollection in
  let allChats :=
    (List.map (fun d => toChat (fst d) (snd d)) snapshot1
     ++ List.map (fun d => toChat (fst d) (snd d)) snapshot2)%list in
  let uniqueChats :=
    JsMap.values
      (JsMap.ofEntries (List.map (fun chat => (Chat.id chat, chat)) allChats)) in
  let chatsWithUserData :=
    List.map (withUserData userId usersCollection) uniqueChats in
  Js.sort byLastMessageTimeDesc chatsWithUserData.

(** ** matchService *)

(** [saveMatch]: [matchesCollection.add(...)] stores the match under the
    document id [docId] that the store generates for the call; [now] is the
    server timestamp. *)
Definition saveMatch (commits : bool) (docId : string) (now : Z)
    (matchData : Match.t) (matchesCollection : gmap string MatchDoc.t)
  : result unit * gmap string MatchDoc.t :=
  if commits then
    (Ok tt,
     <[docId := MatchDoc.mk
                  (Some (Match.userId1 matchData))
                  (Some (Match.userId2 matchData))
                  (Some (Match.animal1Id matchData))
                  (Match.animal1 matchData)
                  (Some (Match.animal2Id matchData))
                  (Match.animal2 matchData)
                  (Some now)]> matchesCollection)
  else (Error "unavailable", matchesCollection).

(** Conversion of a match document; [now] is [new Date()], used when the
    document carries no [createdAt]. *)
Definition toMatch (now : Z) (id : string) (data : MatchDoc.t) : Match.t :=
  Match.mk id
    (Js.orEmpty (MatchDoc.userId1 data))
    (Js.orEmpty (MatchDoc.userId2 data))
    (Js.orEmpty (MatchDoc.animal1Id data))
    (MatchDoc.animal1 data)
    (Js.orEmpty (MatchDoc.animal2Id data))
    (MatchDoc.animal2 data)
    (match MatchDoc.createdAt data with
     | Some t => t
     | None => now
     end).

Inductive ChangeType := added | modified | removed.

Record DocumentChange := mkChange {
  change_type : ChangeType;
  change_id : string;
  change_data : MatchDoc.t
}.

(** A query snapshot: the documents of the result set and the changes since
    the previous snapshot of the same query. *)
Record QuerySnapshot := mkQuerySnapshot {
  docs : list (string * MatchDoc.t);
  docChanges : list DocumentChange
}.

(** Newest first. *)
Definition byTimestampDesc (a b : Match.t) : Z :=
  Match.timestamp b - Match.timestamp a.

(** [processMatches]: the list handed to the callback. *)
Definition processMatches (matchesMap : JsMap.t Match.t) : list Match.t :=
  Js.sort byTimestampDesc (JsMap.values matchesMap).

(** The removal test of the first load: an entry of the role of the query
    whose id the snapshot no longer lists. *)
Definition noLongerInQuery (userId queryName : string)
    (currentDocIds : list string) (id : string) (m : Match.t) : bool :=
  if (String.eqb queryName "userId1" && String.eqb (Match.userId1 m) userId
      && negb (Js.includes currentDocIds id))%bool then true
  else if (String.eqb queryName "userId2" && String.eqb (Match.userId2 m) userId
           && negb (Js.includes currentDocIds id))%bool then true
  else false.

(** [handleSnapshot] of [getUserMatchesRealtime]. *)
Definition handleSnapshot (userId : string) (now : Z)
    (snapshot : QuerySnapshot) (isFirstLoad : bool) (queryName : string)
    (matchesMap : JsMap.t Match.t) : JsMap.t Match.t :=
  if isFirstLoad then
    let currentDocIds := List.map fst (docs snapshot) in
    let loaded :=
      fold_left
        (fun m d => JsMap.set (fst d) (toMatch now (fst d) (snd d)) m)
        (docs snapshot) matchesMap in
    JsMap.deleteWhere (noLongerInQuery userId queryName currentDocIds) loaded
  else
    fold_left
      (fun m change =>
         match change_type change with
         | removed => JsMap.delete (change_id change) m
         | _ =>
             JsMap.set (change_id change)
               (toMatch now (change_id change) (change_data change)) m
         end)
      (docChanges snapshot) matchesMap.

(** State of one [getUserMatchesRealtime] subscription. *)
Record MatchesRealtime := mkMatchesRealtime {
  matchesMap : JsMap.t Match.t;
  isFirstLoad1 : bool;
  isFirstLoad2 : bool
}.

Definition matchesRealtimeInit : MatchesRealtime :=
  mkMatchesRealtime JsMap.empty true true.

(** What the two listeners can receive. *)
Inductive MatchesEvent :=
| Snapshot1 (snapshot : QuerySnapshot)
| Snapshot2 (snapshot : QuerySnapshot)
| ListenError1
| ListenError2.

(** One listener callback: the new state and the list handed to the
    callback of the caller. *)
Definition onMatchesEvent (userId : string) (now : Z) (ev : MatchesEvent)
    (st : MatchesRealtime) : MatchesRealtime * list Match.t :=
  match ev with
  | Snapshot1 snapshot =>
      let m := handleSnapshot userId now snapshot (isFirstLoad1 st) "userId1"
                 (matchesMap st) in
      (mkMatchesRealtime m false (isFirstLoad2 st), processMatches m)
  | Snapshot2 snapshot =>
      let m := handleSnapshot userId now snapshot (isFirstLoad2 st) "userId2"
                 (matchesMap st) in
      (mkMatchesRealtime m (isFirstLoad1 st) false, processMatches m)
  | ListenError1 | ListenError2 => (st, [])
  end.

(** One call of [handleSnapshot], as the listeners issue it. *)
Record SnapshotEvent := mkSnapshotEvent {
  ev_snapshot : QuerySnapshot;
  ev_isFirstLoad : bool;
  ev_queryName : string
}.

(** A sequence of [handleSnapshot] calls; [clock i] is the time at which
    the [i]-th call after position [start] reads [new Date()]. *)
Fixpoint replay (userId : string) (clock : nat -> Z) (start : nat)
    (events : list SnapshotEvent) (m : JsMap.t Match.t) : JsMap.t Match.t :=
  match events with
  | [] => m
  | ev :: rest =>
      replay userId clock (S start) rest
        (handleSnapshot userId (clock start) (ev_snapshot ev)
           (ev_isFirstLoad ev) (ev_queryName ev) m)
  end.

(** [getUserMatchesRealtime] of services/matchService.ts: both listeners
    store every document of the snapshot and remove nothing. *)
Module MatchServiceTs.

Definition onSnapshot (now : Z) (snapshot : QuerySnapshot)
    (matchesMap : JsMap.t Match.t) : JsMap.t Match.t :=
  fold_left
    (fun m d => JsMap.set (fst d) (toMatch now (fst d) (snd d)) m)
    (docs snapshot) matchesMap.

Fixpoint replay (clock : nat -> Z) (start : nat)
    (events : list QuerySnapshot) (m : JsMap.t Match.t) : JsMap.t Match.t :=
  match events with
  | [] => m
  | snapshot :: rest =>
      replay clock (S start) rest (onSnapshot (clock start) snapshot m)
  end.

End MatchServiceTs.

(** ** likeService *)

(** [saveLike]: [likesCollection.add(...)] under the generated id [docId]. *)
Definition saveLike (commits : bool) (docId : string) (now : Z)
    (likerUserId likedAnimalId ownerId : string)
    (likesCollection : gmap string LikeDoc.t)
  : result unit * gmap string LikeDoc.t :=
  if commits then
    (Ok tt,
     <[docId := LikeDoc.mk likerUserId likedAnimalId ownerId now]>
       likesCollection)
  else (Error "unavailable", likesCollection).

Record MutualLike := mkMutualLike {
  isMatch : bool;
  matchedAnimalId : option string
}.

(** The loop of [checkMutualLike] over the likes of the owner. *)
Fixpoint scanOwnerLikes (likerUserId : string) (userAnimalIds : list string)
    (ownerLikes : list (string * LikeDoc.t)) : MutualLike :=
  match ownerLikes with
  | [] => mkMutualLike false None
  | likeDoc :: rest =>
      let likeData := snd likeDoc in
      if String.eqb (LikeDoc.ownerId likeData) likerUserId then
        mkMutualLike true (Some (LikeDoc.likedAnimalId likeData))
      else if Js.includes userAnimalIds (LikeDoc.likedAnimalId likeData) then
        mkMutualLike true (Some (LikeDoc.likedAnimalId likeData))
      else scanOwnerLikes likerUserId userAnimalIds rest
  end.

(** [checkMutualLike]; when the query fails ([fetches = false]) the error is
    caught and no match is reported. *)
Definition checkMutualLike (fetches : bool) (likerUserId ownerId : string)
    (userAnimals : list Animal) (likesCollection : gmap string LikeDoc.t)
  : MutualLike :=
  if fetches then
    let ownerLikes :=
      whereEq (fun d => Some (LikeDoc.likerUserId d)) ownerId likesCollection in
    let userAnimalIds := List.map animal_id userAnimals in
    scanOwnerLikes likerUserId userAnimalIds ownerLikes
  else mkMutualLike false None.

(** ** ChatDetailScreen *)

Module ChatDetailScreen.

Definition isOptimistic (msg : Message.t) : bool :=
  Js.startsWith (Message.id msg) "temp-".

(** The match test of the snapshot callback: same text, same sender,
    timestamps less than 5000 ms apart. *)
Definition replaces (realMsg optMsg : Message.t) : bool :=
  (String.eqb (Message.text realMsg) (Message.text optMsg)
   && String.eqb (Message.senderId realMsg) (Message.senderId optMsg)
   && (Z.abs (Message.timestamp realMsg - Message.timestamp optMsg) <? 5000))%bool.

Definition byTimestampAsc (a b : Message.t) : Z :=
  Message.timestamp a - Message.timestamp b.

(** The state update of the [getChatMessages] callback:
    [setMessages(prev => ...)] with the messages [newMessages] of the
    snapshot. *)
Definition mergeMessages (newMessages prev : list Message.t)
  : list Message.t :=
  let optimisticMessages := List.filter isOptimistic prev in
  let realMessages :=
    List.filter (fun msg => negb (isOptimistic msg)) newMessages in
  let replacedOptimisticIds :=
    List.map Message.id
      (List.filter
         (fun optMsg => existsb (fun realMsg => replaces realMsg optMsg)
                          realMessages)
         optimisticMessages) in
  let remainingOptimistic :=
    List.filter
      (fun msg => negb (Js.includes replacedOptimisticIds (Message.id msg)))
      optimisticMessages in
  let allMessages := (realMessages ++ remainingOptimistic)%list in
  Js.sort byTimestampAsc allMessages.

(** Component state. *)
Record State := mkState {
  messages : list Message.t;
  inputText : string;
  sending : bool
}.

(** What can happen while a send is awaited: a snapshot of the message
    listener, or the user editing the input. *)
Inductive UiEvent :=
| MessagesSnapshot (newMessages : list Message.t)
| ChangeText (text : string).

Definition onUiEvent (st : State) (ev : UiEvent) : State :=
  match ev with
  | MessagesSnapshot newMessages =>
      mkState (mergeMessages newMessages (messages st)) (inputText st)
        (sending st)
  | ChangeText text => mkState (messages st) text (sending st)
  end.

Definition isEmpty (s : string) : bool :=
  match s with EmptyString => true | _ => false end.

(** The guard at the top of [handleSendMessage]. *)
Definition sendBlocked (chatId currentUserId : string) (st : State) : bool :=
  (isEmpty (Js.trim (inputText st)) || isEmpty chatId || isEmpty currentUserId
   || String.eqb currentUserId "user1" || sending st)%bool.

(** [handleSendMessage] up to the [await]: the input is cleared and the
    optimistic message appended. [stamp] is the text of
    [Date.now()-Math.random()] and [now] is [new Date()]. *)
Definition beginSend (stamp : string) (now : Z)
    (chatId currentUserId otherUserId : string) (st : State)
  : string * string * State :=
  let messageText := Js.trim (inputText st) in
  let tempId := "temp-" ++ stamp in
  let optimisticMessage :=
    Message.mk tempId chatId currentUserId otherUserId messageText now false in
  (tempId, messageText,
   mkState (messages st ++ [optimisticMessage])%list "" true).

(** [handleSendMessage] after the [await]: [catch] and [finally]. *)
Definition settleSend (outcome : result unit) (tempId messageText : string)
    (st : State) : State :=
  match outcome with
  | Ok _ => mkState (messages st) (inputText st) false
  | Error _ =>
      mkState
        (List.filter (fun msg => negb (String.eqb (Message.id msg) tempId))
           (messages st))
        messageText false
  end.

(** [handleSendMessage]: [outcome] is how [sendMessage] settles and
    [during] what the component receives while it is awaited. *)
Definition handleSendMessage (stamp : string) (now : Z)
    (chatId currentUserId otherUserId : string)
    (outcome : result unit) (during : list UiEvent) (st : State) : State :=
  if sendBlocked chatId currentUserId st then st
  else
    let '(tempId, messageText, st1) :=
      beginSend stamp now chatId currentUserId otherUserId st in
    settleSend outcome tempId messageText (fold_left onUiEvent during st1).

End ChatDetailScreen.

(** ** Vocabulary of the properties *)

(** The order a comparator sorts into. *)
Definition inOrder {A} (compareFn : A -> A -> Z) (x y : A) : Prop :=
  (compareFn x y <= 0)%Z.

(** Keys of a [Map] are distinct. *)
Definition wf {V} (m : JsMap.t V) : Prop := NoDup (JsMap.keys m).

(** What a sequence of [Map] operations does to one key: it either forces
    the outcome whatever was there ([constant]) or keeps what was there
    unless it removes it ([shrinking]). *)
Definition constant {V} (f : option V -> option V) : Prop :=
  forall x y, f x = f y.

Definition shrinking {V} (f : option V -> option V) : Prop :=
  forall x, f x = None \/ f x = x.

Definition settled {V} (f : option V -> option V) : Prop :=
  constant f \/ shrinking f.

(** [entries.forEach(e => m.set(e[0], e[1]))] *)
Definition setAll {V} (l : list (string * V)) (m : JsMap.t V) : JsMap.t V :=
  fold_left (fun m e => JsMap.set (fst e) (snd e) m) l m.

(** The pending (optimistic) messages of the displayed list and the
    confirmed messages of a snapshot, as the callback separates them. *)
Definition pendingOf (prev : list Message.t) : list Message.t :=
  List.filter ChatDetailScreen.isOptimistic prev.

Definition confirmedOf (newMessages : list Message.t) : list Message.t :=
  List.filter (fun msg => negb (ChatDetailScreen.isOptimistic msg)) newMessages.

(** No confirmed message replaces [p]. *)
Definition unmatched (newMessages : list Message.t) (p : Message.t) : bool :=
  negb (existsb (fun c => ChatDetailScreen.replaces c p) (confirmedOf newMessages)).

(** Thread id as the specification words it: the two participant ids in
    lexicographic order, joined with an underscore. *)
Definition threadId_spec (a b : string) : string :=
  if String.leb a b then a ++ "_" ++ b else b ++ "_" ++ a.

(** A like edge of [owner] that targets a pet of [liker]: the edge records
    [liker] as owner of the pet, or the pet is one of [liker]'s animals. *)
Definition targetsPetOf (liker : string) (likerAnimals : list Animal)
    (edge : LikeDoc.t) : Prop :=
  LikeDoc.ownerId edge = liker
  \/ In (LikeDoc.likedAnimalId edge) (List.map animal_id likerAnimals).

(** Every document of every event carries [createdAt]. *)
Definition dataStamped (d : MatchDoc.t) : Prop :=
  is_Some (MatchDoc.createdAt d).

Definition snapshotStamped (s : QuerySnapshot) : Prop :=
  Forall (fun d => dataStamped (snd d)) (docs s)
  /\ Forall (fun c => change_type c <> removed -> dataStamped (change_data c))
       (docChanges s).

(** The delivered set and the keyed content of a map. *)
Definition sameEntries {V} (m1 m2 : JsMap.t V) : Prop :=
  forall k, JsMap.get k m1 = JsMap.get k m2.

(** The unread counter kept for a participant of a chat: [unreadCount1] for
    [userId1], [unreadCount2] for [userId2]. *)
Definition unreadCountFor (user : string) (d : ChatDoc.t) : option Z :=
  if Js.fieldIs (ChatDoc.userId1 d) user then
    Some (Js.orZero (ChatDoc.unreadCount1 d))
  else if Js.fieldIs (ChatDoc.userId2 d) user then
    Some (Js.orZero (ChatDoc.unreadCount2 d))
  else None.

(** [sender] and [receiver] are the two distinct participants of the chat. *)
Definition participants (d : ChatDoc.t) (sender receiver : string) : Prop :=
  sender <> receiver
  /\ ((ChatDoc.userId1 d = Some sender /\ ChatDoc.userId2 d = Some receiver)
      \/ (ChatDoc.userId1 d = Some receiver /\ ChatDoc.userId2 d = Some sender)).

(** What [markMessagesAsRead] does to one message: an unread message
    addressed to [userId] becomes read, any other message is left alone. *)
Definition markFor (userId : string) (d : MessageDoc.t) : MessageDoc.t :=
  if decide (MessageDoc.receiverId d = userId /\ MessageDoc.read d = false)
  then setRead true d else d.

Definition countersNonneg (d : ChatDoc.t) : Prop :=
  0 <= Js.orZero (ChatDoc.unreadCount1 d)
  /\ 0 <= Js.orZero (ChatDoc.unreadCount2 d).

Definition storeNonneg (db : ChatStore) : Prop :=
  forall c d, chats db !! c = Some d -> countersNonneg d.

(** The stores the chat service can produce from the empty one; a read
    made outside a transaction may have seen any earlier store. *)
Inductive reachable : ChatStore -> Prop :=
| reach_empty : reachable (mkChatStore ∅ ∅)
| reach_create reads writes now userId1 userId2 dbRead db :
    reachable dbRead -> reachable db ->
    reachable
      (snd (createOrGetChat reads writes now userId1 userId2 dbRead db))
| reach_send commits messageId now chatId senderId receiverId text db :
    reachable db ->
    reachable
      (snd (sendMessage commits messageId now chatId senderId receiverId text db))
| reach_read commits chatId userId dbQuery db :
    reachable dbQuery -> reachable db ->
    reachable (snd (markMessagesAsRead commits chatId userId dbQuery db)).

(** The chat update buffered by [markMessagesAsRead]. *)
Definition resetFor (userId : string) (chatData : ChatDoc.t) : ChatUpdate :=
  if Js.fieldIs (ChatDoc.userId1 chatData) userId
  then mkChatUpdate None None (Some 0) None
  else mkChatUpdate None None None (Some 0).

(** The match rule: same sender, same text, timestamps less than five
    seconds apart. *)
Definition matchRule (confirmed pending : Message.t) : Prop :=
  Message.senderId confirmed = Message.senderId pending
  /\ Message.text confirmed = Message.text pending
  /\ Z.abs (Message.timestamp confirmed - Message.timestamp pending) < 5000.

Definition sameSenderText (p m : Message.t) : bool :=
  (String.eqb (Message.senderId m) (Message.senderId p)
   && String.eqb (Message.text m) (Message.text p))%bool.

Definition setDoc (now : Z) (m : JsMap.t Match.t) (d : string * MatchDoc.t)
  : JsMap.t Match.t :=
  JsMap.set (fst d) (toMatch now (fst d) (snd d)) m.

Definition applyChange (now : Z) (m : JsMap.t Match.t) (c : DocumentChange)
  : JsMap.t Match.t :=
  match change_type c with
  | removed => JsMap.delete (change_id c) m
  | _ => JsMap.set (change_id c) (toMatch now (change_id c) (change_data c)) m
  end.

(** A match document for the unordered pair of profiles [a], [b]. *)
Definition edgeOf (a b : string) (d : MatchDoc.t) : Prop :=
  (MatchDoc.userId1 d = Some a /\ MatchDoc.userId2 d = Some b)
  \/ (MatchDoc.userId1 d = Some b /\ MatchDoc.userId2 d = Some a).

(** The match documents stored for the unordered pair. *)
Definition edgesFor (a b : string) (coll : gmap string MatchDoc.t)
  : gmap string MatchDoc.t :=
  filter (fun e => edgeOf a b (snd e)) coll.

(** The threads in which the profile is side A (userId1), and the other
    threads in which it is side B (userId2). *)
Definition sideA (userId : string) (coll : gmap string ChatDoc.t)
  : list (string * ChatDoc.t) :=
  whereEq ChatDoc.userId1 userId coll.

Definition sideBOnly (userId : string) (coll : gmap string ChatDoc.t)
  : list (string * ChatDoc.t) :=
  List.filter (fun e => negb (Js.fieldIs (ChatDoc.userId1 (snd e)) userId))
    (whereEq ChatDoc.userId2 userId coll).

(** The subscription fed with a stream of listener events; the clock
    advances with every [handleSnapshot] call. *)
Fixpoint runMatchesRealtime (userId : string) (clock : nat -> Z) (start : nat)
    (stream : list MatchesEvent) (st : MatchesRealtime) : MatchesRealtime :=
  match stream with
  | [] => st
  | ev :: rest =>
      let st' := fst (onMatchesEvent userId (clock start) ev st) in
      match ev with
      | Snapshot1 _ | Snapshot2 _ =>
          runMatchesRealtime userId clock (S start) rest st'
      | _ => runMatchesRealtime userId clock start rest st'
      end
  end.

(** The [handleSnapshot] calls a stream gives rise to, from the given
    first-load flags. *)
Fixpoint callsOf (first1 first2 : bool) (stream : list MatchesEvent)
  : list SnapshotEvent :=
  match stream with
  | [] => []
  | Snapshot1 s :: rest =>
      mkSnapshotEvent s first1 "userId1" :: callsOf false first2 rest
  | Snapshot2 s :: rest =>
      mkSnapshotEvent s first2 "userId2" :: callsOf first1 false rest
  | _ :: rest => callsOf first1 first2 rest
  end.

(** The first snapshot of a query lists each of its documents as added. *)
Definition firstComplete (s : QuerySnapshot) : Prop :=
  docChanges s
  = List.map (fun d => mkChange added (fst d) (snd d)) (docs s).

(** No document of the snapshot has [userId] in the given field. *)
Definition fieldFree (field : MatchDoc.t -> option string) (userId : string)
    (s : QuerySnapshot) : Prop :=
  Forall (fun d => Js.orEmpty (field (snd d)) <> userId) (docs s)
  /\ Forall (fun c => change_type c <> removed ->
                      Js.orEmpty (field (change_data c)) <> userId)
       (docChanges s).

(** A stream as the store delivers it for documents that satisfy one of the
    two queries only: documents carry [createdAt], a document of the
    [userId1] query does not have the profile as [userId2] and conversely,
    and the first snapshot of each query is complete. *)
Fixpoint streamOk (userId : string) (first1 first2 : bool)
    (stream : list MatchesEvent) : Prop :=
  match stream with
  | [] => True
  | Snapshot1 s :: rest =>
      snapshotStamped s /\ fieldFree MatchDoc.userId2 userId s
      /\ (first1 = true -> firstComplete s)
      /\ streamOk userId false first2 rest
  | Snapshot2 s :: rest =>
      snapshotStamped s /\ fieldFree MatchDoc.userId1 userId s
      /\ (first2 = true -> firstComplete s)
      /\ streamOk userId first1 false rest
  | _ :: rest => streamOk userId first1 first2 rest
  end.

Fixpoint hasSnapshot1 (stream : list MatchesEvent) : bool :=
  match stream with
  | [] => false
  | Snapshot1 _ :: _ => true
  | _ :: rest => hasSnapshot1 rest
  end.

Fixpoint hasSnapshot2 (stream : list MatchesEvent) : bool :=
  match stream with
  | [] => false
  | Snapshot2 _ :: _ => true
  | _ :: rest => hasSnapshot2 rest
  end.

Definition allValues (P : Match.t -> Prop) (m : JsMap.t Match.t) : Prop :=
  forall k v, JsMap.get k m = Some v -> P v.

(** ** Example data *)

Definition match12 : Match.t := Match.mk "" "U1" "U2" "p1" None "p2" None 0.

Definition match21 : Match.t := Match.mk "" "U2" "U1" "p2" None "p1" None 0.

(** U2 liked pet p1 of U1, then U1 liked pet p2 of U2. *)
Definition likesBothWays : gmap string LikeDoc.t :=
  snd (saveLike true "l2" 11 "U1" "p2" "U2"
         (snd (saveLike true "l1" 10 "U2" "p1" "U1" ∅))).

Definition threeThreads : gmap string ChatDoc.t :=
  <["a_u" := ChatDoc.mk (Some "a") (Some "u") (Some "hi") (Some 30) (Some 0) (Some 1)]>
    (<["u_w" := ChatDoc.mk (Some "u") (Some "w") None None (Some 0) (Some 0)]>
       (<["u_v" := ChatDoc.mk (Some "u") (Some "v") (Some "yo") (Some 20) (Some 2) (Some 0)]>
          (<["x_y" := ChatDoc.mk (Some "x") (Some "y") (Some "no") (Some 5) (Some 0) (Some 0)]>
             ∅))).

Definition store0 : ChatStore :=
  mkChatStore
    (<["u1_u2" := ChatDoc.mk (Some "u1") (Some "u2") (Some "") (Some 0)
                    (Some 0) (Some 0)]> ∅)
    ∅.

Definition store1 : ChatStore :=
  mkChatStore
    (<["u1_u2" := ChatDoc.mk (Some "u1") (Some "u2") (Some "yo") (Some 7)
                    (Some 0) (Some 2)]> ∅)
    (<["u1_u2" :=
         <["m2" := MessageDoc.mk "u1_u2" "u1" "u2" "yo" 7 false]>
           (<["m1" := MessageDoc.mk "u1_u2" "u1" "u2" "hi" 5 false]> ∅)]> ∅).

(** A draft with a trailing blank, and a draft in a chat with history. *)
Definition draftPadded : ChatDetailScreen.State :=
  ChatDetailScreen.mkState [] "hi " false.

Definition draftWithHistory : ChatDetailScreen.State :=
  ChatDetailScreen.mkState
    [Message.mk "m1" "u1_u2" "u2" "u1" "hello" 5 true] "  see you  " false.

(** Scenario A: "hi" sent optimistically at t=0, confirmed at t=200 ms. *)
Definition pendingHi : Message.t :=
  Message.mk "temp-0-0.42" "U1_U2" "U1" "U2" "hi" 0 false.

Definition confirmedHi : Message.t :=
  Message.mk "Zq3" "U1_U2" "U1" "U2" "hi" 200 false.

Definition stampedDoc : MatchDoc.t :=
  MatchDoc.mk (Some "u") (Some "v") (Some "p1") None (Some "p2") None (Some 500).

Definition pendingDoc : MatchDoc.t :=
  MatchDoc.mk (Some "u") (Some "v") (Some "p1") None (Some "p2") None None.

Definition firstSnapshotOf (d : MatchDoc.t) : SnapshotEvent :=
  mkSnapshotEvent (mkQuerySnapshot [("x", d)] [mkChange added "x" d])
    true "userId1".

(** ** chatService: reading messages *)

(** What [doc.data()] of a message document can hold: any field may be
    absent, and [timestamp] is absent while a server timestamp is
    pending. *)
Module RawMessage.
Record t := mk {
  chatId : option string;
  senderId : option string;
  receiverId : option string;
  text : option string;
  timestamp : option Z;
  read : option bool
}.
End RawMessage.

(** The data of a stored message document. *)
Definition rawMessage (d : MessageDoc.t) : RawMessage.t :=
  RawMessage.mk (Some (MessageDoc.chatId d)) (Some (MessageDoc.senderId d))
    (Some (MessageDoc.receiverId d)) (Some (MessageDoc.text d))
    (Some (MessageDoc.timestamp d)) (Some (MessageDoc.read d)).

(** [!x] on a string field that may be absent *)
Definition isFalsy (x : option string) : bool :=
  match x with
  | Some (String _ _) => false
  | _ => true
  end.

(** The message built by the snapshot callback of [getChatMessages] for one
    document; a document without text or sender is skipped. [now] is
    [new Date()]. *)
Definition toMessage (chatId : string) (now : Z) (doc : string * RawMessage.t)
  : option Message.t :=
  let data := snd doc in
  if (isFalsy (RawMessage.text data) || isFalsy (RawMessage.senderId data))%bool
  then None
  else
    Some (Message.mk (fst doc)
            (Js.orString (RawMessage.chatId data) chatId)
            (Js.orEmpty (RawMessage.senderId data))
            (Js.orEmpty (RawMessage.receiverId data))
            (Js.orEmpty (RawMessage.text data))
            (default now (RawMessage.timestamp data))
            (default false (RawMessage.read data))).

(** [snapshot.forEach(doc => { ...; messages.push(...) })] *)
Fixpoint pushMessages (chatId : string) (now : Z)
    (docs : list (string * RawMessage.t)) : list Message.t :=
  match docs with
  | [] => []
  | doc :: rest =>
      match toMessage chatId now doc with
      | Some message => message :: pushMessages chatId now rest
      | None => pushMessages chatId now rest
      end
  end.

(** The snapshot callback of [getChatMessages]: [callback(messages.reverse())] *)
Definition onMessagesSnapshot (chatId : string) (now : Z)
    (docs : list (string * RawMessage.t)) : list Message.t :=
  rev (pushMessages chatId now docs).

Definition byDocTimestampDesc (a b : string * MessageDoc.t) : Z :=
  MessageDoc.timestamp (snd b) - MessageDoc.timestamp (snd a).

(** [messagesRef.orderBy('timestamp', 'desc').limit(limit)] *)
Definition newestMessages (limit : nat) (msgs : gmap string MessageDoc.t)
  : list (string * MessageDoc.t) :=
  firstn limit (Js.sort byDocTimestampDesc (map_to_list msgs)).

(** [getChatMessages]: what the callback receives for the current content
    of the chat. *)
Definition getChatMessages (limit : nat) (chatId : string) (now : Z)
    (db : ChatStore) : list Message.t :=
  onMessagesSnapshot chatId now
    (List.map (fun e => (fst e, rawMessage (snd e)))
       (newestMessages limit (getMessagesCollection chatId db))).

(** The message built by [loadMoreMessages] for one document: nothing is
    skipped, absent fields become empty. *)
Definition toMessageLoose (chatId : string) (now : Z)
    (doc : string * RawMessage.t) : Message.t :=
  let data := snd doc in
  Message.mk (fst doc)
    (Js.orString (RawMessage.chatId data) chatId)
    (Js.orEmpty (RawMessage.senderId data))
    (Js.orEmpty (RawMessage.receiverId data))
    (Js.orEmpty (RawMessage.text data))
    (default now (RawMessage.timestamp data))
    (default false (RawMessage.read data)).

(** [orderBy('timestamp', 'desc').startAfter(lastTimestamp).limit(limit)] *)
Definition olderMessages (lastTimestamp : Z) (limit : nat)
    (msgs : gmap string MessageDoc.t) : list (string * MessageDoc.t) :=
  firstn limit
    (Js.sort byDocTimestampDesc
       (List.filter (fun e => MessageDoc.timestamp (snd e) <? lastTimestamp)
          (map_to_list msgs))).

(** [loadMoreMessages]; a failed query is rethrown. *)
Definition loadMoreMessages (fetches : bool) (limit : nat) (chatId : string)
    (lastMessageTimestamp : Z) (now : Z) (db : ChatStore)
  : result (list Message.t) :=
  if fetches then
    Ok (rev (List.map
               (fun e => toMessageLoose chatId now (fst e, rawMessage (snd e)))
               (olderMessages lastMessageTimestamp limit
                  (getMessagesCollection chatId db))))
  else Error "unavailable".

(** ** chatService: notifications for incoming messages *)











(** ** matchService: one-shot query *)

(** [getUserMatches]: both queries, concatenated and sorted newest first; a
    failed query is rethrown. *)
Definition getUserMatches (fetches : bool) (now : Z) (userId : string)
    (matchesCollection : gmap string MatchDoc.t) : result (list Match.t) :=
  if fetches then
    let snapshot1 := whereEq MatchDoc.userId1 userId matchesCollection in
    let snapshot2 := whereEq MatchDoc.userId2 userId matchesCollection in
    let matches :=
      (List.map (fun d => toMatch now (fst d) (snd d)) snapshot1
       ++ List.map (fun d => toMatch now (fst d) (snd d)) snapshot2)%list in
    Ok (Js.sort byTimestampDesc matches)
  else Error "unavailable".

(** ** Screens: opening a chat and sending *)

Record RouteParams := mkRouteParams {
  route_chatId : string;
  route_otherUserId : string;
  route_otherUserName : string;
  route_otherUserPhoto : option string
}.

(** [handleMatchPress] of the matches screen: the chat of the match is
    created or fetched and the chat screen opened on it. [otherUser] is how
    [getUser] settles for the other profile, [navigating] whether a press is
    already being handled; the other arguments are those of
    [createOrGetChat]. When [getUser] or [createOrGetChat] rejects, the
    error is caught and nothing is opened. *)
Definition handleMatchPress (reads writes : bool) (now : Z)
    (currentUserId : string) (navigating : bool)
    (otherUser : result (option User)) (m : Match.t)
    (dbRead db : ChatStore) : option RouteParams * ChatStore :=
  if (String.eqb currentUserId "user1" || navigating)%bool then (None, db)
  else
    let otherUserId :=
      if String.eqb (Match.userId1 m) currentUserId then Match.userId2 m
      else Match.userId1 m in
    match otherUser with
    | Error _ => (None, db)
    | Ok otherUser =>
        match
          createOrGetChat reads writes now currentUserId otherUserId dbRead db
        with
        | (Ok chat, db') =>
            (Some (mkRouteParams (Chat.id chat) otherUserId
                     (match otherUser with
                      | Some u => Js.orString (Some (user_name u)) "User"
                      | None => "User"
                      end)
                     (match otherUser with
                      | Some u => user_photoURL u
                      | None => None
                      end)),
             db')
        | (Error _, db') => (None, db')
        end
    end.

(** [handleSendMessage] together with the [sendMessage] it awaits: the
    component state and the store after the send has settled. [serverNow] is
    the server timestamp of the write, [now] the local [new Date()]. *)
Definition sendFromScreen (commits : bool) (messageId : string)
    (serverNow : Z) (stamp : string) (now : Z)
    (chatId currentUserId otherUserId : string)
    (during : list ChatDetailScreen.UiEvent)
    (st : ChatDetailScreen.State) (db : ChatStore)
  : ChatDetailScreen.State * ChatStore :=
  if ChatDetailScreen.sendBlocked chatId currentUserId st then (st, db)
  else
    let sent :=
      sendMessage commits messageId serverNow chatId currentUserId otherUserId
        (Js.trim (ChatDetailScreen.inputText st)) db in
    (ChatDetailScreen.handleSendMessage stamp now chatId currentUserId
       otherUserId (fst sent) during st,
     snd sent).

(** ** Vocabulary of the further properties *)

(** The ledger of a chat is balanced for a participant when the unread
    counter kept for it is the number of unread messages addressed to it. *)
Definition balanced (chatId user : string) (db : ChatStore) : Prop :=
  exists d,
    chats db !! chatId = Some d
    /\ unreadCountFor user d
       = Some (Z.of_nat (size (unreadMessages user
                                 (getMessagesCollection chatId db)))).

(** The counter kept for a participant does not overstate: it lies between
    0 and the number of unread messages addressed to the participant. *)
Definition notOverstated (chatId user : string) (db : ChatStore) : Prop :=
  exists d n,
    chats db !! chatId = Some d
    /\ unreadCountFor user d = Some n
    /\ 0 <= n
       <= Z.of_nat (size (unreadMessages user
                            (getMessagesCollection chatId db))).

(** The chat has no chat document and no message yet. *)
Definition unopened (chatId : string) (db : ChatStore) : Prop :=
  chats db !! chatId = None /\ getMessagesCollection chatId db = ∅.

(** The stores a conversation between the two profiles [a] and [b] can
    reach from a store, [chatId] being the thread id of the pair: either
    opens the chat with [createOrGetChat], either sends to the other, with
    a fresh message id, either marks its messages read; any of these may
    fail. The [get()] of a [createOrGetChat] and the unread query of a
    mark-as-read run on an earlier store of the conversation, [dbRead] or
    [dbQuery], the write or the transaction on the current one: opens,
    sends and reads of the other client may have committed in between. In
    an [undisturbed] conversation nothing commits between such a read and
    the write or transaction that follows it. *)
Inductive conversation (undisturbed : bool) (chatId a b : string)
  : ChatStore -> ChatStore -> Prop :=
| conv_start db0 : conversation undisturbed chatId a b db0 db0
| conv_open reads writes now x y db0 dbRead db :
    conversation undisturbed chatId a b db0 dbRead ->
    conversation undisturbed chatId a b dbRead db ->
    (x = a /\ y = b) \/ (x = b /\ y = a) ->
    getChatId x y = chatId ->
    (undisturbed = true -> dbRead = db) ->
    conversation undisturbed chatId a b db0
      (snd (createOrGetChat reads writes now x y dbRead db))
| conv_send commits messageId now sender receiver text db0 db :
    conversation undisturbed chatId a b db0 db ->
    (sender = a /\ receiver = b) \/ (sender = b /\ receiver = a) ->
    getMessagesCollection chatId db !! messageId = None ->
    conversation undisturbed chatId a b db0
      (snd (sendMessage commits messageId now chatId sender receiver text db))
| conv_read commits reader db0 dbQuery db :
    conversation undisturbed chatId a b db0 dbQuery ->
    conversation undisturbed chatId a b dbQuery db ->
    reader = a \/ reader = b ->
    (undisturbed = true -> dbQuery = db) ->
    conversation undisturbed chatId a b db0
      (snd (markMessagesAsRead commits chatId reader dbQuery db)).

(** A string without the character '_'. *)
Fixpoint underscoreFree (s : string) : bool :=
  match s with
  | EmptyString => true
  | String c s' => (negb (Ascii.eqb c "_"%char) && underscoreFree s')%bool
  end.

(** The chat update buffered by [sendMessage]. *)
Definition sendUpdate (chatData : ChatDoc.t) (senderId text : string)
    (now : Z) : ChatUpdate :=
  if Js.fieldIs (ChatDoc.userId1 chatData) senderId then
    mkChatUpdate (Some text) (Some now) None
      (Some (Js.orZero (ChatDoc.unreadCount2 chatData) + 1))
  else
    mkChatUpdate (Some text) (Some now)
      (Some (Js.orZero (ChatDoc.unreadCount1 chatData) + 1)) None.

(** A chat document with participants [a] (userId1) and [b] (userId2) whose
    two counters lie between 0 and the number of unread messages addressed
    to each. *)
Definition ledgerWithin (chatId a b : string) (db : ChatStore) : Prop :=
  exists d,
    chats db !! chatId = Some d
    /\ ChatDoc.userId1 d = Some a /\ ChatDoc.userId2 d = Some b
    /\ 0 <= Js.orZero (ChatDoc.unreadCount1 d)
       <= Z.of_nat (size (unreadMessages a (getMessagesCollection chatId db)))
    /\ 0 <= Js.orZero (ChatDoc.unreadCount2 d)
       <= Z.of_nat (size (unreadMessages b (getMessagesCollection chatId db))).

(** A chat document with participants [a] (userId1) and [b] (userId2) whose
    two counters count the unread messages addressed to each. *)
Definition ledgerOk (chatId a b : string) (db : ChatStore) : Prop :=
  exists d,
    chats db !! chatId = Some d
    /\ ChatDoc.userId1 d = Some a /\ ChatDoc.userId2 d = Some b
    /\ Js.orZero (ChatDoc.unreadCount1 d)
       = Z.of_nat (size (unreadMessages a (getMessagesCollection chatId db)))
    /\ Js.orZero (ChatDoc.unreadCount2 d)
       = Z.of_nat (size (unreadMessages b (getMessagesCollection chatId db))).

(** The message a stored document reads back as. *)
Definition readBack (chatId : string) (e : string * MessageDoc.t) : Message.t :=
  Message.mk (fst e)
    (Js.orString (Some (MessageDoc.chatId (snd e))) chatId)
    (MessageDoc.senderId (snd e)) (MessageDoc.receiverId (snd e))
    (MessageDoc.text (snd e)) (MessageDoc.timestamp (snd e))
    (MessageDoc.read (snd e)).

(** A stored document that the snapshot callback keeps. *)
Definition shown (e : string * MessageDoc.t) : bool :=
  (negb (ChatDetailScreen.isEmpty (MessageDoc.text (snd e)))
   && negb (ChatDetailScreen.isEmpty (MessageDoc.senderId (snd e))))%bool.

(** Every match of the map is stored under its own id. *)
Definition keyed (m : JsMap.t Match.t) : Prop :=
  forall k v, In (k, v) m -> Match.id v = k.

(** The last change that a snapshot lists for the document [k]. *)
Definition lastChange (k : string) (changes : list DocumentChange)
  : option DocumentChange :=
  List.find (fun c => String.eqb (change_id c) k) (rev changes).

(** ** likeService: listing likes *)

Module Like.
Record t := mk {
  id : string;
  likerUserId : string;
  likedAnimalId : string;
  ownerId : string;
  createdAt : Z
}.
End Like.

(** Conversion of a like document in [getUserLikes]. *)
Definition toLike (doc : string * LikeDoc.t) : Like.t :=
  let data := snd doc in
  Like.mk (fst doc)
    (Js.orEmpty (Some (LikeDoc.likerUserId data)))
    (Js.orEmpty (Some (LikeDoc.likedAnimalId data)))
    (Js.orEmpty (Some (LikeDoc.ownerId data)))
    (LikeDoc.createdAt data).

(** [getUserLikes]: the likes given by a profile; a failed query is
    rethrown. *)
Definition getUserLikes (fetches : bool) (userId : string)
    (likesCollection : gmap string LikeDoc.t) : result (list Like.t) :=
  if fetches then
    Ok (List.map toLike
          (whereEq (fun d => Some (LikeDoc.likerUserId d)) userId
             likesCollection))
  else Error "unavailable".

(** ** ChatDetailScreen: message time labels *)

(** [s.padStart(n, '0')] *)
Definition padStartZero (n : nat) (s : string) : string :=
  String.concat "" (List.repeat "0" (n - String.length s)) ++ s.

(** [date.getHours()] and [date.getMinutes()]: [localOffset date] is the
    offset of local time from UTC at that instant, in milliseconds. *)
Definition getHours (localOffset : Z -> Z) (date : Z) : Z :=
  ((date + localOffset date) / 3600000) mod 24.

Definition getMinutes (localOffset : Z -> Z) (date : Z) : Z :=
  ((date + localOffset date) / 60000) mod 60.

(** [formatMessageTime]; [now] is [new Date()]. *)
Definition formatMessageTime (localOffset : Z -> Z) (now date : Z) : string :=
  let diff := now - date in
  let minutes := diff / 60000 in
  if minutes <? 1 then "Just now"
  else if minutes <? 60 then pretty minutes ++ "m ago"
  else
    let hours := getHours localOffset date in
    let mins := getMinutes localOffset date in
    let ampm := if 12 <=? hours then "PM" else "AM" in
    let displayHours := if hours mod 12 =? 0 then 12 else hours mod 12 in
    pretty displayHours ++ ":" ++ padStartZero 2 (pretty mins) ++ " " ++ ampm.

(** Every message that [db1] stores under the chat is stored by [db2], for
    the same receiver. *)
Definition keepsMessages (chatId : string) (db1 db2 : ChatStore) : Prop :=
  forall k d,
    getMessagesCollection chatId db1 !! k = Some d ->
    exists d',
      getMessagesCollection chatId db2 !! k = Some d'
      /\ MessageDoc.receiverId d' = MessageDoc.receiverId d.

(** * Properties *)

(** ** Sorting *)

Section SortFacts.
Context {A : Type}.
Variable compareFn : A -> A -> Z.

Lemma sort_insert_perm (x : A) (l : list A) :
  Permutation (Js.sort_insert compareFn x l) (x :: l).
Proof.
  induction l as [|y l IH]; simpl; [reflexivity|].
  destruct (compareFn x y <=? 0)%Z; [reflexivity|].
  rewrite IH. apply perm_swap.
Qed.

Lemma sort_perm (l : list A) : Permutation (Js.sort compareFn l) l.
Proof.
  induction l as [|x l IH]; simpl; [reflexivity|].
  rewrite sort_insert_perm. now constructor.
Qed.

Lemma sort_length (l : list A) : length (Js.sort compareFn l) = length l.
Proof. apply Permutation_length, sort_perm. Qed.

Lemma sort_In (x : A) (l : list A) : In x (Js.sort compareFn l) <-> In x l.
Proof.
  split; apply Permutation_in; [|symmetry]; apply sort_perm.
Qed.

(** A comparator that never reports both [x > y] and [y > x]. *)
Hypothesis compare_total :
  forall x y, (0 < compareFn x y)%Z -> (compareFn y x <= 0)%Z.

Lemma sort_insert_hd (x : A) (l : list A) (z : A) :
  inOrder compareFn z x -> HdRel (inOrder compareFn) z l ->
  HdRel (inOrder compareFn) z (Js.sort_insert compareFn x l).
Proof.
  intros Hzx Hl. destruct l as [|y l]; simpl.
  - constructor. exact Hzx.
  - destruct (compareFn x y <=? 0)%Z; constructor; [exact Hzx|].
    inversion Hl; assumption.
Qed.

Lemma sort_insert_sorted (x : A) (l : list A) :
  Sorted (inOrder compareFn) l -> Sorted (inOrder compareFn) (Js.sort_insert compareFn x l).
Proof.
  induction 1 as [|y l Hl IH Hhd]; simpl.
  - repeat constructor.
  - destruct (compareFn x y <=? 0)%Z eqn:E.
    + apply Z.leb_le in E. repeat constructor; assumption.
    + apply Z.leb_gt in E. constructor; [exact IH|].
      apply sort_insert_hd; [|exact Hhd].
      now apply compare_total.
Qed.

Lemma sort_sorted (l : list A) : Sorted (inOrder compareFn) (Js.sort compareFn l).
Proof.
  induction l as [|x l IH]; simpl; [constructor|].
  now apply sort_insert_sorted.
Qed.

End SortFacts.

(** ** Thread ids *)

Lemma defaultCompare_leb (a b : string) :
  (Js.defaultCompare a b <=? 0)%Z = String.leb a b.
Proof.
  unfold Js.defaultCompare, String.leb.
  now destruct (String.compare a b).
Qed.

Lemma getChatId_spec (a b : string) : getChatId a b = threadId_spec a b.
Proof.
  unfold getChatId, threadId_spec. simpl.
  rewrite defaultCompare_leb.
  now destruct (String.leb a b).
Qed.

Lemma threadId_spec_sym (a b : string) : threadId_spec a b = threadId_spec b a.
Proof.
  unfold threadId_spec, String.leb.
  rewrite (String.compare_antisym b a).
  destruct (String.compare a b) eqn:E; simpl; try reflexivity.
  apply String.compare_eq_iff in E. now subst.
Qed.

(** C2. The chat thread id is symmetric in its two profile ids, and it is
    the two ids in lexicographic order joined with the character '_': the
    smaller id, an underscore, the larger id. *)
Theorem C2_thread_id_symmetric_sorted_joined (a b : string) :
  getChatId a b = getChatId b a
  /\ getChatId a b = threadId_spec a b
  /\ exists lo hi,
       Permutation [lo; hi] [a; b]
       /\ String.leb lo hi = true
       /\ getChatId a b = lo ++ "_" ++ hi.
Proof.
  split; [|split].
  - rewrite !getChatId_spec. apply threadId_spec_sym.
  - apply getChatId_spec.
  - rewrite getChatId_spec. unfold threadId_spec.
    destruct (String.leb a b) eqn:E.
    + exists a, b. repeat split; [reflexivity | exact E].
    + exists b, a. repeat split; [apply perm_swap|].
      unfold String.leb in *. rewrite String.compare_antisym.
      now destruct (String.compare a b).
Qed.

(** ** Sending a message *)

Lemma getDoc_Some {A} (coll : gmap string A) (id : string) (d : A) :
  coll !! id = Some d -> getDoc coll id = mkSnapshot true (Some d).
Proof. intros H. unfold getDoc. now rewrite H. Qed.

Lemma getDoc_None {A} (coll : gmap string A) (id : string) :
  coll !! id = None -> getDoc coll id = mkSnapshot false None.
Proof. intros H. unfold getDoc. now rewrite H. Qed.

Lemma fieldIs_true (x : option string) (s : string) :
  Js.fieldIs x s = true <-> x = Some s.
Proof.
  destruct x as [v|]; simpl; [|split; discriminate].
  rewrite String.eqb_eq. split; congruence.
Qed.

Lemma fieldIs_Some (v s : string) :
  Js.fieldIs (Some v) s = String.eqb v s.
Proof. reflexivity. Qed.

Lemma getMessagesCollection_insert (c c' : string)
    (ms : gmap string MessageDoc.t) (cs : gmap string ChatDoc.t)
    (msgs : gmap string (gmap string MessageDoc.t)) :
  getMessagesCollection c' (mkChatStore cs (<[c := ms]> msgs))
  = if decide (c = c') then ms else default ∅ (msgs !! c').
Proof.
  unfold getMessagesCollection. simpl.
  rewrite lookup_insert. now destruct (decide (c = c')).
Qed.

(** A transaction that does not resolve leaves the store as it was. *)
Lemma runTransaction_error_unchanged (commits : bool)
    (f : ChatStore -> result (list Write)) (db db' : ChatStore) (e : string) :
  runTransaction commits f db = (Error e, db') -> db' = db.
Proof.
  unfold runTransaction.
  destruct (f db); [|intros [= _ <-]; reflexivity].
  destruct commits; [|intros [= _ <-]; reflexivity].
  destruct (applyWrites a db); [discriminate|].
  intros [= _ <-]; reflexivity.
Qed.

(** C3. For an existing chat thread whose two participants are the sender
    and the receiver, and a fresh message id: when the transaction commits,
    the send resolves and its three effects are all in the store, computed
    from the chat document read by the same transaction: exactly one message
    is added, with read=false; lastMessage and lastMessageTime of the thread
    are set; the unread counter of the receiver is one more than before
    while that of the sender is unchanged. When the send does not resolve,
    whatever the reason, the store (the thread and its messages) is exactly
    as before: all three effects commit or none does. *)
Theorem C3_send_is_atomic (messageId : string) (now : Z)
    (chatId senderId receiverId text : string) (db : ChatStore)
    (chatData : ChatDoc.t) :
  chats db !! chatId = Some chatData ->
  participants chatData senderId receiverId ->
  getMessagesCollection chatId db !! messageId = None ->
  (exists db' chatData' count,
     sendMessage true messageId now chatId senderId receiverId text db
       = (Ok tt, db')
     /\ getMessagesCollection chatId db'
        = <[messageId := MessageDoc.mk chatId senderId receiverId text now
                           false]> (getMessagesCollection chatId db)
     /\ size (getMessagesCollection chatId db')
        = S (size (getMessagesCollection chatId db))
     /\ (forall c, c <> chatId ->
           getMessagesCollection c db' = getMessagesCollection c db
           /\ chats db' !! c = chats db !! c)
     /\ chats db' !! chatId = Some chatData'
     /\ ChatDoc.lastMessage chatData' = Some text
     /\ ChatDoc.lastMessageTime chatData' = Some now
     /\ ChatDoc.userId1 chatData' = ChatDoc.userId1 chatData
     /\ ChatDoc.userId2 chatData' = ChatDoc.userId2 chatData
     /\ unreadCountFor receiverId chatData = Some count
     /\ unreadCountFor receiverId chatData' = Some (count + 1)
     /\ unreadCountFor senderId chatData' = unreadCountFor senderId chatData)
  /\ (forall commits r db',
        sendMessage commits messageId now chatId senderId receiverId text db
          = (r, db') ->
        (commits = true /\ r = Ok tt) \/ ((exists e, r = Error e) /\ db' = db)).
Proof.
  intros Hchat [Hne Hpart] Hfresh.
  assert (Hrun : forall commits,
    sendMessage commits messageId now chatId senderId receiverId text db
    = runTransaction commits
        (fun _ => sendMessageWrites (mkSnapshot true (Some chatData)) messageId
                    now chatId senderId receiverId text) db).
  { intros commits. unfold sendMessage, runTransaction.
    now rewrite (getDoc_Some _ _ _ Hchat). }
  split.
  - rewrite Hrun. unfold runTransaction, sendMessageWrites. simpl.
    rewrite Hchat. simpl.
    destruct Hpart as [[H1 H2]|[H1 H2]];
      rewrite H1, fieldIs_Some;
      [rewrite String.eqb_refl
      |assert (String.eqb receiverId senderId = false) as Hrs
         by (apply String.eqb_neq; congruence); rewrite Hrs];
      (eexists _, _, _; split; [reflexivity|]);
      rewrite getMessagesCollection_insert;
      (destruct (decide (chatId = chatId)) as [_|]; [|done]);
      (split; [reflexivity|]);
      (split; [now apply map_size_insert_None|]);
      (split;
       [intros c Hc; rewrite getMessagesCollection_insert; simpl;
        destruct (decide (chatId = c)) as [->|_]; [done|];
        split; [reflexivity|]; now rewrite lookup_insert_ne|]);
      simpl; rewrite lookup_insert_eq;
      (split; [reflexivity|]);
      unfold unreadCountFor, applyChatUpdate; simpl;
      rewrite H1, H2, !fieldIs_Some, ?String.eqb_refl, ?Hrs;
      try (assert (String.eqb senderId receiverId = false) as ->
             by (now apply String.eqb_neq));
      repeat split; reflexivity.
  - intros commits r db' Hsend. destruct r as [u|e]; [destruct u|].
    + left. split; [|reflexivity].
      destruct commits; [reflexivity|].
      rewrite Hrun in Hsend. unfold runTransaction in Hsend.
      destruct (sendMessageWrites _ _ _ _ _ _ _); discriminate.
    + right. split; [now exists e|].
      unfold sendMessage in Hsend.
      now apply runTransaction_error_unchanged in Hsend.
Qed.

(** C10. When the chat document read by the transaction does not exist, or
    holds no data, the update function of sendMessage throws before it
    buffers any write; and for a chat id with no document in the store,
    sendMessage rejects and leaves the whole store unchanged: no message is
    added, no chat document is created or modified. *)
Theorem C10_send_without_chat_rejects (commits : bool) (messageId : string)
    (now : Z) (chatId senderId receiverId text : string) (db : ChatStore)
    (chatDoc : DocumentSnapshot ChatDoc.t) :
  snapshot_exists chatDoc = false \/ snapshot_data chatDoc = None ->
  chats db !! chatId = None ->
  (exists e, sendMessageWrites chatDoc messageId now chatId senderId
               receiverId text = Error e)
  /\ sendMessage commits messageId now chatId senderId receiverId text db
     = (Error "Chat does not exist", db).
Proof.
  intros Hdoc Hnone. split.
  - unfold sendMessageWrites.
    destruct (snapshot_exists chatDoc); simpl; [|eauto].
    destruct Hdoc as [H | H]; [discriminate|rewrite H; eauto].
  - unfold sendMessage, runTransaction.
    now rewrite (getDoc_None _ _ Hnone).
Qed.

(** ** Marking messages as read *)

Lemma applyWrites_app (ws1 ws2 : list Write) (db : ChatStore) :
  applyWrites (ws1 ++ ws2) db
  = match applyWrites ws1 db with
    | Some db' => applyWrites ws2 db'
    | None => None
    end.
Proof.
  revert db. induction ws1 as [|w ws1 IH]; intros db; simpl; [reflexivity|].
  destruct (applyWrite w db); [apply IH|reflexivity].
Qed.

Lemma setRead_idem (r : bool) (d : MessageDoc.t) :
  setRead r (setRead r d) = setRead r d.
Proof. reflexivity. Qed.

Lemma applyWrites_reads (chatId : string) (l : list (string * MessageDoc.t))
    (db : ChatStore) :
  (forall k, k ∈ l.*1 -> is_Some (getMessagesCollection chatId db !! k)) ->
  exists db',
    applyWrites (List.map (fun e => UpdateMessageRead chatId (fst e) true) l) db
      = Some db'
    /\ chats db' = chats db
    /\ (forall c, c <> chatId -> messages db' !! c = messages db !! c)
    /\ forall k,
         getMessagesCollection chatId db' !! k
         = if decide (k ∈ l.*1)
           then setRead true <$> getMessagesCollection chatId db !! k
           else getMessagesCollection chatId db !! k.
Proof.
  revert db. induction l as [|[k0 d0] l IH]; intros db Hex.
  - exists db. repeat split; reflexivity.
  - destruct (Hex k0) as [d Hd]; [simpl; left|].
    simpl. rewrite Hd.
    set (db1 := mkChatStore (chats db)
                  (<[chatId := <[k0 := setRead true d]>
                                 (getMessagesCollection chatId db)]>
                     (messages db))).
    assert (Hms1 : getMessagesCollection chatId db1
                   = <[k0 := setRead true d]> (getMessagesCollection chatId db)).
    { unfold db1. rewrite getMessagesCollection_insert.
      destruct (decide (chatId = chatId)); [reflexivity|done]. }
    destruct (IH db1) as (db' & Hrun & Hchats & Hother & Hlook).
    { intros k Hk. rewrite Hms1.
      destruct (decide (k0 = k)) as [->|Hne].
      - rewrite lookup_insert_eq. eauto.
      - rewrite lookup_insert_ne by exact Hne. apply Hex. simpl. now right. }
    exists db'. split; [exact Hrun|]. split; [exact Hchats|]. split.
    { intros c Hc. rewrite (Hother c Hc). unfold db1; simpl.
      now rewrite lookup_insert_ne. }
    intros k. rewrite Hlook, Hms1.
    destruct (decide (k0 = k)) as [->|Hne].
    + rewrite lookup_insert_eq, Hd.
      repeat case_decide; try reflexivity; exfalso;
        rewrite ?elem_of_cons in *; intuition congruence.
    + rewrite lookup_insert_ne by exact Hne.
      repeat case_decide; try reflexivity; exfalso;
        rewrite ?elem_of_cons in *; intuition congruence.
Qed.

Lemma markFor_unread (userId : string) (ms : gmap string MessageDoc.t)
    (k : string) :
  (if decide (k ∈ (map_to_list (unreadMessages userId ms)).*1)
   then setRead true <$> ms !! k else ms !! k)
  = markFor userId <$> ms !! k.
Proof.
  destruct (decide (k ∈ (map_to_list (unreadMessages userId ms)).*1))
    as [Hin|Hnin].
  - apply list_elem_of_fmap in Hin as ([k' d] & -> & Hin). simpl.
    apply elem_of_map_to_list in Hin.
    apply map_lookup_filter_Some in Hin as [Hd HP]. simpl in HP.
    rewrite Hd. simpl. unfold markFor. now rewrite decide_True.
  - destruct (ms !! k) as [d|] eqn:Hd; [|reflexivity]. simpl.
    unfold markFor.
    destruct (decide (MessageDoc.receiverId d = userId
                      /\ MessageDoc.read d = false)) as [HP|_]; [|reflexivity].
    exfalso. apply Hnin. apply list_elem_of_fmap. exists (k, d). split; [reflexivity|].
    apply elem_of_map_to_list. now apply map_lookup_filter_Some.
Qed.

Lemma unreadQuery_stored (chatId userId : string) (db : ChatStore)
    (k : string) :
  k ∈ (unreadQuery chatId userId db).*1 ->
  is_Some (getMessagesCollection chatId db !! k).
Proof.
  intros Hk. apply list_elem_of_fmap in Hk as ([k' d] & -> & Hin). simpl.
  apply elem_of_map_to_list, map_lookup_filter_Some in Hin as [Hd _]. eauto.
Qed.

(** A committed mark-as-read whose query saw [dbQuery]: the messages of the
    query's result are marked, in the store [db] of the transaction. *)
Lemma markMessagesAsRead_commit_at (chatId userId : string)
    (dbQuery db : ChatStore) (chatData : ChatDoc.t) :
  chats db !! chatId = Some chatData ->
  (forall k, k ∈ (unreadQuery chatId userId dbQuery).*1 ->
             is_Some (getMessagesCollection chatId db !! k)) ->
  exists db',
    markMessagesAsRead true chatId userId dbQuery db = (Ok tt, db')
    /\ chats db'
       = <[chatId := applyChatUpdate (resetFor userId chatData) chatData]>
           (chats db)
    /\ (forall c, c <> chatId -> messages db' !! c = messages db !! c)
    /\ forall k,
         getMessagesCollection chatId db' !! k
         = if decide (k ∈ (unreadQuery chatId userId dbQuery).*1)
           then setRead true <$> getMessagesCollection chatId db !! k
           else getMessagesCollection chatId db !! k.
Proof.
  intros Hchat Hstored.
  unfold markMessagesAsRead, runTransaction, markMessagesAsReadWrites.
  rewrite (getDoc_Some _ _ _ Hchat). simpl.
  set (l := unreadQuery chatId userId dbQuery) in *.
  destruct (applyWrites_reads chatId l db Hstored)
    as (db1 & Hrun & Hchats & Hother & Hlook).
  rewrite applyWrites_app, Hrun. simpl. rewrite Hchats, Hchat.
  eexists. split; [reflexivity|]. simpl. split.
  { unfold resetFor. now destruct (Js.fieldIs _ _). }
  split; [exact Hother|].
  intros k.
  change (getMessagesCollection chatId
            {| chats := <[chatId:=applyChatUpdate
                 (if Js.fieldIs (ChatDoc.userId1 chatData) userId
                  then mkChatUpdate None None (Some 0) None
                  else mkChatUpdate None None None (Some 0)) chatData]> (chats db);
               messages := messages db1 |})
    with (getMessagesCollection chatId db1).
  apply Hlook.
Qed.

Lemma markMessagesAsRead_commit (chatId userId : string) (db : ChatStore)
    (chatData : ChatDoc.t) :
  chats db !! chatId = Some chatData ->
  exists db',
    markMessagesAsRead true chatId userId db db = (Ok tt, db')
    /\ chats db'
       = <[chatId := applyChatUpdate (resetFor userId chatData) chatData]>
           (chats db)
    /\ (forall c, c <> chatId -> messages db' !! c = messages db !! c)
    /\ forall k,
         getMessagesCollection chatId db' !! k
         = markFor userId <$> getMessagesCollection chatId db !! k.
Proof.
  intros Hchat.
  destruct (markMessagesAsRead_commit_at chatId userId db db chatData Hchat
              (unreadQuery_stored chatId userId db))
    as (db' & Hrun & Hchats & Hother & Hlook).
  exists db'. split; [exact Hrun|]. split; [exact Hchats|].
  split; [exact Hother|].
  intros k. rewrite Hlook. apply markFor_unread.
Qed.

Lemma markFor_not_unread (userId : string) (d : MessageDoc.t) :
  ~ (MessageDoc.receiverId (markFor userId d) = userId
     /\ MessageDoc.read (markFor userId d) = false).
Proof.
  unfold markFor. case_decide as HP; simpl; [|exact HP].
  intros [_ Hr]. discriminate.
Qed.

Lemma unreadMessages_after_mark (userId : string)
    (ms ms' : gmap string MessageDoc.t) :
  (forall k, ms' !! k = markFor userId <$> ms !! k) ->
  unreadMessages userId ms' = ∅.
Proof.
  intros Hlook. apply map_empty. intros k.
  apply map_lookup_filter_None. right. intros x Hx. simpl.
  rewrite Hlook in Hx. destruct (ms !! k) as [d|]; [|discriminate].
  injection Hx as <-. apply markFor_not_unread.
Qed.

Lemma applyChatUpdate_reset_idem (userId : string) (d : ChatDoc.t) :
  let d' := applyChatUpdate (resetFor userId d) d in
  applyChatUpdate (resetFor userId d') d' = d'.
Proof.
  unfold resetFor, applyChatUpdate. simpl.
  destruct (Js.fieldIs (ChatDoc.userId1 d) userId); reflexivity.
Qed.

Lemma applyChatUpdate_reset_nonneg (userId : string) (d : ChatDoc.t) :
  countersNonneg d -> countersNonneg (applyChatUpdate (resetFor userId d) d).
Proof.
  unfold countersNonneg, resetFor, applyChatUpdate. intros [H1 H2].
  destruct (Js.fieldIs (ChatDoc.userId1 d) userId); simpl; split;
    first [assumption | apply Z.le_refl].
Qed.

Lemma storeNonneg_insert (c : string) (d : ChatDoc.t) (db : ChatStore)
    (ms : gmap string (gmap string MessageDoc.t)) :
  storeNonneg db -> countersNonneg d ->
  storeNonneg (mkChatStore (<[c := d]> (chats db)) ms).
Proof.
  intros Hdb Hd c' d'. simpl. rewrite lookup_insert.
  case_decide; [intros [= <-]; exact Hd|apply Hdb].
Qed.

Lemma runTransaction_false (f : ChatStore -> result (list Write))
    (db : ChatStore) :
  snd (runTransaction false f db) = db.
Proof. unfold runTransaction. now destruct (f db). Qed.

Lemma sendMessage_nonneg (commits : bool) (messageId : string) (now : Z)
    (chatId senderId receiverId text : string) (db : ChatStore) :
  storeNonneg db ->
  storeNonneg
    (snd (sendMessage commits messageId now chatId senderId receiverId text db)).
Proof.
  intros Hdb. unfold sendMessage.
  destruct commits; [|now rewrite runTransaction_false].
  unfold runTransaction, getDoc, sendMessageWrites.
  destruct (chats db !! chatId) as [d|] eqn:Hd; simpl; [|exact Hdb].
  rewrite Hd. simpl.
  apply (storeNonneg_insert chatId _ db); [exact Hdb|].
  destruct (Hdb _ _ Hd) as [H1 H2].
  unfold countersNonneg, applyChatUpdate.
  destruct (Js.fieldIs (ChatDoc.userId1 d) senderId); simpl; split;
    first [assumption | apply Z.add_nonneg_nonneg; [assumption|discriminate]].
Qed.

Lemma applyWrites_reads_chats (chatId : string)
    (l : list (string * MessageDoc.t)) :
  forall db db',
    applyWrites (List.map (fun e => UpdateMessageRead chatId (fst e) true) l) db
    = Some db' ->
    chats db' = chats db.
Proof.
  induction l as [|e l IH]; intros db db'; simpl; [now intros [= <-]|].
  destruct (getMessagesCollection chatId db !! fst e); [|discriminate].
  intros H. now rewrite (IH _ _ H).
Qed.

Lemma markMessagesAsRead_nonneg (commits : bool) (chatId userId : string)
    (dbQuery db : ChatStore) :
  storeNonneg db ->
  storeNonneg (snd (markMessagesAsRead commits chatId userId dbQuery db)).
Proof.
  intros Hdb. unfold markMessagesAsRead.
  destruct commits; [|now rewrite runTransaction_false].
  unfold runTransaction, markMessagesAsReadWrites.
  set (l := unreadQuery chatId userId dbQuery).
  destruct (chats db !! chatId) as [d|] eqn:Hd.
  - rewrite (getDoc_Some _ _ _ Hd). simpl. rewrite applyWrites_app.
    destruct (applyWrites _ db) as [db1|] eqn:Hrun; [|exact Hdb].
    apply applyWrites_reads_chats in Hrun. simpl. rewrite Hrun, Hd. simpl.
    apply (storeNonneg_insert chatId _ db); [exact Hdb|].
    fold (resetFor userId d).
    apply applyChatUpdate_reset_nonneg. now apply (Hdb chatId).
  - rewrite (getDoc_None _ _ Hd). simpl.
    destruct (applyWrites _ db) as [db1|] eqn:Hrun; [|exact Hdb].
    apply applyWrites_reads_chats in Hrun. simpl.
    intros c d'. rewrite Hrun. apply Hdb.
Qed.

Lemma createOrGetChat_nonneg (reads writes : bool) (now : Z)
    (userId1 userId2 : string) (dbRead db : ChatStore) :
  storeNonneg db ->
  storeNonneg
    (snd (createOrGetChat reads writes now userId1 userId2 dbRead db)).
Proof.
  intros Hdb. unfold createOrGetChat, getDoc.
  destruct reads; simpl; [|exact Hdb].
  destruct (chats dbRead !! getChatId userId1 userId2) eqn:Hd; simpl;
    [exact Hdb|].
  destruct writes; simpl; [|exact Hdb].
  apply (storeNonneg_insert _ _ db); [exact Hdb|].
  split; simpl; apply Z.le_refl.
Qed.

(** Unread counters are never negative in a store the service produces. *)
Lemma reachable_nonneg (db : ChatStore) : reachable db -> storeNonneg db.
Proof.
  induction 1 as [|reads writes now u1 u2 dbRead db _ _ _ IH
                 |commits mid now c s r t db _ IH
                 |commits c u dbQuery db _ _ _ IH].
  - intros c d. simpl. rewrite lookup_empty. discriminate.
  - now apply createOrGetChat_nonneg.
  - now apply sendMessage_nonneg.
  - now apply markMessagesAsRead_nonneg.
Qed.

Lemma applyWrites_keeps_collections (ws : list Write) (c : string) :
  forall db db',
    applyWrites ws db = Some db' ->
    is_Some (messages db !! c) -> is_Some (messages db' !! c).
Proof.
  induction ws as [|w ws IH]; intros db db'; simpl; [now intros [= <-]|].
  destruct (applyWrite w db) as [db1|] eqn:Hw; [|discriminate].
  intros Hrun Hc. apply (IH db1 db' Hrun).
  destruct w as [c0 mid d|c0 mid r|c0 u]; simpl in Hw.
  - injection Hw as <-. simpl. rewrite lookup_insert. now case_decide.
  - destruct (getMessagesCollection c0 db !! mid); [|discriminate].
    injection Hw as <-. simpl. rewrite lookup_insert. now case_decide.
  - destruct (chats db !! c0); [|discriminate]. now injection Hw as <-.
Qed.

Lemma markFor_collection (userId : string) (ms ms' : gmap string MessageDoc.t) :
  (forall k, ms' !! k = markFor userId <$> ms !! k) ->
  ms' = markFor userId <$> ms.
Proof.
  intros Hlook. apply map_eq. intros k. now rewrite Hlook, lookup_fmap.
Qed.

(** X26. A mark-as-read that nothing disturbs. For an existing thread with
    the reader as one of its two participants, when no other client commits
    between the unread query and the transaction, a committed
    [markMessagesAsRead] (a) turns every unread message addressed to the
    reader into a read one and leaves every other message as it was, in
    the stored collection of the chat, (b) leaves no unread message for
    the reader, (c) puts the unread counter of the reader at 0 and keeps
    the counter of the other participant; counters of a store produced by
    the service are never negative, before and after; a mark-as-read that
    does not commit changes nothing; and a second one for the same reader
    and thread buffers no message update at all and leaves the store,
    counter at 0 included, exactly as the first one left it. *)
Theorem markMessagesAsRead_undisturbed (chatId userId otherId : string)
    (db : ChatStore) (chatData : ChatDoc.t) :
  chats db !! chatId = Some chatData ->
  participants chatData userId otherId ->
  exists db' chatData',
    markMessagesAsRead true chatId userId db db = (Ok tt, db')
    /\ (forall k,
          getMessagesCollection chatId db' !! k
          = markFor userId <$> getMessagesCollection chatId db !! k)
    /\ (forall msgs, messages db !! chatId = Some msgs ->
          messages db' !! chatId = Some (markFor userId <$> msgs))
    /\ (forall c, c <> chatId -> messages db' !! c = messages db !! c)
    /\ unreadMessages userId (getMessagesCollection chatId db') = ∅
    /\ chats db' !! chatId = Some chatData'
    /\ unreadCountFor userId chatData' = Some 0
    /\ unreadCountFor otherId chatData' = unreadCountFor otherId chatData
    /\ (reachable db -> storeNonneg db /\ storeNonneg db')
    /\ (forall dbQuery,
          snd (markMessagesAsRead false chatId userId dbQuery db) = db)
    /\ (exists u, markMessagesAsReadWrites chatId userId
                    (unreadQuery chatId userId db') db'
                  = Ok [UpdateChat chatId u])
    /\ markMessagesAsRead true chatId userId db' db' = (Ok tt, db').
Proof.
  intros Hchat [Hne Hpart].
  destruct (markMessagesAsRead_commit chatId userId db chatData Hchat)
    as (db' & Hrun & Hchats & Hother & Hlook).
  set (chatData' := applyChatUpdate (resetFor userId chatData) chatData) in *.
  assert (Hchat' : chats db' !! chatId = Some chatData')
    by (rewrite Hchats; apply lookup_insert_eq).
  assert (Hunread : unreadMessages userId (getMessagesCollection chatId db') = ∅)
    by (eapply unreadMessages_after_mark; exact Hlook).
  assert (Hraw : forall msgs, messages db !! chatId = Some msgs ->
            messages db' !! chatId = Some (markFor userId <$> msgs)).
  { intros msgs Hmsgs.
    assert (Hsome : is_Some (messages db' !! chatId)).
    { revert Hrun. unfold markMessagesAsRead, runTransaction.
      destruct (markMessagesAsReadWrites _ _ _ db) as [ws|e]; [|discriminate].
      destruct (applyWrites ws db) as [db1|] eqn:Hws; [|discriminate].
      intros [= <-]. apply (applyWrites_keeps_collections ws chatId db db1 Hws).
      rewrite Hmsgs. eauto. }
    destruct Hsome as [msgs' Hmsgs']. rewrite Hmsgs'. f_equal.
    apply markFor_collection. intros k. specialize (Hlook k).
    unfold getMessagesCollection in Hlook. now rewrite Hmsgs, Hmsgs' in Hlook. }
  exists db', chatData'.
  split; [exact Hrun|]. split; [exact Hlook|]. split; [exact Hraw|].
  split; [exact Hother|]. split; [exact Hunread|].
  split; [exact Hchat'|].
  split; [|split].
  - unfold chatData', unreadCountFor, resetFor, applyChatUpdate. simpl.
    destruct Hpart as [[H1 H2]|[H1 H2]]; rewrite H1, H2, !fieldIs_Some.
    + now rewrite String.eqb_refl.
    + assert (String.eqb otherId userId = false) as ->
        by (apply String.eqb_neq; congruence).
      now rewrite String.eqb_refl.
  - unfold chatData', unreadCountFor, resetFor, applyChatUpdate. simpl.
    destruct Hpart as [[H1 H2]|[H1 H2]]; rewrite H1, H2, !fieldIs_Some.
    + rewrite String.eqb_refl.
      assert (String.eqb userId otherId = false) as ->
        by (now apply String.eqb_neq).
      now rewrite String.eqb_refl.
    + assert (String.eqb otherId userId = false) as ->
        by (apply String.eqb_neq; congruence).
      now rewrite !String.eqb_refl.
  - split.
    { intros Hreach. split; [now apply reachable_nonneg|].
      replace db' with (snd (markMessagesAsRead true chatId userId db db))
        by now rewrite Hrun.
      now apply reachable_nonneg, reach_read. }
    split; [intros dbQuery; apply runTransaction_false|].
    assert (Hws : markMessagesAsReadWrites chatId userId
                    (unreadQuery chatId userId db') db'
                  = Ok [UpdateChat chatId (resetFor userId chatData')]).
    { unfold markMessagesAsReadWrites, unreadQuery.
      rewrite Hunread, map_to_list_empty, (getDoc_Some _ _ _ Hchat'). simpl.
      unfold resetFor. now destruct (Js.fieldIs _ _). }
    split; [eauto|].
    unfold markMessagesAsRead, runTransaction. rewrite Hws. simpl.
    rewrite Hchat'. unfold chatData' at 1 2.
    rewrite (applyChatUpdate_reset_idem userId chatData).
    fold chatData'. rewrite (insert_id _ _ _ Hchat').
    now destruct db'.
Qed.

(** ** Reconciliation of optimistic messages *)

Lemma includes_In (l : list string) (x : string) :
  Js.includes l x = true <-> In x l.
Proof.
  unfold Js.includes. rewrite existsb_exists. split.
  - intros (y & Hy & E). apply String.eqb_eq in E. now subst.
  - intros H. exists x. split; [exact H|apply String.eqb_refl].
Qed.

Lemma NoDup_map_In_eq {A B} (f : A -> B) (l : list A) (x y : A) :
  NoDup (List.map f l) -> In x l -> In y l -> f x = f y -> x = y.
Proof.
  induction l as [|a l IH]; simpl; [tauto|].
  intros Hnd Hx Hy E. apply NoDup_cons in Hnd as [Hnotin Hnd].
  rewrite list_elem_of_In in Hnotin.
  destruct Hx as [->|Hx], Hy as [->|Hy]; auto.
  - exfalso. apply Hnotin. rewrite E. now apply in_map.
  - exfalso. apply Hnotin. rewrite <- E. now apply in_map.
Qed.

Lemma StronglySorted_weaken {A} (R R' : A -> A -> Prop) (l : list A) :
  (forall a b, R a b -> R' a b) -> StronglySorted R l -> StronglySorted R' l.
Proof.
  intros HR. induction 1 as [|a l Hl IH Hall]; constructor; [exact IH|].
  revert Hall. apply List.Forall_impl. apply HR.
Qed.

Section Reconciliation.
Import ChatDetailScreen.

Variables newMessages prev : list Message.t.

Lemma replaced_id_iff (p : Message.t) :
  NoDup (List.map Message.id (pendingOf prev)) -> In p (pendingOf prev) ->
  Js.includes
    (List.map Message.id
       (List.filter
          (fun o => existsb (fun c => replaces c o) (confirmedOf newMessages))
          (pendingOf prev)))
    (Message.id p) = negb (unmatched newMessages p).
Proof.
  intros Hnd Hp. unfold unmatched. rewrite negb_involutive.
  apply eq_true_iff_eq. rewrite includes_In, in_map_iff. split.
  - intros (q & E & Hq). apply filter_In in Hq as [Hq Hm].
    now rewrite <- (NoDup_map_In_eq Message.id (pendingOf prev) q p Hnd Hq Hp E).
  - intros Hm. exists p. split; [reflexivity|]. now apply filter_In.
Qed.

Lemma mergeMessages_perm :
  NoDup (List.map Message.id (pendingOf prev)) ->
  Permutation (mergeMessages newMessages prev)
    (confirmedOf newMessages
     ++ List.filter (unmatched newMessages) (pendingOf prev)).
Proof.
  intros Hnd. unfold mergeMessages. rewrite sort_perm.
  apply Permutation_app_head.
  fold (pendingOf prev) (confirmedOf newMessages).
  erewrite filter_ext_in; [reflexivity|].
  intros p Hp. simpl. rewrite (replaced_id_iff p Hnd Hp).
  apply negb_involutive.
Qed.

Lemma mergeMessages_sorted :
  StronglySorted
    (fun a b => Message.timestamp a <= Message.timestamp b)
    (mergeMessages newMessages prev).
Proof.
  unfold mergeMessages.
  match goal with
  | |- StronglySorted _ (Js.sort _ ?l) =>
      assert (Hs := sort_sorted byTimestampAsc
                      ltac:(unfold byTimestampAsc; intros; lia) l)
  end.
  apply Sorted_StronglySorted in Hs.
  - eapply StronglySorted_weaken; [|exact Hs].
    unfold inOrder, byTimestampAsc. intros a b. lia.
  - unfold inOrder, byTimestampAsc. intros a b c. lia.
Qed.

End Reconciliation.

Lemma replaces_matchRule (c p : Message.t) :
  ChatDetailScreen.replaces c p = true <-> matchRule c p.
Proof.
  unfold ChatDetailScreen.replaces, matchRule.
  rewrite !andb_true_iff, !String.eqb_eq, Z.ltb_lt. tauto.
Qed.

Lemma unmatched_false (newMessages : list Message.t) (p : Message.t) :
  unmatched newMessages p = false
  <-> exists c, In c (confirmedOf newMessages) /\ matchRule c p.
Proof.
  unfold unmatched. rewrite negb_false_iff, existsb_exists.
  split; intros (c & Hc & Hm); exists c; split; try exact Hc;
    now apply replaces_matchRule.
Qed.

Lemma filter_perm {A} (f : A -> bool) (l l' : list A) :
  Permutation l l' -> Permutation (List.filter f l) (List.filter f l').
Proof.
  induction 1 as [|x l l' _ IH|x y l|l l' l'' _ IH1 _ IH2]; simpl.
  - constructor.
  - destruct (f x); [now constructor|exact IH].
  - destruct (f x), (f y); try reflexivity. apply perm_swap.
  - now transitivity (List.filter f l').
Qed.

Lemma filter_comm {A} (f g : A -> bool) (l : list A) :
  List.filter f (List.filter g l) = List.filter g (List.filter f l).
Proof.
  induction l as [|x l IH]; simpl; [reflexivity|].
  destruct (f x) eqn:Ef, (g x) eqn:Eg; simpl; rewrite ?Ef, ?Eg, IH; reflexivity.
Qed.

(** C5. For pending messages with distinct temporary ids: a pending message
    is dropped from the delivered list exactly when some confirmed message
    has the same sender, the same text and a timestamp less than 5 seconds
    away; every confirmed message is kept; the delivered list is the
    confirmed messages together with the surviving pending ones, in
    ascending order of timestamp; and a pending message that is the only
    one with its sender and text, replaced by the only confirmed message
    with that sender and text, leaves exactly that one confirmed entry in
    the delivered list. *)
Theorem C5_reconciliation (newMessages prev : list Message.t) :
  NoDup (List.map Message.id (pendingOf prev)) ->
  let delivered := ChatDetailScreen.mergeMessages newMessages prev in
  (forall p, In p (pendingOf prev) ->
     (~ In p delivered
      <-> exists c, In c (confirmedOf newMessages) /\ matchRule c p))
  /\ (forall c, In c (confirmedOf newMessages) -> In c delivered)
  /\ Permutation delivered
       (confirmedOf newMessages
        ++ List.filter (unmatched newMessages) (pendingOf prev))
  /\ StronglySorted
       (fun a b => Message.timestamp a <= Message.timestamp b) delivered
  /\ (forall p c,
        List.filter (sameSenderText p) (pendingOf prev) = [p] ->
        List.filter (sameSenderText p) (confirmedOf newMessages) = [c] ->
        matchRule c p ->
        List.filter (sameSenderText p) delivered = [c]).
Proof.
  intros Hnd delivered.
  assert (Hperm := mergeMessages_perm newMessages prev Hnd).
  fold delivered in Hperm.
  assert (Hin : forall x, In x delivered
                  <-> In x (confirmedOf newMessages)
                      \/ (In x (pendingOf prev) /\ unmatched newMessages x = true)).
  { intros x. rewrite <- filter_In, <- in_app_iff.
    split; apply Permutation_in; [exact Hperm|symmetry; exact Hperm]. }
  split; [|split; [|split; [|split]]].
  - intros p Hp. rewrite <- unmatched_false, Hin. split.
    + intros Hn. destruct (unmatched newMessages p); [|reflexivity].
      exfalso. apply Hn. now right.
    + intros Hu [Hc|[_ Hu']]; [|congruence].
      apply filter_In in Hp as [_ Hopt]. apply filter_In in Hc as [_ Hreal].
      rewrite Hopt in Hreal. discriminate.
  - intros c Hc. apply Hin. now left.
  - exact Hperm.
  - apply mergeMessages_sorted.
  - intros p c Hp Hc Hm.
    apply Permutation_length_1_inv. symmetry.
    rewrite (filter_perm _ _ _ Hperm), List.filter_app, Hc, filter_comm, Hp.
    simpl.
    assert (unmatched newMessages p = false) as ->; [|reflexivity].
    apply unmatched_false. exists c. split; [|exact Hm].
    assert (In c (List.filter (sameSenderText p) (confirmedOf newMessages)))
      as Hc' by (rewrite Hc; now left).
    now apply filter_In in Hc'.
Qed.

(** ** Rollback of a failed send *)

Lemma filter_all_true {A} (f : A -> bool) (l : list A) :
  (forall x, In x l -> f x = true) -> List.filter f l = l.
Proof.
  induction l as [|x l IH]; simpl; intros H; [reflexivity|].
  rewrite (H x) by now left. f_equal. apply IH. intros y Hy. apply H. now right.
Qed.

(** C8 (as the code has it). When the send fails, whatever the component
    received while the send was awaited: the displayed list holds no message
    with the temporary id of the failed send, the input holds the text that
    was submitted, which is the original input with leading and trailing
    white space trimmed (so the original input itself when it had none), and
    the sending flag is cleared; with nothing received meanwhile and the
    temporary id not in use, the displayed list is again the list from
    before the send. *)
Theorem C8_failed_send_rolls_back (stamp : string) (now : Z)
    (chatId currentUserId otherUserId e : string)
    (during : list ChatDetailScreen.UiEvent) (st : ChatDetailScreen.State) :
  ChatDetailScreen.sendBlocked chatId currentUserId st = false ->
  let st' :=
    ChatDetailScreen.handleSendMessage stamp now chatId currentUserId
      otherUserId (Error e) during st in
  (forall m, In m (ChatDetailScreen.messages st') ->
             Message.id m <> "temp-" ++ stamp)
  /\ ChatDetailScreen.inputText st' = Js.trim (ChatDetailScreen.inputText st)
  /\ (Js.trim (ChatDetailScreen.inputText st) = ChatDetailScreen.inputText st ->
      ChatDetailScreen.inputText st' = ChatDetailScreen.inputText st)
  /\ ChatDetailScreen.sending st' = false
  /\ (during = [] ->
      (forall m, In m (ChatDetailScreen.messages st) ->
                 Message.id m <> "temp-" ++ stamp) ->
      ChatDetailScreen.messages st' = ChatDetailScreen.messages st).
Proof.
  intros Hguard st'. subst st'. unfold ChatDetailScreen.handleSendMessage.
  rewrite Hguard. simpl.
  split; [|split; [reflexivity|split; [now intros ->|split; [reflexivity|]]]].
  - intros m Hm. apply filter_In in Hm as [_ Hm].
    apply negb_true_iff, String.eqb_neq in Hm. exact Hm.
  - intros -> Hfresh. simpl.
    rewrite List.filter_app. simpl. rewrite String.eqb_refl. simpl.
    rewrite app_nil_r. apply filter_all_true.
    intros m Hm. apply negb_true_iff, String.eqb_neq. now apply Hfresh.
Qed.

(** ** JavaScript [Map] facts *)

Section JsMapFacts.
Context {V : Type}.
Implicit Types (m : JsMap.t V) (k : string) (v : V).

Lemma wf_empty : wf (@JsMap.empty V).
Proof. apply NoDup_nil_2. Qed.

Lemma get_set k k' v m :
  JsMap.get k (JsMap.set k' v m)
  = if String.eqb k k' then Some v else JsMap.get k m.
Proof.
  induction m as [|[k0 v0] m IH]; simpl; [reflexivity|].
  destruct (String.eqb_spec k' k0) as [->|Hne]; simpl.
  - now destruct (String.eqb k k0).
  - rewrite IH. destruct (String.eqb_spec k k0) as [->|Hne']; [|reflexivity].
    destruct (String.eqb_spec k0 k'); [congruence|reflexivity].
Qed.

Lemma get_delete k k' m :
  JsMap.get k (JsMap.delete k' m)
  = if String.eqb k k' then None else JsMap.get k m.
Proof.
  induction m as [|[k0 v0] m IH]; simpl.
  - now destruct (String.eqb k k').
  - destruct (String.eqb_spec k' k0) as [->|Hne]; simpl.
    + rewrite IH. now destruct (String.eqb k k0).
    + rewrite IH. destruct (String.eqb_spec k k0) as [->|Hne']; [|reflexivity].
      destruct (String.eqb_spec k0 k'); [congruence|reflexivity].
Qed.

Lemma get_None_keys k m : JsMap.get k m = None <-> ~ In k (JsMap.keys m).
Proof.
  induction m as [|[k0 v0] m IH]; simpl; [tauto|].
  destruct (String.eqb k k0) eqn:E.
  - apply String.eqb_eq in E. subst. split; [discriminate|]. intros H. tauto.
  - apply String.eqb_neq in E. rewrite IH. split; [|tauto].
    intros H [H'|H']; [congruence|tauto].
Qed.

Lemma get_deleteWhere (drop : string -> V -> bool) k m :
  wf m ->
  JsMap.get k (JsMap.deleteWhere drop m)
  = match JsMap.get k m with
    | Some v => if drop k v then None else Some v
    | None => None
    end.
Proof.
  unfold wf. induction m as [|[k0 v0] m IH]; simpl; [reflexivity|].
  intros Hnd. apply NoDup_cons in Hnd as [Hnotin Hnd].
  rewrite list_elem_of_In in Hnotin.
  destruct (String.eqb k k0) eqn:E.
  - apply String.eqb_eq in E. subst k0.
    destruct (drop k v0) eqn:Ed; simpl.
    + rewrite (IH Hnd).
      apply get_None_keys in Hnotin. now rewrite Hnotin.
    + now rewrite String.eqb_refl.
  - destruct (drop k0 v0); simpl; rewrite ?E; now apply IH.
Qed.

Lemma keys_set k v m :
  JsMap.keys (JsMap.set k v m)
  = if Js.includes (JsMap.keys m) k then JsMap.keys m
    else (JsMap.keys m ++ [k])%list.
Proof.
  unfold Js.includes.
  induction m as [|[k0 v0] m IH]; simpl; [reflexivity|].
  destruct (String.eqb k k0) eqn:E; simpl.
  - apply String.eqb_eq in E. now subst.
  - rewrite IH. now destruct (existsb (String.eqb k) (JsMap.keys m)).
Qed.

Lemma wf_set k v m : wf m -> wf (JsMap.set k v m).
Proof.
  unfold wf. intros Hnd. rewrite keys_set.
  destruct (Js.includes (JsMap.keys m) k) eqn:E; [exact Hnd|].
  apply NoDup_app. split; [exact Hnd|]. split; [|apply NoDup_singleton].
  intros x Hx Hx'. apply list_elem_of_singleton in Hx'. subst x.
  apply list_elem_of_In, includes_In in Hx. congruence.
Qed.

Lemma keys_delete_subset k k' m :
  In k (JsMap.keys (JsMap.delete k' m)) -> In k (JsMap.keys m).
Proof.
  induction m as [|[k0 v0] m IH]; simpl; [tauto|].
  destruct (String.eqb k' k0); simpl; tauto.
Qed.

Lemma wf_delete k m : wf m -> wf (JsMap.delete k m).
Proof.
  unfold wf. induction m as [|[k0 v0] m IH]; simpl; [trivial|].
  intros Hnd. apply NoDup_cons in Hnd as [Hnotin Hnd].
  destruct (String.eqb k k0); [now apply IH|]. simpl.
  apply NoDup_cons. split; [|now apply IH].
  rewrite list_elem_of_In in *. intros H. apply Hnotin.
  now apply keys_delete_subset in H.
Qed.

Lemma wf_deleteWhere (drop : string -> V -> bool) m :
  wf m -> wf (JsMap.deleteWhere drop m).
Proof.
  unfold wf, JsMap.deleteWhere.
  induction m as [|[k0 v0] m IH]; simpl; [trivial|].
  intros Hnd. apply NoDup_cons in Hnd as [Hnotin Hnd].
  destruct (drop k0 v0); simpl; [now apply IH|].
  apply NoDup_cons. split; [|now apply IH].
  rewrite list_elem_of_In in *. intros H. apply Hnotin.
  unfold JsMap.keys in *. apply in_map_iff in H as (e & <- & He).
  apply filter_In in He as [He _]. now apply in_map.
Qed.

Lemma get_Some_In k v m : wf m -> (JsMap.get k m = Some v <-> In (k, v) m).
Proof.
  unfold wf. induction m as [|[k0 v0] m IH]; simpl.
  - intros _. split; [discriminate|tauto].
  - intros Hnd. apply NoDup_cons in Hnd as [Hnotin Hnd].
    rewrite list_elem_of_In in Hnotin.
    destruct (String.eqb k k0) eqn:E.
    + apply String.eqb_eq in E. subst k0. split.
      * intros [= ->]. now left.
      * intros [[= ->]|H]; [reflexivity|].
        exfalso. apply Hnotin. unfold JsMap.keys.
        apply in_map_iff. now exists (k, v).
    + apply String.eqb_neq in E. rewrite (IH Hnd). split; [tauto|].
      intros [[= <- _]|H]; [congruence|exact H].
Qed.

Lemma wf_NoDup m : wf m -> NoDup m.
Proof.
  unfold wf, JsMap.keys. intros H.
  apply (NoDup_fmap_1 fst).
  replace (fst <$> m) with (List.map fst m); [exact H|].
  induction m; simpl; [reflexivity|]. now f_equal.
Qed.

(** Two maps with the same keyed content hold the same entries, hence the
    same values up to order. *)
Lemma sameEntries_values m1 m2 :
  wf m1 -> wf m2 -> sameEntries m1 m2 ->
  Permutation (JsMap.values m1) (JsMap.values m2).
Proof.
  intros H1 H2 Hs. unfold JsMap.values. apply Permutation_map.
  apply NoDup_Permutation; try now apply wf_NoDup.
  intros [k v]. rewrite !list_elem_of_In, <- !get_Some_In by assumption.
  now rewrite (Hs k).
Qed.

End JsMapFacts.

(** ** Replay of the realtime match merge *)

(** What a sequence of [Map] operations does to one key: it either forces
    the outcome whatever was there ([constant]) or keeps what was there
    unless it removes it ([shrinking]). Both kinds are closed under
    composition and idempotent. *)
Section KeyEffects.
Context {V : Type}.
Implicit Types f g : option V -> option V.

Lemma settled_id : settled (fun x : option V => x).
Proof. right. intros x. now right. Qed.

Lemma settled_const (c : option V) : settled (fun _ : option V => c).
Proof. left. intros x y. reflexivity. Qed.

Lemma settled_compose f g : settled f -> settled g -> settled (fun x => g (f x)).
Proof.
  intros [Hf|Hf] [Hg|Hg].
  - left. intros x y. apply Hg.
  - left. intros x y. now rewrite (Hf x y).
  - left. intros x y. apply Hg.
  - right. intros x. destruct (Hf x) as [E|E]; rewrite E.
    + destruct (Hg None) as [E'|E']; rewrite E'; now left.
    + apply Hg.
Qed.

Lemma settled_idem f x : settled f -> f (f x) = f x.
Proof.
  intros [Hf|Hf]; [apply Hf|].
  destruct (Hf x) as [E|E]; rewrite E; [|exact E].
  destruct (Hf None) as [E'|E']; exact E'.
Qed.

End KeyEffects.

Lemma toMatch_stamped (now now' : Z) (id : string) (d : MatchDoc.t) :
  dataStamped d -> toMatch now id d = toMatch now' id d.
Proof. intros [t Ht]. unfold toMatch. now rewrite Ht. Qed.

Lemma wf_setDocs (now : Z) (l : list (string * MatchDoc.t)) (m : JsMap.t Match.t) :
  wf m -> wf (fold_left (setDoc now) l m).
Proof.
  revert m. induction l as [|d l IH]; intros m Hm; simpl; [exact Hm|].
  apply IH. now apply wf_set.
Qed.

Lemma wf_applyChanges (now : Z) (l : list DocumentChange) (m : JsMap.t Match.t) :
  wf m -> wf (fold_left (applyChange now) l m).
Proof.
  revert m. induction l as [|c l IH]; intros m Hm; simpl; [exact Hm|].
  apply IH. unfold applyChange.
  destruct (change_type c); first [now apply wf_set | now apply wf_delete].
Qed.

Lemma wf_handleSnapshot (userId : string) (now : Z) (s : QuerySnapshot)
    (first : bool) (q : string) (m : JsMap.t Match.t) :
  wf m -> wf (handleSnapshot userId now s first q m).
Proof.
  intros Hm. unfold handleSnapshot. destruct first.
  - apply wf_deleteWhere. now apply (wf_setDocs now).
  - now apply (wf_applyChanges now).
Qed.

Lemma setDocs_effect (k : string) (l : list (string * MatchDoc.t)) :
  Forall (fun d => dataStamped (snd d)) l ->
  exists f, settled f /\
    forall now m, JsMap.get k (fold_left (setDoc now) l m) = f (JsMap.get k m).
Proof.
  induction 1 as [|d l Hd _ (f & Hf & IH)].
  - exists (fun x => x). split; [apply settled_id|reflexivity].
  - exists (fun x => f (if String.eqb k (fst d)
                        then Some (toMatch 0 (fst d) (snd d)) else x)).
    split.
    + apply (settled_compose _ f); [|exact Hf].
      destruct (String.eqb k (fst d)); [apply settled_const|apply settled_id].
    + intros now m. simpl. rewrite IH. unfold setDoc. rewrite get_set.
      now rewrite (toMatch_stamped now 0 _ _ Hd).
Qed.

Lemma applyChanges_effect (k : string) (l : list DocumentChange) :
  Forall (fun c => change_type c <> removed -> dataStamped (change_data c)) l ->
  exists f, settled f /\
    forall now m,
      JsMap.get k (fold_left (applyChange now) l m) = f (JsMap.get k m).
Proof.
  induction 1 as [|c l Hc _ (f & Hf & IH)].
  - exists (fun x => x). split; [apply settled_id|reflexivity].
  - exists (fun x =>
              f (if String.eqb k (change_id c)
                 then match change_type c with
                      | removed => None
                      | _ => Some (toMatch 0 (change_id c) (change_data c))
                      end
                 else x)).
    split.
    + apply (settled_compose _ f); [|exact Hf].
      destruct (String.eqb k (change_id c)); [apply settled_const|apply settled_id].
    + intros now m. simpl. rewrite IH. unfold applyChange.
      destruct (change_type c) eqn:Et.
      * rewrite get_set, (toMatch_stamped now 0); [reflexivity|].
        apply Hc. discriminate.
      * rewrite get_set, (toMatch_stamped now 0); [reflexivity|].
        apply Hc. discriminate.
      * now rewrite get_delete.
Qed.

Lemma handleSnapshot_effect (userId : string) (s : QuerySnapshot)
    (first : bool) (q : string) (k : string) :
  snapshotStamped s ->
  exists f, settled f /\
    forall now m, wf m ->
      JsMap.get k (handleSnapshot userId now s first q m) = f (JsMap.get k m).
Proof.
  intros [Hdocs Hchanges]. unfold handleSnapshot. destruct first.
  - destruct (setDocs_effect k (docs s) Hdocs) as (f & Hf & Hget).
    set (drop := noLongerInQuery userId q (List.map fst (docs s))).
    exists (fun x => match f x with
                     | Some v => if drop k v then None else Some v
                     | None => None
                     end).
    split.
    + apply (settled_compose f
               (fun y => match y with
                         | Some v => if drop k v then None else Some v
                         | None => None
                         end)); [exact Hf|].
      right. intros [v|]; [|now left]. destruct (drop k v); [now left|now right].
    + intros now m Hm.
      rewrite get_deleteWhere by now apply (wf_setDocs now).
      fold (setDoc now). now rewrite Hget.
  - destruct (applyChanges_effect k (docChanges s) Hchanges) as (f & Hf & Hget).
    exists f. split; [exact Hf|]. intros now m _. apply Hget.
Qed.

Lemma wf_replay (userId : string) (clock : nat -> Z) (events : list SnapshotEvent) :
  forall start m, wf m -> wf (replay userId clock start events m).
Proof.
  induction events as [|ev events IH]; intros start m Hm; simpl; [exact Hm|].
  apply IH. now apply wf_handleSnapshot.
Qed.

Lemma replay_effect (userId : string) (events : list SnapshotEvent) (k : string) :
  Forall (fun ev => snapshotStamped (ev_snapshot ev)) events ->
  exists f, settled f /\
    forall clock start m, wf m ->
      JsMap.get k (replay userId clock start events m) = f (JsMap.get k m).
Proof.
  induction 1 as [|ev events Hev _ (f & Hf & IH)].
  - exists (fun x => x). split; [apply settled_id|reflexivity].
  - destruct (handleSnapshot_effect userId (ev_snapshot ev) (ev_isFirstLoad ev)
                (ev_queryName ev) k Hev) as (g & Hg & Hget).
    exists (fun x => f (g x)). split; [now apply settled_compose|].
    intros clock start m Hm. simpl.
    rewrite IH by now apply wf_handleSnapshot.
    now rewrite Hget.
Qed.

Lemma wf_onSnapshots (clock : nat -> Z) (events : list QuerySnapshot) :
  forall start m, wf m -> wf (MatchServiceTs.replay clock start events m).
Proof.
  induction events as [|s events IH]; intros start m Hm; simpl; [exact Hm|].
  apply IH. now apply (wf_setDocs (clock start)).
Qed.

Lemma onSnapshots_effect (events : list QuerySnapshot) (k : string) :
  Forall snapshotStamped events ->
  exists f, settled f /\
    forall clock start m,
      JsMap.get k (MatchServiceTs.replay clock start events m) = f (JsMap.get k m).
Proof.
  induction 1 as [|s events [Hs _] _ (f & Hf & IH)].
  - exists (fun x => x). split; [apply settled_id|reflexivity].
  - destruct (setDocs_effect k (docs s) Hs) as (g & Hg & Hget).
    exists (fun x => f (g x)). split; [now apply settled_compose|].
    intros clock start m. simpl. rewrite IH.
    unfold MatchServiceTs.onSnapshot. fold (setDoc (clock start)).
    now rewrite Hget.
Qed.

Lemma processMatches_perm (m1 m2 : JsMap.t Match.t) :
  wf m1 -> wf m2 -> sameEntries m1 m2 ->
  Permutation (processMatches m1) (processMatches m2).
Proof.
  intros H1 H2 Hs. unfold processMatches.
  rewrite !sort_perm. now apply sameEntries_values.
Qed.


(** ** Mutual likes *)

Lemma scanOwnerLikes_isMatch (likerUserId : string) (userAnimalIds : list string)
    (ownerLikes : list (string * LikeDoc.t)) :
  isMatch (scanOwnerLikes likerUserId userAnimalIds ownerLikes) = true
  <-> exists e, In e ownerLikes
        /\ (LikeDoc.ownerId (snd e) = likerUserId
            \/ In (LikeDoc.likedAnimalId (snd e)) userAnimalIds).
Proof.
  induction ownerLikes as [|e l IH]; simpl.
  - split; [discriminate|]. intros (e & [] & _).
  - destruct (String.eqb_spec (LikeDoc.ownerId (snd e)) likerUserId) as [E|E];
      simpl.
    + split; [|reflexivity]. intros _. exists e. split; [now left|now left].
    + destruct (Js.includes userAnimalIds (LikeDoc.likedAnimalId (snd e))) eqn:Ei;
        simpl.
      * split; [|reflexivity]. intros _. exists e. split; [now left|].
        right. now apply includes_In.
      * rewrite IH. split.
        -- intros (e' & Hin & H). exists e'. split; [now right|exact H].
        -- intros (e' & [<-|Hin] & H); [|now exists e'].
           destruct H as [H|H]; [congruence|].
           apply includes_In in H. congruence.
Qed.

Lemma whereEq_In {A} (field : A -> option string) (v : string)
    (coll : gmap string A) (id : string) (d : A) :
  In (id, d) (whereEq field v coll) <-> coll !! id = Some d /\ field d = Some v.
Proof.
  unfold whereEq. rewrite <- list_elem_of_In, elem_of_map_to_list.
  now rewrite map_lookup_filter_Some.
Qed.

(** C9. When the likes of the owner O can be fetched, the mutual-like check
    run for a like by U on a pet of O reports a match exactly when some
    like edge whose liker is O targets a pet of U, whichever pet that is:
    the edge names U as owner of the liked pet, or the liked pet is one of
    U's animals. The pet that U liked plays no part. When every like edge
    on one of U's animals names U as owner, this is: exactly when some edge
    of O has U as the owner of the liked pet. *)
Theorem C9_mutual_like_profile_level (likerUserId ownerId : string)
    (userAnimals : list Animal) (likesCollection : gmap string LikeDoc.t) :
  let found :=
    isMatch (checkMutualLike true likerUserId ownerId userAnimals likesCollection) in
  (found = true
   <-> exists id edge,
         likesCollection !! id = Some edge
         /\ LikeDoc.likerUserId edge = ownerId
         /\ targetsPetOf likerUserId userAnimals edge)
  /\ ((forall id edge,
         likesCollection !! id = Some edge ->
         In (LikeDoc.likedAnimalId edge) (List.map animal_id userAnimals) ->
         LikeDoc.ownerId edge = likerUserId) ->
      (found = true
       <-> exists id edge,
             likesCollection !! id = Some edge
             /\ LikeDoc.likerUserId edge = ownerId
             /\ LikeDoc.ownerId edge = likerUserId)).
Proof.
  intros found.
  assert (H : found = true
              <-> exists id edge,
                    likesCollection !! id = Some edge
                    /\ LikeDoc.likerUserId edge = ownerId
                    /\ targetsPetOf likerUserId userAnimals edge).
  { unfold found, checkMutualLike. rewrite scanOwnerLikes_isMatch. split.
    - intros ([id edge] & Hin & Ht). apply whereEq_In in Hin as [Hl [= Ho]].
      now exists id, edge.
    - intros (id & edge & Hl & Ho & Ht). exists (id, edge).
      split; [|exact Ht]. apply whereEq_In. now rewrite Ho. }
  split; [exact H|].
  intros Hcons. rewrite H. split.
  - intros (id & edge & Hl & Ho & [Ht|Ht]); exists id, edge; eauto.
  - intros (id & edge & Hl & Ho & Ht). exists id, edge.
    split; [exact Hl|]. split; [exact Ho|]. now left.
Qed.

Lemma C9_mutual_like_profile_level_witness :
  isMatch
    (checkMutualLike true "U" "O"
       [mkAnimal "p1" "Rex" "dog" 3 "lab" "" "" "U"]
       (<["l1" := LikeDoc.mk "O" "p9" "U" 1]> ∅)) = true.
Proof.
  apply (C9_mutual_like_profile_level "U" "O"
           [mkAnimal "p1" "Rex" "dog" 3 "lab" "" "" "U"]
           (<["l1" := LikeDoc.mk "O" "p9" "U" 1]> ∅)).
  - intros id edge Hl _.
    destruct (decide (id = "l1")) as [->|Hne].
    + rewrite lookup_insert_eq in Hl. now injection Hl as <-.
    + rewrite lookup_insert_ne, lookup_empty in Hl by congruence. discriminate.
  - exists "l1", (LikeDoc.mk "O" "p9" "U" 1).
    split; [apply lookup_insert_eq|]. split; reflexivity.
Defined.

(** ** Match creation *)

(** C1 (as the code has it). [saveMatch] consults nothing and derives no key
    from the pair: a committed call stores its match under the fresh id the
    store generated, keeps every stored match, and so raises the number of
    matches of the unordered pair by exactly one, also when the pair already
    has one. A pair without a match has exactly one after the call. *)
Theorem C1_saveMatch_adds_one_edge (docId : string) (now : Z)
    (matchData : Match.t) (matchesCollection : gmap string MatchDoc.t) :
  matchesCollection !! docId = None ->
  let a := Match.userId1 matchData in
  let b := Match.userId2 matchData in
  let after := snd (saveMatch true docId now matchData matchesCollection) in
  fst (saveMatch true docId now matchData matchesCollection) = Ok tt
  /\ (forall id d, matchesCollection !! id = Some d -> after !! id = Some d)
  /\ (exists d, after !! docId = Some d /\ edgeOf a b d)
  /\ size (edgesFor a b after) = S (size (edgesFor a b matchesCollection))
  /\ (edgesFor a b matchesCollection = ∅ -> size (edgesFor a b after) = 1%nat).
Proof.
  intros Hfresh a b after. subst after. simpl.
  set (d := MatchDoc.mk _ _ _ _ _ _ _).
  assert (Hedge : edgeOf a b d) by (left; split; reflexivity).
  assert (Hsize : size (edgesFor a b (<[docId := d]> matchesCollection))
                  = S (size (edgesFor a b matchesCollection))).
  { unfold edgesFor. rewrite map_filter_insert_True by exact Hedge.
    apply map_size_insert_None. apply map_lookup_filter_None. now left. }
  split; [reflexivity|]. split.
  - intros id d' Hd'. rewrite lookup_insert_ne; [exact Hd'|]. congruence.
  - split; [exists d; split; [apply lookup_insert_eq|exact Hedge]|].
    split; [exact Hsize|].
    intros Hempty. rewrite Hsize, Hempty. reflexivity.
Qed.

Lemma C1_saveMatch_adds_one_edge_witness :
  size (edgesFor "U1" "U2" (snd (saveMatch true "m1" 1 match12 ∅))) = 1%nat.
Proof.
  apply (C1_saveMatch_adds_one_edge "m1" 1 match12 ∅); reflexivity.
Defined.

(** C1 as the specification states it does not hold: both profiles have liked a
    pet of the other, the check reports a match to each of them, and the two
    resulting [saveMatch] calls leave two match documents for the one
    unordered pair. *)
Lemma C1_two_edges_for_one_pair :
  isMatch (checkMutualLike true "U1" "U2" [] likesBothWays) = true
  /\ isMatch (checkMutualLike true "U2" "U1" [] likesBothWays) = true
  /\ size (edgesFor "U1" "U2"
             (snd (saveMatch true "m2" 2 match21
                     (snd (saveMatch true "m1" 1 match12 ∅))))) = 2%nat.
Proof. repeat split; vm_compute; reflexivity. Qed.

(** ** The thread list *)

Lemma fmap_map {A B} (f : A -> B) (l : list A) : f <$> l = List.map f l.
Proof. induction l; simpl; [reflexivity|]. now f_equal. Qed.

Section FoldSet.
Context {V : Type}.
Implicit Types (m : JsMap.t V) (l : list (string * V)).

Lemma wf_setAll l m : wf m -> wf (setAll l m).
Proof.
  revert m. induction l as [|e l IH]; intros m Hm; simpl; [exact Hm|].
  apply IH. now apply wf_set.
Qed.

Lemma In_keys_set k k' v m :
  In k (JsMap.keys (JsMap.set k' v m)) <-> k = k' \/ In k (JsMap.keys m).
Proof.
  rewrite keys_set. destruct (Js.includes (JsMap.keys m) k') eqn:E.
  - apply includes_In in E. split; [tauto|]. intros [->|H]; assumption.
  - rewrite in_app_iff. simpl. intuition congruence.
Qed.

Lemma In_keys_setAll k l m :
  In k (JsMap.keys (setAll l m)) <-> In k (JsMap.keys m) \/ In k (List.map fst l).
Proof.
  revert m. induction l as [|e l IH]; intros m; simpl; [tauto|].
  fold (setAll l (JsMap.set (fst e) (snd e) m)).
  rewrite IH, In_keys_set. intuition congruence.
Qed.

Lemma In_set k k' v v' m :
  In (k, v) (JsMap.set k' v' m) -> (k, v) = (k', v') \/ In (k, v) m.
Proof.
  induction m as [|[k0 v0] m IH]; simpl.
  - intros [H|[]]. now left.
  - destruct (String.eqb k' k0); simpl.
    + intros [H|H]; [now left|right; now right].
    + intros [H|H]; [right; now left|].
      destruct (IH H) as [H'|H']; [now left|right; now right].
Qed.

Lemma In_setAll k v l m :
  In (k, v) (setAll l m) -> In (k, v) l \/ In (k, v) m.
Proof.
  revert m. induction l as [|e l IH]; intros m; simpl; [tauto|].
  fold (setAll l (JsMap.set (fst e) (snd e) m)).
  intros H. destruct (IH _ H) as [H'|H']; [left; now right|].
  apply In_set in H' as [H'|H']; [|now right].
  left. left. destruct e. simpl in H'. congruence.
Qed.

End FoldSet.

Lemma NoDup_map_fst_filter {A B} (f : A * B -> bool) (l : list (A * B)) :
  NoDup (List.map fst l) -> NoDup (List.map fst (List.filter f l)).
Proof.
  induction l as [|x l IH]; simpl; [trivial|].
  intros Hnd. apply NoDup_cons in Hnd as [Hnotin Hnd].
  destruct (f x); simpl; [|now apply IH].
  apply NoDup_cons. split; [|now apply IH].
  rewrite list_elem_of_In in *. intros H. apply Hnotin.
  apply in_map_iff in H as (e & <- & He).
  apply filter_In in He as [He _]. now apply in_map.
Qed.

Lemma whereEq_NoDup {A} (field : A -> option string) (v : string)
    (coll : gmap string A) :
  NoDup (List.map fst (whereEq field v coll)).
Proof. rewrite <- fmap_map. apply NoDup_fst_map_to_list. Qed.

Lemma In_map_fst_whereEq {A} (field : A -> option string) (v : string)
    (coll : gmap string A) (id : string) :
  In id (List.map fst (whereEq field v coll))
  <-> exists d, coll !! id = Some d /\ field d = Some v.
Proof.
  rewrite in_map_iff. split.
  - intros ([id' d] & <- & Hin). exists d. now apply whereEq_In.
  - intros (d & Hd). exists (id, d). split; [reflexivity|]. now apply whereEq_In.
Qed.

Lemma processChats_ids (userId : string) (coll : gmap string ChatDoc.t)
    (users : gmap string User) :
  Permutation (List.map Chat.id (processChats userId coll users))
    (List.map fst (sideA userId coll) ++ List.map fst (sideBOnly userId coll)).
Proof.
  unfold processChats.
  set (entries := List.map (fun chat => (Chat.id chat, chat)) _).
  assert (Hentries : List.map fst entries
                     = (List.map fst (whereEq ChatDoc.userId1 userId coll)
                        ++ List.map fst (whereEq ChatDoc.userId2 userId coll))%list).
  { unfold entries. rewrite List.map_map, List.map_app, !List.map_map. simpl.
    reflexivity. }
  assert (Hwf : wf (JsMap.ofEntries entries)) by (apply wf_setAll, wf_empty).
  assert (Hids : List.map Chat.id (JsMap.values (JsMap.ofEntries entries))
                 = JsMap.keys (JsMap.ofEntries entries)).
  { unfold JsMap.values, JsMap.keys. rewrite List.map_map.
    apply List.map_ext_in. intros [k v] Hin. simpl.
    apply In_setAll in Hin as [Hin|[]].
    unfold entries in Hin. apply in_map_iff in Hin as (c & [= <- <-] & _).
    reflexivity. }
  rewrite (Permutation_map Chat.id (sort_perm _ _)).
  rewrite List.map_map. simpl.
  replace (List.map (fun x => Chat.id x) (JsMap.values (JsMap.ofEntries entries)))
    with (JsMap.keys (JsMap.ofEntries entries)) by (symmetry; exact Hids).
  apply NoDup_Permutation.
  - exact Hwf.
  - apply NoDup_app. split; [apply whereEq_NoDup|]. split.
    + intros id H1 H2. rewrite list_elem_of_In in *.
      apply In_map_fst_whereEq in H1 as (d & Hd & H1).
      apply in_map_iff in H2 as ([id' d'] & <- & H2). simpl in Hd.
      apply filter_In in H2 as [H2 Hf]. apply whereEq_In in H2 as [Hd' _].
      simpl in Hf. rewrite Hd in Hd'. injection Hd' as <-.
      apply negb_true_iff in Hf. apply fieldIs_true in H1. congruence.
    + apply NoDup_map_fst_filter, whereEq_NoDup.
  - intros id. rewrite !list_elem_of_In.
    unfold JsMap.ofEntries. fold (setAll entries JsMap.empty).
    rewrite In_keys_setAll, Hentries, !in_app_iff. simpl.
    unfold sideA, sideBOnly. split.
    + intros [[]|[H|H]]; [now left|].
      apply in_map_iff in H as ([id' d] & <- & H). simpl.
      destruct (Js.fieldIs (ChatDoc.userId1 d) userId) eqn:Ef.
      * left. apply In_map_fst_whereEq. exists d. split.
        -- now apply whereEq_In in H.
        -- now apply fieldIs_true.
      * right. apply in_map_iff. exists (id', d). split; [reflexivity|].
        apply filter_In. split; [exact H|]. simpl. now rewrite Ef.
    + intros [H|H]; right; [now left|right].
      apply in_map_iff in H as (e & <- & H). apply filter_In in H as [H _].
      now apply in_map.
Qed.

(** C7. For a profile that is side A (userId1) of 2 chat threads and side B
    (userId2) of 1 other thread, the thread list that [getUserChats] hands
    to its callback, built from the two role-keyed queries, has length 3
    and lists no thread id twice; its ids are exactly those of the threads
    in which the profile takes part. *)
Theorem C7_merged_thread_list (userId : string)
    (chatsCollection : gmap string ChatDoc.t)
    (usersCollection : gmap string User) :
  length (sideA userId chatsCollection) = 2%nat ->
  length (sideBOnly userId chatsCollection) = 1%nat ->
  let delivered := processChats userId chatsCollection usersCollection in
  length delivered = 3%nat
  /\ NoDup (List.map Chat.id delivered)
  /\ (forall id,
        In id (List.map Chat.id delivered)
        <-> exists d, chatsCollection !! id = Some d
              /\ (ChatDoc.userId1 d = Some userId
                  \/ ChatDoc.userId2 d = Some userId)).
Proof.
  intros HA HB delivered.
  assert (Hperm := processChats_ids userId chatsCollection usersCollection).
  fold delivered in Hperm.
  split; [|split].
  - rewrite <- (List.length_map Chat.id), (Permutation_length Hperm).
    rewrite List.length_app, !List.length_map, HA, HB. reflexivity.
  - rewrite Hperm. apply NoDup_app. split; [apply whereEq_NoDup|]. split.
    + intros id H1 H2. rewrite list_elem_of_In in *.
      apply In_map_fst_whereEq in H1 as (d & Hd & H1).
      apply in_map_iff in H2 as ([id' d'] & <- & H2). simpl in Hd.
      apply filter_In in H2 as [H2 Hf]. apply whereEq_In in H2 as [Hd' _].
      simpl in Hf. rewrite Hd in Hd'. injection Hd' as <-.
      apply negb_true_iff in Hf. apply fieldIs_true in H1. congruence.
    + apply NoDup_map_fst_filter, whereEq_NoDup.
  - intros id. split.
    + intros Hin. apply (Permutation_in _ Hperm) in Hin.
      apply in_app_iff in Hin as [Hin|Hin].
      * apply In_map_fst_whereEq in Hin as (d & Hd & H1). eauto.
      * apply in_map_iff in Hin as ([id' d] & <- & Hin).
        apply filter_In in Hin as [Hin _].
        apply whereEq_In in Hin as [Hd H2]. eauto.
    + intros (d & Hd & H). apply (Permutation_in _ (Permutation_sym Hperm)).
      apply in_app_iff.
      destruct (Js.fieldIs (ChatDoc.userId1 d) userId) eqn:Ef.
      * left. apply In_map_fst_whereEq. exists d. split; [exact Hd|].
        now apply fieldIs_true.
      * right. apply in_map_iff. exists (id, d). split; [reflexivity|].
        apply filter_In. split; [|simpl; now rewrite Ef].
        apply whereEq_In. split; [exact Hd|].
        destruct H as [H|H]; [|exact H].
        apply fieldIs_true in H. congruence.
Qed.

Lemma C7_merged_thread_list_witness :
  length (processChats "u" threeThreads ∅) = 3%nat.
Proof.
  assert (HA : length (sideA "u" threeThreads) = 2%nat)
    by (vm_compute; reflexivity).
  assert (HB : length (sideBOnly "u" threeThreads) = 1%nat)
    by (vm_compute; reflexivity).
  exact (proj1 (C7_merged_thread_list "u" threeThreads ∅ HA HB)).
Defined.

Example processChats_threeThreads :
  List.map Chat.id (processChats "u" threeThreads ∅) = ["a_u"; "u_v"; "u_w"].
Proof. vm_compute. reflexivity. Qed.

(** ** The live subscription *)

Lemma runMatchesRealtime_calls (userId : string) (clock : nat -> Z)
    (stream : list MatchesEvent) :
  forall start st,
    matchesMap (runMatchesRealtime userId clock start stream st)
    = replay userId clock start
        (callsOf (isFirstLoad1 st) (isFirstLoad2 st) stream) (matchesMap st).
Proof.
  induction stream as [|ev stream IH]; intros start st; simpl; [reflexivity|].
  destruct ev; simpl; rewrite IH; reflexivity.
Qed.

Lemma runMatchesRealtime_flags (userId : string) (clock : nat -> Z)
    (stream : list MatchesEvent) :
  forall start st,
    let st' := runMatchesRealtime userId clock start stream st in
    isFirstLoad1 st' = (isFirstLoad1 st && negb (hasSnapshot1 stream))%bool
    /\ isFirstLoad2 st' = (isFirstLoad2 st && negb (hasSnapshot2 stream))%bool.
Proof.
  induction stream as [|ev stream IH]; intros start st; simpl.
  - now rewrite !andb_true_r.
  - destruct ev; simpl.
    + destruct (IH (S start)
                  (mkMatchesRealtime
                     (handleSnapshot userId (clock start) snapshot
                        (isFirstLoad1 st) "userId1" (matchesMap st))
                     false (isFirstLoad2 st))) as [H1 H2].
      simpl in H1, H2. rewrite H1, H2. now rewrite andb_false_r.
    + destruct (IH (S start)
                  (mkMatchesRealtime
                     (handleSnapshot userId (clock start) snapshot
                        (isFirstLoad2 st) "userId2" (matchesMap st))
                     (isFirstLoad1 st) false)) as [H1 H2].
      simpl in H1, H2. rewrite H1, H2. now rewrite andb_false_r.
    + apply IH.
    + apply IH.
Qed.

Lemma callsOf_settled (first1 first2 : bool) (stream : list MatchesEvent) :
  callsOf (first1 && negb (hasSnapshot1 stream))
    (first2 && negb (hasSnapshot2 stream)) stream
  = callsOf false false stream.
Proof.
  revert first1 first2.
  induction stream as [|ev stream IH]; intros first1 first2; simpl;
    [reflexivity|].
  destruct ev; simpl.
  - rewrite andb_false_r. f_equal.
    specialize (IH false first2). simpl in IH. exact IH.
  - rewrite andb_false_r. f_equal.
    specialize (IH first1 false). simpl in IH. exact IH.
  - apply IH.
  - apply IH.
Qed.

Lemma setDocs_untouched (now : Z) (k : string) (l : list (string * MatchDoc.t)) :
  forall m, ~ In k (List.map fst l) ->
    JsMap.get k (fold_left (setDoc now) l m) = JsMap.get k m.
Proof.
  induction l as [|d l IH]; intros m Hk; simpl; [reflexivity|].
  simpl in Hk. rewrite IH by tauto. unfold setDoc. rewrite get_set.
  destruct (String.eqb_spec k (fst d)); [|reflexivity].
  exfalso. apply Hk. left. congruence.
Qed.

Lemma applyChanges_added (now : Z) (l : list (string * MatchDoc.t)) :
  forall m,
    fold_left (applyChange now)
      (List.map (fun d => mkChange added (fst d) (snd d)) l) m
    = fold_left (setDoc now) l m.
Proof.
  induction l as [|d l IH]; intros m; simpl; [reflexivity|]. apply IH.
Qed.

Lemma noLongerInQuery_listed (userId q : string) (ids : list string)
    (k : string) (v : Match.t) :
  In k ids -> noLongerInQuery userId q ids k v = false.
Proof.
  intros Hin. apply includes_In in Hin. unfold noLongerInQuery.
  rewrite Hin. simpl. now rewrite !andb_false_r.
Qed.

Lemma noLongerInQuery_mono (userId q : string) (ids : list string)
    (k : string) (v : Match.t) :
  noLongerInQuery userId q [] k v = false ->
  noLongerInQuery userId q ids k v = false.
Proof.
  unfold noLongerInQuery. simpl. rewrite !andb_true_r.
  destruct (String.eqb q "userId1" && String.eqb (Match.userId1 v) userId)%bool;
    [discriminate|].
  destruct (String.eqb q "userId2" && String.eqb (Match.userId2 v) userId)%bool;
    [discriminate|].
  reflexivity.
Qed.

(** On a map that holds no entry of the role of the query, a complete first
    snapshot acts on every key as its changes do. *)
Lemma first_load_as_changes (userId : string) (now : Z) (s : QuerySnapshot)
    (q : string) (m : JsMap.t Match.t) (k : string) :
  wf m -> firstComplete s ->
  allValues (fun v => noLongerInQuery userId q [] k v = false) m ->
  JsMap.get k (handleSnapshot userId now s true q m)
  = JsMap.get k (handleSnapshot userId now s false q m).
Proof.
  intros Hm Hs Hfree. unfold handleSnapshot.
  fold (setDoc now) (applyChange now).
  rewrite Hs, applyChanges_added.
  rewrite get_deleteWhere by now apply wf_setDocs.
  destruct (JsMap.get k (fold_left (setDoc now) (docs s) m)) as [v|] eqn:Hv;
    [|reflexivity].
  destruct (in_dec string_dec k (List.map fst (docs s))) as [Hin|Hnin].
  - now rewrite noLongerInQuery_listed.
  - rewrite setDocs_untouched in Hv by exact Hnin.
    now rewrite noLongerInQuery_mono by (eapply Hfree; exact Hv).
Qed.

Lemma allValues_setDocs (P : Match.t -> Prop) (now : Z)
    (l : list (string * MatchDoc.t)) :
  Forall (fun d => P (toMatch now (fst d) (snd d))) l ->
  forall m, allValues P m -> allValues P (fold_left (setDoc now) l m).
Proof.
  induction 1 as [|d l Hd _ IH]; intros m Hm; simpl; [exact Hm|].
  apply IH. intros k v. unfold setDoc. rewrite get_set.
  destruct (String.eqb k (fst d)); [intros [= <-]; exact Hd|apply Hm].
Qed.

Lemma allValues_applyChanges (P : Match.t -> Prop) (now : Z)
    (l : list DocumentChange) :
  Forall (fun c => change_type c <> removed ->
                   P (toMatch now (change_id c) (change_data c))) l ->
  forall m, allValues P m -> allValues P (fold_left (applyChange now) l m).
Proof.
  induction 1 as [|c l Hc _ IH]; intros m Hm; simpl; [exact Hm|].
  apply IH. intros k v. unfold applyChange.
  destruct (change_type c) eqn:Et.
  - rewrite get_set. destruct (String.eqb k (change_id c)); [|apply Hm].
    intros [= <-]. apply Hc. discriminate.
  - rewrite get_set. destruct (String.eqb k (change_id c)); [|apply Hm].
    intros [= <-]. apply Hc. discriminate.
  - rewrite get_delete. destruct (String.eqb k (change_id c)); [discriminate|].
    apply Hm.
Qed.

Lemma allValues_handleSnapshot (P : Match.t -> Prop) (userId : string)
    (now : Z) (s : QuerySnapshot) (first : bool) (q : string)
    (m : JsMap.t Match.t) :
  wf m ->
  Forall (fun d => P (toMatch now (fst d) (snd d))) (docs s) ->
  Forall (fun c => change_type c <> removed ->
                   P (toMatch now (change_id c) (change_data c)))
    (docChanges s) ->
  allValues P m -> allValues P (handleSnapshot userId now s first q m).
Proof.
  intros Hwf Hd Hc Hm. unfold handleSnapshot. destruct first.
  - intros k v. rewrite get_deleteWhere by now apply (wf_setDocs now).
    destruct (JsMap.get k _) as [v'|] eqn:Hv; [|discriminate].
    destruct (noLongerInQuery _ _ _ _ _); [discriminate|].
    intros [= <-]. eapply (allValues_setDocs P now _ Hd m Hm). exact Hv.
  - now apply (allValues_applyChanges P now).
Qed.

Lemma streamOk_stamped (userId : string) (stream : list MatchesEvent) :
  forall first1 first2 g1 g2,
    streamOk userId first1 first2 stream ->
    Forall (fun ev => snapshotStamped (ev_snapshot ev)) (callsOf g1 g2 stream).
Proof.
  induction stream as [|ev stream IH]; intros first1 first2 g1 g2 Hok; simpl;
    [constructor|].
  destruct ev; simpl in Hok.
  - destruct Hok as (Hs & _ & _ & Hok). constructor; [exact Hs|]. eapply IH, Hok.
  - destruct Hok as (Hs & _ & _ & Hok). constructor; [exact Hs|]. eapply IH, Hok.
  - eapply IH, Hok.
  - eapply IH, Hok.
Qed.

Lemma handleSnapshot_sameEntries (userId : string) (now now' : Z)
    (s : QuerySnapshot) (first : bool) (q : string) (m m' : JsMap.t Match.t) :
  snapshotStamped s -> wf m -> wf m' -> sameEntries m m' ->
  sameEntries (handleSnapshot userId now s first q m)
    (handleSnapshot userId now' s first q m').
Proof.
  intros Hs Hm Hm' Heq k.
  destruct (handleSnapshot_effect userId s first q k Hs) as (f & _ & Hget).
  now rewrite !Hget, (Heq k).
Qed.

Lemma fieldFree_userId1 (userId : string) (now : Z) (s : QuerySnapshot) :
  fieldFree MatchDoc.userId1 userId s ->
  Forall (fun d => Match.userId1 (toMatch now (fst d) (snd d)) <> userId) (docs s)
  /\ Forall (fun c => change_type c <> removed ->
               Match.userId1 (toMatch now (change_id c) (change_data c)) <> userId)
       (docChanges s).
Proof. intros [H1 H2]. split; [exact H1|exact H2]. Qed.

Lemma fieldFree_userId2 (userId : string) (now : Z) (s : QuerySnapshot) :
  fieldFree MatchDoc.userId2 userId s ->
  Forall (fun d => Match.userId2 (toMatch now (fst d) (snd d)) <> userId) (docs s)
  /\ Forall (fun c => change_type c <> removed ->
               Match.userId2 (toMatch now (change_id c) (change_data c)) <> userId)
       (docChanges s).
Proof. intros [H1 H2]. split; [exact H1|exact H2]. Qed.

Lemma role1_free (userId : string) (k : string) (v : Match.t) :
  Match.userId1 v <> userId -> noLongerInQuery userId "userId1" [] k v = false.
Proof.
  intros H. apply String.eqb_neq in H. unfold noLongerInQuery. simpl.
  now rewrite H.
Qed.

Lemma role2_free (userId : string) (k : string) (v : Match.t) :
  Match.userId2 v <> userId -> noLongerInQuery userId "userId2" [] k v = false.
Proof.
  intros H. apply String.eqb_neq in H. unfold noLongerInQuery. simpl.
  now rewrite H.
Qed.

Arguments handleSnapshot : simpl never.

(** From a state whose pending first loads would remove nothing, the calls
    of the stream act on every key as the same calls without first loads. *)
Lemma calls_without_first_load (userId : string) (clock clock' : nat -> Z)
    (stream : list MatchesEvent) :
  forall first1 first2 start start' m m',
    wf m -> wf m' -> sameEntries m m' ->
    (first1 = true -> allValues (fun v => Match.userId1 v <> userId) m) ->
    (first2 = true -> allValues (fun v => Match.userId2 v <> userId) m) ->
    streamOk userId first1 first2 stream ->
    sameEntries
      (replay userId clock start (callsOf first1 first2 stream) m)
      (replay userId clock' start' (callsOf false false stream) m').
Proof.
  induction stream as [|ev stream IH];
    intros first1 first2 start start' m m' Hm Hm' Heq H1 H2 Hok; simpl;
    [exact Heq|].
  destruct ev; simpl in Hok.
  - destruct Hok as (Hs & Hfree & Hfirst & Hok). simpl.
    apply IH; try (now apply wf_handleSnapshot); try exact Hok.
    + destruct first1.
      * intros k. rewrite first_load_as_changes; try tauto.
        -- now apply handleSnapshot_sameEntries.
        -- intros k' v Hv. apply role1_free. now apply (H1 eq_refl k').
      * now apply handleSnapshot_sameEntries.
    + discriminate.
    + intros ->. destruct (fieldFree_userId2 userId (clock start) _ Hfree).
      apply allValues_handleSnapshot; auto.
  - destruct Hok as (Hs & Hfree & Hfirst & Hok). simpl.
    apply IH; try (now apply wf_handleSnapshot); try exact Hok.
    + destruct first2.
      * intros k. rewrite first_load_as_changes; try tauto.
        -- now apply handleSnapshot_sameEntries.
        -- intros k' v Hv. apply role2_free. now apply (H2 eq_refl k').
      * now apply handleSnapshot_sameEntries.
    + intros ->. destruct (fieldFree_userId1 userId (clock start) _ Hfree).
      apply allValues_handleSnapshot; auto.
    + discriminate.
  - now apply IH.
  - now apply IH.
Qed.

(** Feeding a well-formed stream to a fresh subscription and then feeding
    the same stream again to that subscription leaves every key with the
    same match. *)
Lemma subscription_replay (userId : string) (clock1 clock2 : nat -> Z)
    (stream : list MatchesEvent) :
  streamOk userId true true stream ->
  let st1 := runMatchesRealtime userId clock1 0 stream matchesRealtimeInit in
  let st2 := runMatchesRealtime userId clock2 0 stream st1 in
  sameEntries (matchesMap st2) (matchesMap st1)
  /\ wf (matchesMap st1) /\ wf (matchesMap st2).
Proof.
  intros Hok st1 st2.
  assert (Hm1 : matchesMap st1
                = replay userId clock1 0 (callsOf true true stream) JsMap.empty)
    by apply runMatchesRealtime_calls.
  assert (Hm2 : matchesMap st2
                = replay userId clock2 0 (callsOf false false stream)
                    (matchesMap st1)).
  { unfold st2. rewrite runMatchesRealtime_calls.
    destruct (runMatchesRealtime_flags userId clock1 stream 0 matchesRealtimeInit)
      as [F1 F2].
    fold st1 in F1, F2. rewrite F1, F2. simpl isFirstLoad1. simpl isFirstLoad2.
    now rewrite callsOf_settled. }
  assert (Hw1 : wf (matchesMap st1))
    by (rewrite Hm1; apply wf_replay, wf_empty).
  split; [|split; [exact Hw1|rewrite Hm2; now apply wf_replay]].
  assert (Hd : sameEntries (matchesMap st1)
                 (replay userId clock1 0 (callsOf false false stream)
                    JsMap.empty)).
  { rewrite Hm1.
    apply calls_without_first_load;
      [apply wf_empty | apply wf_empty | intros k; reflexivity
      | intros _ k v; discriminate | intros _ k v; discriminate | exact Hok]. }
  intros k.
  destruct (replay_effect userId (callsOf false false stream) k
              (streamOk_stamped userId stream true true false false Hok))
    as (f & Hf & Hget).
  rewrite Hm2, Hget by exact Hw1.
  rewrite (Hd k), Hget by apply wf_empty.
  now apply settled_idem.
Qed.

(** C6 (as the code has it). Every match document of the events is taken
    to carry [createdAt].
    (1) Take any sequence of [handleSnapshot] calls (each with its snapshot,
    its first-load flag and its query) and any map to start from: running
    the sequence again on the map it produced, at whatever later times,
    leaves every key with the same match as running it once, and the
    delivered lists hold the same matches.
    (2) The same holds for the listeners of services/matchService.ts, which
    store every document of each snapshot.
    (3) Take a stream of listener events in which the first snapshot of each
    query lists its documents as added and no document has the profile in
    both roles: feeding the stream to a fresh subscription and then feeding
    it again to the same subscription, whose first-load flags are by then
    cleared, leaves every key with the same match and the same delivered
    set. *)
Theorem C6_replay_idempotent (userId : string) (events : list SnapshotEvent)
    (stream : list MatchesEvent) (m : JsMap.t Match.t)
    (clock1 clock2 : nat -> Z) :
  wf m ->
  Forall (fun ev => snapshotStamped (ev_snapshot ev)) events ->
  streamOk userId true true stream ->
  let once := replay userId clock1 0 events m in
  let twice := replay userId clock2 0 events once in
  let snapshots := List.map ev_snapshot events in
  let once' := MatchServiceTs.replay clock1 0 snapshots m in
  let twice' := MatchServiceTs.replay clock2 0 snapshots once' in
  let st1 := runMatchesRealtime userId clock1 0 stream matchesRealtimeInit in
  let st2 := runMatchesRealtime userId clock2 0 stream st1 in
  (sameEntries twice once
   /\ Permutation (processMatches twice) (processMatches once))
  /\ (sameEntries twice' once'
      /\ Permutation (processMatches twice') (processMatches once'))
  /\ (sameEntries (matchesMap st2) (matchesMap st1)
      /\ Permutation (processMatches (matchesMap st2))
           (processMatches (matchesMap st1))).
Proof.
  intros Hm Hev Hok once twice snapshots once' twice' st1 st2.
  assert (Hs : sameEntries twice once).
  { intros k. destruct (replay_effect userId events k Hev) as (f & Hf & Hget).
    unfold twice, once.
    rewrite !Hget by (try apply wf_replay; exact Hm).
    now apply settled_idem. }
  assert (Hs' : sameEntries twice' once').
  { intros k.
    destruct (onSnapshots_effect snapshots k) as (f & Hf & Hget).
    { unfold snapshots. apply List.Forall_forall. intros s Hin.
      apply in_map_iff in Hin as (ev & <- & Hin).
      now apply (proj1 (List.Forall_forall _ _) Hev). }
    unfold twice', once'. rewrite !Hget. now apply settled_idem. }
  destruct (subscription_replay userId clock1 clock2 stream Hok)
    as (Hsub & Hw1 & Hw2).
  fold st1 st2 in Hsub, Hw1, Hw2.
  split; [split; [exact Hs|]|split; [split; [exact Hs'|]|split; [exact Hsub|]]].
  - apply processMatches_perm; [| |exact Hs]; repeat apply wf_replay; exact Hm.
  - apply processMatches_perm; [| |exact Hs']; repeat apply wf_onSnapshots;
      exact Hm.
  - now apply processMatches_perm.
Qed.

(** ** Concrete runs *)

Example getChatId_sorted : getChatId "u2" "u1" = "u1_u2".
Proof. reflexivity. Qed.

Example getChatId_by_code : getChatId "alice" "Bob" = "Bob_alice".
Proof. reflexivity. Qed.

Example trim_keeps_inner_blanks : Js.trim "  hi there  " = "hi there".
Proof. reflexivity. Qed.

Lemma C3_send_is_atomic_witness :
  exists db',
    sendMessage true "m1" 5 "u1_u2" "u1" "u2" "hi" store0 = (Ok tt, db')
    /\ size (getMessagesCollection "u1_u2" db') = 1%nat.
Proof.
  assert (H1 : chats store0 !! "u1_u2"
               = Some (ChatDoc.mk (Some "u1") (Some "u2") (Some "") (Some 0)
                         (Some 0) (Some 0)))
    by (vm_compute; reflexivity).
  assert (H2 : participants
                 (ChatDoc.mk (Some "u1") (Some "u2") (Some "") (Some 0)
                    (Some 0) (Some 0)) "u1" "u2")
    by (split; [discriminate|left; split; reflexivity]).
  assert (H3 : getMessagesCollection "u1_u2" store0 !! "m1" = None)
    by (vm_compute; reflexivity).
  destruct (C3_send_is_atomic "m1" 5 "u1_u2" "u1" "u2" "hi" store0 _ H1 H2 H3)
    as [(db' & d' & n & Hs & _ & Hsize & _) _].
  exists db'. split; [exact Hs|]. rewrite Hsize. reflexivity.
Defined.

Lemma C10_send_without_chat_rejects_witness :
  sendMessage true "m1" 5 "u1_u3" "u1" "u3" "hi" store0
  = (Error "Chat does not exist", store0).
Proof.
  apply (C10_send_without_chat_rejects true "m1" 5 "u1_u3" "u1" "u3" "hi"
           store0 (mkSnapshot false None)).
  - left. reflexivity.
  - vm_compute. reflexivity.
Defined.

Lemma markMessagesAsRead_undisturbed_witness :
  exists db',
    markMessagesAsRead true "u1_u2" "u2" store1 store1 = (Ok tt, db')
    /\ unreadMessages "u2" (getMessagesCollection "u1_u2" db') = ∅.
Proof.
  assert (H1 : chats store1 !! "u1_u2"
               = Some (ChatDoc.mk (Some "u1") (Some "u2") (Some "yo") (Some 7)
                         (Some 0) (Some 2)))
    by (vm_compute; reflexivity).
  assert (H2 : participants
                 (ChatDoc.mk (Some "u1") (Some "u2") (Some "yo") (Some 7)
                    (Some 0) (Some 2)) "u2" "u1")
    by (split; [discriminate|right; split; reflexivity]).
  destruct (markMessagesAsRead_undisturbed "u1_u2" "u2" "u1" store1 _ H1 H2)
    as (db' & d' & Hrun & _ & _ & _ & Hunread & _).
  exists db'. split; [exact Hrun|exact Hunread].
Defined.

Example markMessagesAsRead_store1 :
  match markMessagesAsRead true "u1_u2" "u2" store1 store1 with
  | (Ok _, db') =>
      (MessageDoc.read <$> getMessagesCollection "u1_u2" db' !! "m1",
       MessageDoc.read <$> getMessagesCollection "u1_u2" db' !! "m2",
       ChatDoc.unreadCount2 <$> chats db' !! "u1_u2")
      = (Some true, Some true, Some (Some 0))
  | _ => False
  end.
Proof. vm_compute. reflexivity. Qed.

(** C4. The unread query of [markMessagesAsRead] is no read of its
    transaction, so the mark-as-read is not atomic. Profile u2 has two
    unread messages in its chat with u1 and opens the chat. Its unread
    query runs; then a send of u1 commits; then the transaction of u2 reads
    the chat and commits. It marks the two messages of the query read and
    puts the counter of u2 at 0: the mark-as-read has committed, no message
    has arrived since, and yet the third message is unread while the
    counter of u2 is 0. *)
Theorem C4_mark_read_misses_concurrent_send :
  let sent := snd (sendMessage true "m3" 9 "u1_u2" "u1" "u2" "hey" store1) in
  let run := markMessagesAsRead true "u1_u2" "u2" store1 sent in
  unreadQuery "u1_u2" "u2" store1
  = [("m1", MessageDoc.mk "u1_u2" "u1" "u2" "hi" 5 false);
     ("m2", MessageDoc.mk "u1_u2" "u1" "u2" "yo" 7 false)]
  /\ chats sent !! "u1_u2"
     = Some (ChatDoc.mk (Some "u1") (Some "u2") (Some "hey") (Some 9)
               (Some 0) (Some 3))
  /\ fst run = Ok tt
  /\ messages (snd run) !! "u1_u2"
     = Some (<["m3" := MessageDoc.mk "u1_u2" "u1" "u2" "hey" 9 false]>
               (<["m2" := MessageDoc.mk "u1_u2" "u1" "u2" "yo" 7 true]>
                  (<["m1" := MessageDoc.mk "u1_u2" "u1" "u2" "hi" 5 true]> ∅)))
  /\ unreadQuery "u1_u2" "u2" (snd run)
     = [("m3", MessageDoc.mk "u1_u2" "u1" "u2" "hey" 9 false)]
  /\ chats (snd run) !! "u1_u2"
     = Some (ChatDoc.mk (Some "u1") (Some "u2") (Some "hey") (Some 9)
               (Some 0) (Some 0))
  /\ unreadCountFor "u2"
       (ChatDoc.mk (Some "u1") (Some "u2") (Some "hey") (Some 9)
          (Some 0) (Some 0))
     = Some 0.
Proof. vm_compute. repeat split; reflexivity. Qed.

(** Two mark-as-reads of u2 whose unread queries both ran on the store with
    the two unread messages: the second transaction, reading the chat after
    the first has committed, writes read = true to the two messages again
    and leaves the store as the first left it, with the counter at 0. *)
Example markMessagesAsRead_twice_concurrently :
  let first := markMessagesAsRead true "u1_u2" "u2" store1 store1 in
  let second := markMessagesAsRead true "u1_u2" "u2" store1 (snd first) in
  fst first = Ok tt
  /\ markMessagesAsReadWrites "u1_u2" "u2" (unreadQuery "u1_u2" "u2" store1)
       (snd first)
     = Ok [UpdateMessageRead "u1_u2" "m1" true;
           UpdateMessageRead "u1_u2" "m2" true;
           UpdateChat "u1_u2" (mkChatUpdate None None None (Some 0))]
  /\ fst second = Ok tt
  /\ snd second = snd first
  /\ ChatDoc.unreadCount2 <$> chats (snd second) !! "u1_u2" = Some (Some 0).
Proof. vm_compute. repeat split; reflexivity. Qed.

(** C8 as the specification states it does not hold: for the input "hi " (with a
    trailing blank) a failed send puts "hi" back, not the original input. *)
Lemma C8_original_input_not_restored :
  ChatDetailScreen.sendBlocked "u1_u2" "u1" draftPadded = false
  /\ ChatDetailScreen.inputText draftPadded = "hi "
  /\ ChatDetailScreen.inputText
       (ChatDetailScreen.handleSendMessage "1" 0 "u1_u2" "u1" "u2"
          (Error "network") [] draftPadded) = "hi"
  /\ ChatDetailScreen.inputText
       (ChatDetailScreen.handleSendMessage "1" 0 "u1_u2" "u1" "u2"
          (Error "network") [] draftPadded)
     <> ChatDetailScreen.inputText draftPadded.
Proof. repeat split; try reflexivity. discriminate. Qed.

Lemma C8_failed_send_rolls_back_witness :
  ChatDetailScreen.messages
    (ChatDetailScreen.handleSendMessage "17-0.5" 10 "u1_u2" "u1" "u2"
       (Error "network") [] draftWithHistory)
  = ChatDetailScreen.messages draftWithHistory
  /\ ChatDetailScreen.inputText
       (ChatDetailScreen.handleSendMessage "17-0.5" 10 "u1_u2" "u1" "u2"
          (Error "network") [] draftWithHistory)
     = "see you".
Proof.
  pose proof (C8_failed_send_rolls_back "17-0.5" 10 "u1_u2" "u1" "u2"
                "network" [] draftWithHistory eq_refl)
    as (_ & Hin & _ & _ & Hms).
  split.
  - apply Hms; [reflexivity|].
    intros m [<-|[]]. discriminate.
  - exact Hin.
Defined.

Lemma C5_reconciliation_witness :
  List.filter (sameSenderText pendingHi)
    (ChatDetailScreen.mergeMessages [confirmedHi] [pendingHi])
  = [confirmedHi].
Proof.
  assert (Hnd : NoDup (List.map Message.id (pendingOf [pendingHi])))
    by (apply NoDup_singleton).
  apply (C5_reconciliation [confirmedHi] [pendingHi] Hnd); try reflexivity.
  repeat split; reflexivity.
Defined.

Example scenarioA :
  ChatDetailScreen.mergeMessages [confirmedHi] [pendingHi] = [confirmedHi].
Proof. reflexivity. Qed.

Lemma C6_replay_idempotent_witness :
  sameEntries
    (replay "u" (fun _ => 2000) 0 [firstSnapshotOf stampedDoc]
       (replay "u" (fun _ => 1000) 0 [firstSnapshotOf stampedDoc] JsMap.empty))
    (replay "u" (fun _ => 1000) 0 [firstSnapshotOf stampedDoc] JsMap.empty).
Proof.
  apply (C6_replay_idempotent "u" [firstSnapshotOf stampedDoc]
           [Snapshot1 (ev_snapshot (firstSnapshotOf stampedDoc))] JsMap.empty
           (fun _ => 1000) (fun _ => 2000)).
  - apply wf_empty.
  - repeat constructor; simpl; intros; eexists; reflexivity.
  - simpl. repeat split; repeat constructor; simpl; intros;
      try (eexists; reflexivity); discriminate.
Defined.

(** C6 as the specification states it does not hold: a match document whose
    [createdAt] is still pending is stamped with the time at which it is
    handled, so handling the same snapshot again later changes the stored
    match, for a repeated [handleSnapshot] call and for the live
    subscription alike. *)
Lemma C6_replay_restamps_pending :
  JsMap.get "x"
    (replay "u" (fun _ => 1000) 0 [firstSnapshotOf pendingDoc] JsMap.empty)
  = Some (Match.mk "x" "u" "v" "p1" None "p2" None 1000)
  /\ JsMap.get "x"
       (replay "u" (fun _ => 2000) 0 [firstSnapshotOf pendingDoc]
          (replay "u" (fun _ => 1000) 0 [firstSnapshotOf pendingDoc]
             JsMap.empty))
     = Some (Match.mk "x" "u" "v" "p1" None "p2" None 2000)
  /\ ~ sameEntries
         (replay "u" (fun _ => 2000) 0 [firstSnapshotOf pendingDoc]
            (replay "u" (fun _ => 1000) 0 [firstSnapshotOf pendingDoc]
               JsMap.empty))
         (replay "u" (fun _ => 1000) 0 [firstSnapshotOf pendingDoc]
            JsMap.empty)
  /\ ~ sameEntries
         (matchesMap
            (runMatchesRealtime "u" (fun _ => 2000) 0
               [Snapshot1 (ev_snapshot (firstSnapshotOf pendingDoc))]
               (runMatchesRealtime "u" (fun _ => 1000) 0
                  [Snapshot1 (ev_snapshot (firstSnapshotOf pendingDoc))]
                  matchesRealtimeInit)))
         (matchesMap
            (runMatchesRealtime "u" (fun _ => 1000) 0
               [Snapshot1 (ev_snapshot (firstSnapshotOf pendingDoc))]
               matchesRealtimeInit)).
Proof.
  split; [reflexivity|]. split; [reflexivity|]. split.
  - intros H. specialize (H "x"). discriminate H.
  - intros H. specialize (H "x"). discriminate H.
Qed.

(** * Further properties *)

(** ** Thread ids of distinct pairs *)

Lemma underscore_split (a c b d : string) :
  underscoreFree a = true -> underscoreFree c = true ->
  a ++ "_" ++ b = c ++ "_" ++ d -> a = c /\ b = d.
Proof.
  revert c. induction a as [|x a IH]; intros [|y c] Ha Hc E; simpl in *.
  - injection E as E. now split.
  - injection E as Ey _. subst y. simpl in Hc. discriminate.
  - injection E as Ex _. subst x. simpl in Ha. discriminate.
  - injection E as Ex E. subst y.
    apply andb_true_iff in Ha as [_ Ha]. apply andb_true_iff in Hc as [_ Hc].
    destruct (IH c Ha Hc E) as [Hac Hbd]. subst. now split.
Qed.

(** X1. Two pairs of profile ids without the character '_' that get the
    same thread id are the same unordered pair: distinct pairs never share
    a chat thread. *)
Theorem getChatId_injective (a b c d : string) :
  underscoreFree a = true -> underscoreFree b = true ->
  underscoreFree c = true -> underscoreFree d = true ->
  getChatId a b = getChatId c d ->
  (a = c /\ b = d) \/ (a = d /\ b = c).
Proof.
  intros Ha Hb Hc Hd. rewrite !getChatId_spec. unfold threadId_spec.
  destruct (String.leb a b), (String.leb c d); intros E;
    apply underscore_split in E; try assumption; tauto.
Qed.

Lemma getChatId_injective_witness :
  ("bob" = "bob" /\ "al" = "al") \/ ("bob" = "al" /\ "al" = "bob").
Proof.
  apply (getChatId_injective "bob" "al" "bob" "al"); reflexivity.
Defined.

(** ** Creating chats *)

Lemma getChatId_sym (a b : string) : getChatId a b = getChatId b a.
Proof. rewrite !getChatId_spec. apply threadId_spec_sym. Qed.

Lemma createOrGetChat_existing (writes : bool) (now : Z) (a b : string)
    (dbRead db : ChatStore) (d : ChatDoc.t) :
  chats dbRead !! getChatId a b = Some d ->
  createOrGetChat true writes now a b dbRead db
  = (Ok (Chat.mk (getChatId a b)
           (Js.orString (ChatDoc.userId1 d) a)
           (Js.orString (ChatDoc.userId2 d) b)
           (Js.orUndefined (ChatDoc.lastMessage d))
           (ChatDoc.lastMessageTime d)
           (Js.orZero (ChatDoc.unreadCount1 d))
           (Js.orZero (ChatDoc.unreadCount2 d))
           None None),
     db).
Proof.
  intros Hd. unfold createOrGetChat. now rewrite (getDoc_Some _ _ _ Hd).
Qed.

Lemma createOrGetChat_new (now : Z) (a b : string) (dbRead db : ChatStore) :
  chats dbRead !! getChatId a b = None ->
  createOrGetChat true true now a b dbRead db
  = (Ok (Chat.mk (getChatId a b) a b None None 0 0 None None),
     mkChatStore
       (<[getChatId a b := ChatDoc.mk (Some a) (Some b) (Some "") (Some now)
                             (Some 0) (Some 0)]> (chats db))
       (messages db)).
Proof.
  intros Hd. unfold createOrGetChat. now rewrite (getDoc_None _ _ Hd).
Qed.

(** X2. [createOrGetChat] reads and then writes, without a transaction.
    When its [get()] sees the chat document, the call resolves with that
    chat and writes nothing. When its [get()] sees none, the call writes a
    new document with empty last message and both counters at 0 under the
    thread id of the pair, whatever the store holds by then: a chat
    document that another call created in between, and the last message
    and counters it has gathered, are overwritten, while messages and other
    chats are untouched. A call that sees the store as the previous call
    for the pair left it, with the two profiles in the same or in the
    swapped order, returns the same chat id and changes nothing. When a
    request fails the call rejects and the store is as it was. *)
Theorem createOrGetChat_reads_then_writes (now now' : Z) (a b : string)
    (dbRead db : ChatStore) :
  let chatId := getChatId a b in
  let fresh :=
    ChatDoc.mk (Some a) (Some b) (Some "") (Some now) (Some 0) (Some 0) in
  (forall d writes,
     chats dbRead !! chatId = Some d ->
     exists chat,
       createOrGetChat true writes now a b dbRead db = (Ok chat, db)
       /\ Chat.id chat = chatId
       /\ Chat.lastMessage chat = Js.orUndefined (ChatDoc.lastMessage d)
       /\ Chat.unreadCount1 chat = Js.orZero (ChatDoc.unreadCount1 d)
       /\ Chat.unreadCount2 chat = Js.orZero (ChatDoc.unreadCount2 d))
  /\ (chats dbRead !! chatId = None ->
      exists chat db',
        createOrGetChat true true now a b dbRead db = (Ok chat, db')
        /\ Chat.id chat = chatId
        /\ chats db' !! chatId = Some fresh
        /\ (forall c, c <> chatId -> chats db' !! c = chats db !! c)
        /\ messages db' = messages db)
  /\ (let first := createOrGetChat true true now a b db db in
      forall x y writes,
        (x = a /\ y = b) \/ (x = b /\ y = a) ->
        exists chat chat',
          fst first = Ok chat
          /\ createOrGetChat true writes now' x y (snd first) (snd first)
             = (Ok chat', snd first)
          /\ Chat.id chat' = Chat.id chat /\ Chat.id chat = chatId)
  /\ (forall writes,
        createOrGetChat false writes now a b dbRead db
        = (Error "unavailable", db))
  /\ (chats dbRead !! chatId = None ->
      createOrGetChat true false now a b dbRead db = (Error "unavailable", db)).
Proof.
  intros chatId fresh. split; [|split; [|split; [|split]]].
  - intros d writes Hd. eexists.
    split; [apply (createOrGetChat_existing writes now a b dbRead db d Hd)|].
    repeat split.
  - intros Hnone. eexists _, _.
    split; [apply (createOrGetChat_new now a b dbRead db Hnone)|]. simpl.
    split; [reflexivity|]. split; [apply lookup_insert_eq|].
    split; [|reflexivity]. intros c Hc. now apply lookup_insert_ne.
  - intros first x y writes Hxy.
    assert (Hid : getChatId x y = chatId).
    { destruct Hxy as [[-> ->]|[-> ->]]; [reflexivity|apply getChatId_sym]. }
    assert (Hfirst : exists chat d,
              fst first = Ok chat /\ Chat.id chat = chatId
              /\ chats (snd first) !! chatId = Some d).
    { unfold first. destruct (chats db !! chatId) as [d|] eqn:Hd.
      - rewrite (createOrGetChat_existing true now a b db db d Hd).
        eexists _, d. repeat split. exact Hd.
      - rewrite (createOrGetChat_new now a b db db Hd).
        eexists _, _. repeat split. apply lookup_insert_eq. }
    destruct Hfirst as (chat & d & Hchat & Hcid & Hd).
    rewrite <- Hid in Hd.
    exists chat. eexists.
    split; [exact Hchat|].
    split; [apply (createOrGetChat_existing writes now' x y _ _ d Hd)|].
    simpl. now rewrite Hcid.
  - intros writes. reflexivity.
  - intros Hnone. unfold chatId in Hnone. unfold createOrGetChat.
    now rewrite (getDoc_None _ _ Hnone).
Qed.

(** A call for u1 and u2 whose [get()] ran before the chat was created and
    whose [set()] runs on the store with two unread messages for u2: the
    chat document is replaced by a fresh one, the messages stay. *)
Example createOrGetChat_overwrites_store1 :
  let run := createOrGetChat true true 99 "u1" "u2" (mkChatStore ∅ ∅) store1 in
  chats store1 !! "u1_u2"
  = Some (ChatDoc.mk (Some "u1") (Some "u2") (Some "yo") (Some 7)
            (Some 0) (Some 2))
  /\ fst run = Ok (Chat.mk "u1_u2" "u1" "u2" None None 0 0 None None)
  /\ chats (snd run) !! "u1_u2"
     = Some (ChatDoc.mk (Some "u1") (Some "u2") (Some "") (Some 99)
               (Some 0) (Some 0))
  /\ messages (snd run) = messages store1.
Proof. vm_compute. repeat split; reflexivity. Qed.

(** ** The unread ledger *)

Lemma sendMessage_commit (messageId : string) (now : Z)
    (chatId senderId receiverId text : string) (db : ChatStore)
    (d : ChatDoc.t) :
  chats db !! chatId = Some d ->
  sendMessage true messageId now chatId senderId receiverId text db
  = (Ok tt,
     mkChatStore
       (<[chatId := applyChatUpdate (sendUpdate d senderId text now) d]>
          (chats db))
       (<[chatId := <[messageId := MessageDoc.mk chatId senderId receiverId
                                     text now false]>
                      (getMessagesCollection chatId db)]> (messages db))).
Proof.
  intros Hd. unfold sendMessage, runTransaction, sendMessageWrites.
  rewrite (getDoc_Some _ _ _ Hd). simpl. rewrite Hd. simpl.
  unfold sendUpdate. now destruct (Js.fieldIs _ _).
Qed.

Lemma sendMessage_missing (commits : bool) (messageId : string) (now : Z)
    (chatId senderId receiverId text : string) (db : ChatStore) :
  chats db !! chatId = None ->
  sendMessage commits messageId now chatId senderId receiverId text db
  = (Error "Chat does not exist", db).
Proof.
  intros Hd. unfold sendMessage, runTransaction.
  now rewrite (getDoc_None _ _ Hd).
Qed.

Lemma unreadMessages_insert_new (user messageId : string) (msg : MessageDoc.t)
    (ms : gmap string MessageDoc.t) :
  ms !! messageId = None ->
  size (unreadMessages user (<[messageId := msg]> ms))
  = if decide (MessageDoc.receiverId msg = user /\ MessageDoc.read msg = false)
    then S (size (unreadMessages user ms))
    else size (unreadMessages user ms).
Proof.
  intros Hfresh. unfold unreadMessages. rewrite map_filter_insert. simpl.
  case_decide.
  - apply map_size_insert_None. apply map_lookup_filter_None. now left.
  - now rewrite (delete_id _ _ Hfresh).
Qed.

Lemma unreadMessages_other_mark (reader user : string)
    (ms ms' : gmap string MessageDoc.t) :
  reader <> user ->
  (forall k, ms' !! k = markFor reader <$> ms !! k) ->
  unreadMessages user ms' = unreadMessages user ms.
Proof.
  intros Hne Hlook. unfold unreadMessages.
  apply map_filter_strong_ext_1. intros k x. simpl. rewrite Hlook.
  destruct (ms !! k) as [d|] eqn:Hd; simpl; [|split; intros [_ [=]]].
  unfold markFor.
  destruct (decide (MessageDoc.receiverId d = reader
                    /\ MessageDoc.read d = false)) as [[Hr Hu]|Hn].
  - split.
    + intros [[Hx _] [= <-]]. simpl in Hx. congruence.
    + intros [[Hx _] [= <-]]. congruence.
  - tauto.
Qed.

Lemma ledgerOk_send (commits : bool) (messageId : string) (now : Z)
    (chatId a b sender receiver text : string) (db : ChatStore) :
  a <> b ->
  (sender = a /\ receiver = b) \/ (sender = b /\ receiver = a) ->
  getMessagesCollection chatId db !! messageId = None ->
  ledgerOk chatId a b db ->
  ledgerOk chatId a b
    (snd (sendMessage commits messageId now chatId sender receiver text db)).
Proof.
  intros Hne Hsr Hfresh (d & Hd & H1 & H2 & Hc1 & Hc2).
  destruct commits;
    [|unfold sendMessage; rewrite runTransaction_false; now exists d].
  rewrite (sendMessage_commit _ _ _ _ _ _ _ _ Hd). simpl.
  eexists. split; [apply lookup_insert_eq|].
  rewrite getMessagesCollection_insert.
  destruct (decide (chatId = chatId)) as [_|]; [|done].
  rewrite !unreadMessages_insert_new by exact Hfresh. simpl.
  unfold sendUpdate. rewrite H1, fieldIs_Some.
  destruct Hsr as [ [-> ->] | [-> ->] ].
  - rewrite String.eqb_refl. simpl.
    rewrite decide_False by (intros [? _]; congruence).
    rewrite decide_True by done.
    repeat split; try assumption. rewrite Hc2. lia.
  - assert (String.eqb a b = false) as -> by now apply String.eqb_neq.
    simpl. rewrite decide_True by done.
    rewrite decide_False by (intros [? _]; congruence).
    repeat split; try assumption. rewrite Hc1. lia.
Qed.

Lemma ledgerOk_read (commits : bool) (chatId a b reader : string)
    (db : ChatStore) :
  a <> b -> reader = a \/ reader = b ->
  ledgerOk chatId a b db ->
  ledgerOk chatId a b (snd (markMessagesAsRead commits chatId reader db db)).
Proof.
  intros Hne Hr (d & Hd & H1 & H2 & Hc1 & Hc2).
  destruct commits;
    [|unfold markMessagesAsRead; rewrite runTransaction_false; now exists d].
  destruct (markMessagesAsRead_commit chatId reader db d Hd)
    as (db' & Hrun & Hchats & _ & Hlook).
  rewrite Hrun. simpl.
  eexists. split; [rewrite Hchats; apply lookup_insert_eq|].
  unfold resetFor. rewrite H1, fieldIs_Some.
  destruct Hr as [-> | ->].
  - rewrite String.eqb_refl. simpl.
    rewrite (unreadMessages_after_mark a _ _ Hlook).
    rewrite (unreadMessages_other_mark a b _ _ Hne Hlook).
    repeat split; assumption.
  - assert (String.eqb a b = false) as -> by now apply String.eqb_neq.
    simpl.
    rewrite (unreadMessages_after_mark b _ _ Hlook).
    rewrite (unreadMessages_other_mark b a _ _ (not_eq_sym Hne) Hlook).
    repeat split; assumption.
Qed.

Lemma keepsMessages_refl (chatId : string) (db : ChatStore) :
  keepsMessages chatId db db.
Proof. intros k d Hd. eauto. Qed.

Lemma keepsMessages_trans (chatId : string) (db1 db2 db3 : ChatStore) :
  keepsMessages chatId db1 db2 -> keepsMessages chatId db2 db3 ->
  keepsMessages chatId db1 db3.
Proof.
  intros H12 H23 k d Hd. destruct (H12 k d Hd) as (d' & Hd' & E).
  destruct (H23 k d' Hd') as (d'' & Hd'' & E'). exists d''. split; congruence.
Qed.

Lemma keepsMessages_send (commits : bool) (messageId : string) (now : Z)
    (chatId sender receiver text : string) (db : ChatStore) :
  getMessagesCollection chatId db !! messageId = None ->
  keepsMessages chatId db
    (snd (sendMessage commits messageId now chatId sender receiver text db)).
Proof.
  intros Hfresh.
  destruct commits;
    [|unfold sendMessage; rewrite runTransaction_false; apply keepsMessages_refl].
  destruct (chats db !! chatId) as [d|] eqn:Hd.
  - rewrite (sendMessage_commit _ _ _ _ _ _ _ _ Hd). simpl.
    intros k x Hx. exists x. split; [|reflexivity].
    rewrite getMessagesCollection_insert.
    destruct (decide (chatId = chatId)) as [_|]; [|done].
    rewrite lookup_insert_ne; [exact Hx|]. intros ->. congruence.
  - rewrite (sendMessage_missing _ _ _ _ _ _ _ _ Hd). apply keepsMessages_refl.
Qed.

(** The messages of an unread query are addressed to the reader. *)
Lemma unreadQuery_receiver (chatId userId : string) (db : ChatStore)
    (k : string) :
  k ∈ (unreadQuery chatId userId db).*1 ->
  exists d, getMessagesCollection chatId db !! k = Some d
            /\ MessageDoc.receiverId d = userId.
Proof.
  intros Hk. apply list_elem_of_fmap in Hk as ([k' d] & -> & Hin). simpl.
  apply elem_of_map_to_list, map_lookup_filter_Some in Hin as [Hd [Hr _]].
  eauto.
Qed.

Lemma unreadMessages_flip_others (keys : list string) (reader user : string)
    (ms ms' : gmap string MessageDoc.t) :
  reader <> user ->
  (forall k d, k ∈ keys -> ms !! k = Some d -> MessageDoc.receiverId d = reader) ->
  (forall k, ms' !! k
             = if decide (k ∈ keys) then setRead true <$> ms !! k else ms !! k) ->
  unreadMessages user ms' = unreadMessages user ms.
Proof.
  intros Hne Hkeys Hlook. unfold unreadMessages.
  apply map_filter_strong_ext_1. intros k x. simpl. rewrite Hlook.
  destruct (decide (k ∈ keys)) as [Hk|Hk]; [|tauto].
  destruct (ms !! k) as [d|] eqn:Hd; simpl; [|split; intros [_ [=]]].
  assert (Hr := Hkeys k d Hk Hd). split.
  - intros [[Hx _] [= <-]]. simpl in Hx. congruence.
  - intros [[Hx _] [= <-]]. congruence.
Qed.

Lemma ledgerWithin_send (commits : bool) (messageId : string) (now : Z)
    (chatId a b sender receiver text : string) (db : ChatStore) :
  a <> b ->
  (sender = a /\ receiver = b) \/ (sender = b /\ receiver = a) ->
  getMessagesCollection chatId db !! messageId = None ->
  ledgerWithin chatId a b db ->
  ledgerWithin chatId a b
    (snd (sendMessage commits messageId now chatId sender receiver text db)).
Proof.
  intros Hne Hsr Hfresh (d & Hd & H1 & H2 & Hc1 & Hc2).
  destruct commits;
    [|unfold sendMessage; rewrite runTransaction_false; now exists d].
  rewrite (sendMessage_commit _ _ _ _ _ _ _ _ Hd). simpl.
  eexists. split; [apply lookup_insert_eq|].
  rewrite getMessagesCollection_insert.
  destruct (decide (chatId = chatId)) as [_|]; [|done].
  rewrite !unreadMessages_insert_new by exact Hfresh. simpl.
  unfold sendUpdate. rewrite H1, fieldIs_Some.
  destruct Hsr as [ [-> ->] | [-> ->] ].
  - rewrite String.eqb_refl. simpl.
    rewrite decide_False by (intros [? _]; congruence).
    rewrite decide_True by done.
    repeat split; try assumption; lia.
  - assert (String.eqb a b = false) as -> by now apply String.eqb_neq.
    simpl. rewrite decide_True by done.
    rewrite decide_False by (intros [? _]; congruence).
    repeat split; try assumption; lia.
Qed.

Lemma ledgerWithin_read (commits : bool) (chatId a b reader : string)
    (dbQuery db : ChatStore) :
  a <> b -> reader = a \/ reader = b ->
  keepsMessages chatId dbQuery db ->
  ledgerWithin chatId a b db ->
  ledgerWithin chatId a b
    (snd (markMessagesAsRead commits chatId reader dbQuery db))
  /\ keepsMessages chatId db
       (snd (markMessagesAsRead commits chatId reader dbQuery db)).
Proof.
  intros Hne Hr Hkeeps (d & Hd & H1 & H2 & Hc1 & Hc2).
  destruct commits.
  2:{ unfold markMessagesAsRead. rewrite runTransaction_false.
      split; [now exists d|apply keepsMessages_refl]. }
  set (keys := (unreadQuery chatId reader dbQuery).*1).
  assert (Hrecv : forall k x, k ∈ keys ->
            getMessagesCollection chatId db !! k = Some x ->
            MessageDoc.receiverId x = reader).
  { intros k x Hk Hx.
    destruct (unreadQuery_receiver chatId reader dbQuery k Hk) as (dq & Hdq & E).
    destruct (Hkeeps k dq Hdq) as (x' & Hx' & E'). congruence. }
  assert (Hstored : forall k, k ∈ keys ->
            is_Some (getMessagesCollection chatId db !! k)).
  { intros k Hk.
    destruct (unreadQuery_receiver chatId reader dbQuery k Hk) as (dq & Hdq & _).
    destruct (Hkeeps k dq Hdq) as (x' & Hx' & _). eauto. }
  destruct (markMessagesAsRead_commit_at chatId reader dbQuery db d Hd Hstored)
    as (db' & Hrun & Hchats & _ & Hlook).
  fold keys in Hlook. rewrite Hrun. simpl. split.
  - eexists. split; [rewrite Hchats; apply lookup_insert_eq|].
    unfold resetFor. rewrite H1, fieldIs_Some.
    destruct Hr as [-> | ->].
    + rewrite String.eqb_refl. simpl.
      rewrite (unreadMessages_flip_others keys a b _ _ Hne Hrecv Hlook).
      repeat split; try assumption; lia.
    + assert (String.eqb a b = false) as -> by now apply String.eqb_neq.
      simpl.
      rewrite (unreadMessages_flip_others keys b a _ _ (not_eq_sym Hne)
                 Hrecv Hlook).
      repeat split; try assumption; lia.
  - intros k x Hx. rewrite Hlook, Hx.
    destruct (decide (k ∈ keys)); simpl; eauto.
Qed.

(** What a [createOrGetChat] leaves: the store as it was, or, when its
    [get()] saw no chat document, a new document over whatever is stored. *)
Lemma createOrGetChat_cases (reads writes : bool) (now : Z) (x y : string)
    (dbRead db : ChatStore) :
  snd (createOrGetChat reads writes now x y dbRead db) = db
  \/ (chats dbRead !! getChatId x y = None
      /\ snd (createOrGetChat reads writes now x y dbRead db)
         = mkChatStore
             (<[getChatId x y := ChatDoc.mk (Some x) (Some y) (Some "")
                                  (Some now) (Some 0) (Some 0)]> (chats db))
             (messages db)).
Proof.
  unfold createOrGetChat. destruct reads; [|now left].
  destruct (chats dbRead !! getChatId x y) as [d|] eqn:Hd.
  - rewrite (getDoc_Some _ _ _ Hd). now left.
  - rewrite (getDoc_None _ _ Hd). destruct writes; [right|left]; easy.
Qed.

Lemma ledgerWithin_new (now : Z) (chatId x y : string) (db : ChatStore) :
  ledgerWithin chatId x y
    (mkChatStore
       (<[chatId := ChatDoc.mk (Some x) (Some y) (Some "") (Some now)
                      (Some 0) (Some 0)]> (chats db))
       (messages db)).
Proof.
  eexists. split; [apply lookup_insert_eq|]. simpl. repeat split; lia.
Qed.

Lemma ledgerOk_new (now : Z) (chatId x y : string) (db : ChatStore) :
  getMessagesCollection chatId db = ∅ ->
  ledgerOk chatId x y
    (mkChatStore
       (<[chatId := ChatDoc.mk (Some x) (Some y) (Some "") (Some now)
                      (Some 0) (Some 0)]> (chats db))
       (messages db)).
Proof.
  intros Hempty. eexists. split; [apply lookup_insert_eq|].
  change (getMessagesCollection chatId
            {| chats := <[chatId := ChatDoc.mk (Some x) (Some y) (Some "")
                           (Some now) (Some 0) (Some 0)]> (chats db);
               messages := messages db |})
    with (getMessagesCollection chatId db).
  rewrite Hempty. unfold unreadMessages. rewrite map_filter_empty.
  repeat split; reflexivity.
Qed.

(** Without chat document and without messages, a mark-as-read whose query
    saw an earlier store changes nothing. *)
Lemma markMessagesAsRead_unopened (commits : bool) (chatId reader : string)
    (dbQuery db : ChatStore) :
  keepsMessages chatId dbQuery db ->
  unopened chatId db ->
  snd (markMessagesAsRead commits chatId reader dbQuery db) = db.
Proof.
  intros Hkeeps [Hnone Hempty].
  assert (Hq : unreadQuery chatId reader dbQuery = []).
  { destruct (unreadQuery chatId reader dbQuery) as [|[k x] l] eqn:E;
      [reflexivity|exfalso].
    destruct (unreadQuery_receiver chatId reader dbQuery k) as (dq & Hdq & _).
    { rewrite E. simpl. left. }
    destruct (Hkeeps k dq Hdq) as (x' & Hx' & _).
    rewrite Hempty, lookup_empty in Hx'. discriminate. }
  unfold markMessagesAsRead, runTransaction, markMessagesAsReadWrites.
  rewrite Hq, (getDoc_None _ _ Hnone). simpl. now destruct commits.
Qed.

Lemma conversation_ledgerWithin (undisturbed : bool) (chatId a b : string)
    (db0 db' : ChatStore) :
  a <> b ->
  conversation undisturbed chatId a b db0 db' ->
  unopened chatId db0 \/ ledgerWithin chatId a b db0
  \/ ledgerWithin chatId b a db0 ->
  (unopened chatId db' \/ ledgerWithin chatId a b db'
   \/ ledgerWithin chatId b a db')
  /\ keepsMessages chatId db0 db'.
Proof.
  intros Hne Hconv.
  assert (Hne' : b <> a) by congruence.
  induction Hconv as [db0
                     |reads writes now x y db0 dbRead db _ IH1 _ IH2 Hxy Hid _
                     |commits mid t sender receiver text db0 db _ IH Hsr Hfresh
                     |commits reader db0 dbQuery db _ IH1 _ IH2 Hr _];
    intros H0.
  - split; [exact H0|apply keepsMessages_refl].
  - destruct (IH1 H0) as [_ Hk0]. destruct (IH2 (proj1 (IH1 H0))) as [Hin Hk].
    assert (Hk0' := keepsMessages_trans _ _ _ _ Hk0 Hk).
    destruct (createOrGetChat_cases reads writes now x y dbRead db)
      as [-> |[_ ->]]; [now split|].
    rewrite Hid. split; [|exact Hk0'].
    destruct Hxy as [[-> ->]|[-> ->]]; [right; left|right; right];
      apply ledgerWithin_new.
  - destruct (IH H0) as [Hin Hk]. split.
    + destruct Hin as [[Hnone Hempty]|[Hin|Hin]].
      * rewrite (sendMessage_missing _ _ _ _ _ _ _ _ Hnone). left. now split.
      * right; left. now apply ledgerWithin_send.
      * right; right. apply ledgerWithin_send; auto. tauto.
    + eapply keepsMessages_trans; [exact Hk|]. now apply keepsMessages_send.
  - destruct (IH1 H0) as [Hq Hk0]. destruct (IH2 Hq) as [Hin Hk].
    destruct Hin as [Hun|[Hin|Hin]].
    + rewrite (markMessagesAsRead_unopened commits chatId reader dbQuery db Hk Hun).
      split; [now left|]. eapply keepsMessages_trans; eassumption.
    + destruct (ledgerWithin_read commits chatId a b reader dbQuery db
                  Hne Hr Hk Hin) as [Hin' Hk'].
      split; [now right; left|].
      eapply keepsMessages_trans; [exact Hk0|].
      eapply keepsMessages_trans; [exact Hk|exact Hk'].
    + assert (Hr' : reader = b \/ reader = a) by tauto.
      destruct (ledgerWithin_read commits chatId b a reader dbQuery db
                  Hne' Hr' Hk Hin) as [Hin' Hk'].
      split; [now right; right|].
      eapply keepsMessages_trans; [exact Hk0|].
      eapply keepsMessages_trans; [exact Hk|exact Hk'].
Qed.

Lemma conversation_ledgerOk (chatId a b : string) (db0 db' : ChatStore) :
  a <> b ->
  conversation true chatId a b db0 db' ->
  unopened chatId db0 \/ ledgerOk chatId a b db0 \/ ledgerOk chatId b a db0 ->
  unopened chatId db' \/ ledgerOk chatId a b db' \/ ledgerOk chatId b a db'.
Proof.
  intros Hne Hconv.
  assert (Hne' : b <> a) by congruence.
  induction Hconv as [db0
                     |reads writes now x y db0 dbRead db _ IH1 _ IH2 Hxy Hid Hsame
                     |commits mid t sender receiver text db0 db _ IH Hsr Hfresh
                     |commits reader db0 dbQuery db _ IH1 _ IH2 Hr Hsame];
    intros H0.
  - exact H0.
  - assert (Hin := IH2 (IH1 H0)). rewrite (Hsame eq_refl) in *.
    destruct (createOrGetChat_cases reads writes now x y db db)
      as [-> |[Hnone ->]]; [exact Hin|].
    rewrite Hid in *.
    assert (Hempty : getMessagesCollection chatId db = ∅).
    { destruct Hin as [[_ Hempty]|[(d & Hd & _)|(d & Hd & _)]];
        [exact Hempty|congruence|congruence]. }
    destruct Hxy as [[-> ->]|[-> ->]]; [right; left|right; right];
      now apply ledgerOk_new.
  - destruct (IH H0) as [[Hnone Hempty]|[Hin|Hin]].
    + rewrite (sendMessage_missing _ _ _ _ _ _ _ _ Hnone). left. now split.
    + right; left. now apply ledgerOk_send.
    + right; right. apply ledgerOk_send; auto. tauto.
  - assert (Hin := IH2 (IH1 H0)). rewrite (Hsame eq_refl) in *.
    destruct Hin as [Hun|[Hin|Hin]].
    + rewrite (markMessagesAsRead_unopened commits chatId reader db db
                 (keepsMessages_refl chatId db) Hun). now left.
    + right; left. now apply ledgerOk_read.
    + right; right. apply ledgerOk_read; auto. tauto.
Qed.

Lemma ledgerWithin_notOverstated (chatId a b : string) (db : ChatStore) :
  a <> b ->
  ledgerWithin chatId a b db ->
  notOverstated chatId a db /\ notOverstated chatId b db.
Proof.
  intros Hne (d & Hd & H1 & H2 & Hc1 & Hc2).
  assert (Eab : String.eqb a b = false) by now apply String.eqb_neq.
  split.
  - exists d, (Js.orZero (ChatDoc.unreadCount1 d)).
    split; [exact Hd|]. split; [|exact Hc1].
    unfold unreadCountFor. now rewrite H1, fieldIs_Some, String.eqb_refl.
  - exists d, (Js.orZero (ChatDoc.unreadCount2 d)).
    split; [exact Hd|]. split; [|exact Hc2].
    unfold unreadCountFor.
    now rewrite H1, H2, !fieldIs_Some, Eab, String.eqb_refl.
Qed.

Lemma ledgerOk_balanced (chatId a b : string) (db : ChatStore) :
  a <> b ->
  ledgerOk chatId a b db ->
  balanced chatId a db /\ balanced chatId b db.
Proof.
  intros Hne (x & Hx & X1 & X2 & Xc1 & Xc2).
  assert (Eab : String.eqb a b = false) by now apply String.eqb_neq.
  split; exists x; (split; [exact Hx|]); unfold unreadCountFor;
    rewrite X1, ?X2, !fieldIs_Some.
  - now rewrite String.eqb_refl, Xc1.
  - now rewrite Eab, String.eqb_refl, Xc2.
Qed.

(** X3. The unread ledger never overstates, and is exact when nothing
    disturbs a read. Start from a store that holds neither a chat document
    nor a message for the thread of two distinct profiles. After any
    sequence of [createOrGetChat] by either for the pair, of sends between
    the two (each with a fresh message id) and of mark-as-read by either,
    failed or not, where the [get()] of a [createOrGetChat] and the unread
    query of a mark-as-read may have run on an earlier store than the write
    or transaction that follows, either the chat still has neither document
    nor message, or the unread counter kept for each of the two lies
    between 0 and the number of unread messages addressed to it. When
    nothing commits between such a read and what follows it, each counter
    is exactly that number. *)
Theorem unread_ledger_never_overstates (undisturbed : bool) (a b : string)
    (db db' : ChatStore) :
  a <> b ->
  chats db !! getChatId a b = None ->
  getMessagesCollection (getChatId a b) db = ∅ ->
  conversation undisturbed (getChatId a b) a b db db' ->
  (chats db' !! getChatId a b = None
   /\ getMessagesCollection (getChatId a b) db' = ∅)
  \/ (notOverstated (getChatId a b) a db'
      /\ notOverstated (getChatId a b) b db'
      /\ (undisturbed = true ->
          balanced (getChatId a b) a db' /\ balanced (getChatId a b) b db')).
Proof.
  intros Hne Hnew Hempty Hconv.
  assert (Hne' : b <> a) by congruence.
  assert (Hstart : unopened (getChatId a b) db) by now split.
  destruct (conversation_ledgerWithin _ _ _ _ _ _ Hne Hconv
              (or_introl Hstart)) as [[Hun|Hin] _]; [now left|right].
  assert (Hwithin : notOverstated (getChatId a b) a db'
                    /\ notOverstated (getChatId a b) b db').
  { destruct Hin as [Hin|Hin].
    - now apply (ledgerWithin_notOverstated _ a b).
    - destruct (ledgerWithin_notOverstated _ b a db' Hne' Hin). now split. }
  destruct Hwithin as [Ha Hb]. split; [exact Ha|]. split; [exact Hb|].
  intros ->.
  destruct (conversation_ledgerOk _ _ _ _ _ Hne Hconv (or_introl Hstart))
    as [[Hnone _]|[Hok|Hok]].
  - destruct Ha as (d & n & Hd & _). congruence.
  - now apply (ledgerOk_balanced _ a b).
  - destruct (ledgerOk_balanced _ b a db' Hne' Hok). now split.
Qed.

(** ** Reading messages back *)

Lemma StronglySorted_app {A} (R : A -> A -> Prop) (l1 l2 : list A) :
  StronglySorted R l1 -> StronglySorted R l2 ->
  (forall x y, In x l1 -> In y l2 -> R x y) ->
  StronglySorted R (l1 ++ l2).
Proof.
  induction 1 as [|x l1 Hl1 IH Hx]; intros H2 H12; simpl; [exact H2|].
  constructor.
  - apply IH; [exact H2|]. intros a c Ha Hc. apply H12; [now right|exact Hc].
  - apply List.Forall_app. split; [exact Hx|].
    apply List.Forall_forall. intros y Hy. apply H12; [now left|exact Hy].
Qed.

Lemma StronglySorted_rev {A} (R : A -> A -> Prop) (l : list A) :
  StronglySorted R l -> StronglySorted (fun x y => R y x) (rev l).
Proof.
  induction 1 as [|x l Hl IH Hx]; simpl; [constructor|].
  apply StronglySorted_app; [exact IH|repeat constructor|].
  intros a c Ha [<-|[]]. apply in_rev in Ha.
  exact (proj1 (List.Forall_forall _ _) Hx a Ha).
Qed.

Lemma firstn_In {A} (n : nat) (l : list A) (x : A) :
  In x (firstn n l) -> In x l.
Proof.
  revert n. induction l as [|y l IH]; intros [|n]; simpl; try tauto.
  intros [H|H]; [now left|right; exact (IH n H)].
Qed.

Lemma StronglySorted_firstn {A} (R : A -> A -> Prop) (n : nat) (l : list A) :
  StronglySorted R l -> StronglySorted R (firstn n l).
Proof.
  intros H. revert n. induction H as [|x l Hl IH Hx]; intros [|n]; simpl;
    try constructor; [apply IH|].
  apply List.Forall_forall. intros y Hy. apply firstn_In in Hy.
  exact (proj1 (List.Forall_forall _ _) Hx y Hy).
Qed.

Lemma firstn_before_rest {A} (R : A -> A -> Prop) (n : nat) (l : list A)
    (x y : A) :
  StronglySorted R l -> In x (firstn n l) -> In y l -> ~ In y (firstn n l) ->
  R x y.
Proof.
  intros H. revert n. induction H as [|z l Hl IH Hz]; intros [|n]; simpl;
    try tauto.
  intros [<-|Hx] [Hy|Hy] Hny; try tauto.
  - exact (proj1 (List.Forall_forall _ _) Hz y Hy).
  - apply (IH n); tauto.
Qed.

Lemma sort_desc_docs (l : list (string * MessageDoc.t)) :
  StronglySorted
    (fun x y => MessageDoc.timestamp (snd y) <= MessageDoc.timestamp (snd x))
    (Js.sort byDocTimestampDesc l).
Proof.
  assert (Hs := sort_sorted byDocTimestampDesc
                  ltac:(unfold byDocTimestampDesc; intros; lia) l).
  apply Sorted_StronglySorted in Hs.
  - eapply StronglySorted_weaken; [|exact Hs].
    unfold inOrder, byDocTimestampDesc. intros a b. lia.
  - unfold inOrder, byDocTimestampDesc. intros a b c. lia.
Qed.

Lemma orEmpty_Some (s : string) : Js.orEmpty (Some s) = s.
Proof. now destruct s. Qed.

Lemma isFalsy_Some (s : string) :
  isFalsy (Some s) = ChatDetailScreen.isEmpty s.
Proof. now destruct s. Qed.

Lemma isEmpty_false (s : string) :
  ChatDetailScreen.isEmpty s = false <-> s <> "".
Proof. destruct s; simpl; split; congruence. Qed.

Lemma toMessage_stored (chatId : string) (now : Z) (e : string * MessageDoc.t) :
  toMessage chatId now (fst e, rawMessage (snd e))
  = if shown e then Some (readBack chatId e) else None.
Proof.
  destruct e as [id [c s r t ts rd]].
  destruct t, s, r; reflexivity.
Qed.

Lemma toMessageLoose_stored (chatId : string) (now : Z)
    (e : string * MessageDoc.t) :
  toMessageLoose chatId now (fst e, rawMessage (snd e)) = readBack chatId e.
Proof.
  destruct e as [id [c s r t ts rd]].
  destruct t, s, r; reflexivity.
Qed.

Lemma pushMessages_stored (chatId : string) (now : Z)
    (l : list (string * MessageDoc.t)) :
  pushMessages chatId now (List.map (fun e => (fst e, rawMessage (snd e))) l)
  = List.map (readBack chatId) (List.filter shown l).
Proof.
  induction l as [|e l IH]; simpl; [reflexivity|].
  rewrite (toMessage_stored chatId now e).
  destruct (shown e); simpl; now rewrite IH.
Qed.

Lemma In_newestMessages (limit : nat) (msgs : gmap string MessageDoc.t)
    (e : string * MessageDoc.t) :
  In e (newestMessages limit msgs) -> msgs !! fst e = Some (snd e).
Proof.
  unfold newestMessages. intros H. apply firstn_In in H.
  apply sort_In in H. destruct e. now apply list_elem_of_In, elem_of_map_to_list in H.
Qed.

Lemma NoDup_fst_firstn_sort {A} (cmp : string * A -> string * A -> Z)
    (n : nat) (l : list (string * A)) :
  NoDup (List.map fst l) -> NoDup (List.map fst (firstn n (Js.sort cmp l))).
Proof.
  intros H.
  assert (Hs : NoDup (List.map fst (Js.sort cmp l)))
    by now rewrite (Permutation_map fst (sort_perm cmp l)).
  rewrite <- (List.firstn_skipn n (Js.sort cmp l)), List.map_app in Hs.
  now apply NoDup_app in Hs as [Hs _].
Qed.

Lemma readBack_ids (chatId : string) (l : list (string * MessageDoc.t)) :
  NoDup (List.map fst l) ->
  NoDup (List.map Message.id (List.map (readBack chatId) (List.filter shown l))).
Proof.
  intros H. rewrite List.map_map. simpl.
  now apply (NoDup_map_fst_filter shown).
Qed.

Lemma map_to_list_NoDup_fst {A} (m : gmap string A) :
  NoDup (List.map fst (map_to_list m)).
Proof. rewrite <- fmap_map. apply NoDup_fst_map_to_list. Qed.

Lemma readBack_sorted (chatId : string) (f : string * MessageDoc.t -> bool)
    (l : list (string * MessageDoc.t)) :
  StronglySorted
    (fun x y => MessageDoc.timestamp (snd y) <= MessageDoc.timestamp (snd x)) l ->
  StronglySorted (fun x y => Message.timestamp y <= Message.timestamp x)
    (List.map (readBack chatId) (List.filter f l)).
Proof.
  induction 1 as [|e l Hl IH He]; simpl; [constructor|].
  destruct (f e); simpl; [|exact IH].
  constructor; [exact IH|].
  apply List.Forall_forall. intros m Hm.
  apply in_map_iff in Hm as (e' & <- & He'). apply filter_In in He' as [He' _].
  exact (proj1 (List.Forall_forall _ _) He e' He').
Qed.

(** X4. What [getChatMessages] hands to its callback for a chat: at most
    [limit] messages, oldest first, no message id twice; every delivered
    message is a stored document read back field by field, with non-empty
    text and sender (a document lacking either is never shown); a stored
    message that the query leaves out is no newer than any delivered one;
    and when the chat holds at most [limit] messages, every stored message
    with text and sender is delivered. *)
Theorem getChatMessages_page (limit : nat) (chatId : string) (now : Z)
    (db : ChatStore) :
  let msgs := getMessagesCollection chatId db in
  let delivered := getChatMessages limit chatId now db in
  (length delivered <= limit)%nat
  /\ StronglySorted
       (fun x y => Message.timestamp x <= Message.timestamp y) delivered
  /\ NoDup (List.map Message.id delivered)
  /\ (forall m, In m delivered ->
        Message.text m <> "" /\ Message.senderId m <> ""
        /\ exists d, msgs !! Message.id m = Some d
                     /\ m = readBack chatId (Message.id m, d))
  /\ (forall id d m,
        msgs !! id = Some d -> ~ In (id, d) (newestMessages limit msgs) ->
        In m delivered -> MessageDoc.timestamp d <= Message.timestamp m)
  /\ ((size msgs <= limit)%nat ->
      forall id d, msgs !! id = Some d ->
        MessageDoc.text d <> "" -> MessageDoc.senderId d <> "" ->
        In (readBack chatId (id, d)) delivered).
Proof.
  intros msgs delivered.
  assert (Hdel : delivered
                 = rev (List.map (readBack chatId)
                          (List.filter shown (newestMessages limit msgs))))
    by (unfold delivered, getChatMessages, onMessagesSnapshot;
        now rewrite pushMessages_stored).
  assert (Hin : forall m, In m delivered
                  <-> exists e, In e (newestMessages limit msgs)
                        /\ shown e = true /\ m = readBack chatId e).
  { intros m. rewrite Hdel, <- in_rev, in_map_iff. split.
    - intros (e & <- & He). apply filter_In in He as [He Hs]. eauto.
    - intros (e & He & Hs & ->). exists e. split; [reflexivity|].
      now apply filter_In. }
  assert (Hsorted : StronglySorted
            (fun x y => MessageDoc.timestamp (snd y) <= MessageDoc.timestamp (snd x))
            (newestMessages limit msgs))
    by apply StronglySorted_firstn, sort_desc_docs.
  split; [|split; [|split; [|split; [|split]]]].
  - rewrite Hdel, List.length_rev, List.length_map.
    etransitivity; [apply List.filter_length_le|].
    unfold newestMessages. apply List.firstn_le_length.
  - rewrite Hdel.
    apply (StronglySorted_rev
             (fun x y => Message.timestamp y <= Message.timestamp x)).
    now apply readBack_sorted.
  - rewrite Hdel, List.map_rev, <- Permutation_rev.
    apply readBack_ids. unfold newestMessages.
    apply NoDup_fst_firstn_sort, map_to_list_NoDup_fst.
  - intros m Hm. apply Hin in Hm as (e & He & Hs & ->).
    unfold shown in Hs. apply andb_true_iff in Hs as [Ht Hse].
    apply negb_true_iff, isEmpty_false in Ht.
    apply negb_true_iff, isEmpty_false in Hse.
    split; [exact Ht|]. split; [exact Hse|].
    exists (snd e). split; [now apply In_newestMessages in He|].
    now destruct e.
  - intros id d m Hd Hout Hm. apply Hin in Hm as (e & He & _ & ->). simpl.
    apply (firstn_before_rest
             (fun x y => MessageDoc.timestamp (snd y) <= MessageDoc.timestamp (snd x))
             limit (Js.sort byDocTimestampDesc (map_to_list msgs)) e (id, d));
      try assumption.
    + apply sort_desc_docs.
    + apply sort_In. now apply list_elem_of_In, elem_of_map_to_list.
  - intros Hsize id d Hd Ht Hse. apply Hin. exists (id, d).
    split; [|split; [|reflexivity]].
    + unfold newestMessages. rewrite List.firstn_all2.
      * apply sort_In. now apply list_elem_of_In, elem_of_map_to_list.
      * rewrite sort_length. rewrite <- Hsize. unfold size, map_size.
        now rewrite length_map_to_list.
    + unfold shown. simpl.
      apply isEmpty_false in Ht, Hse. now rewrite Ht, Hse.
Qed.

Lemma getChatMessages_stored (limit : nat) (chatId : string) (now : Z)
    (db : ChatStore) :
  getChatMessages limit chatId now db
  = rev (List.map (readBack chatId)
           (List.filter shown
              (newestMessages limit (getMessagesCollection chatId db)))).
Proof.
  unfold getChatMessages, onMessagesSnapshot. now rewrite pushMessages_stored.
Qed.

Lemma loadMoreMessages_stored (limit : nat) (chatId : string) (last now : Z)
    (db : ChatStore) :
  loadMoreMessages true limit chatId last now db
  = Ok (rev (List.map (readBack chatId)
               (olderMessages last limit (getMessagesCollection chatId db)))).
Proof.
  unfold loadMoreMessages. do 2 f_equal. apply List.map_ext.
  intros e. apply toMessageLoose_stored.
Qed.

Lemma In_olderMessages (last : Z) (limit : nat)
    (msgs : gmap string MessageDoc.t) (e : string * MessageDoc.t) :
  In e (olderMessages last limit msgs) ->
  msgs !! fst e = Some (snd e) /\ MessageDoc.timestamp (snd e) < last.
Proof.
  unfold olderMessages. intros H. apply firstn_In, sort_In in H.
  apply filter_In in H as [H Hts]. split; [|lia].
  destruct e. now apply list_elem_of_In, elem_of_map_to_list in H.
Qed.

Lemma page_sorted (chatId : string) (l : list (string * MessageDoc.t)) :
  StronglySorted
    (fun x y => MessageDoc.timestamp (snd y) <= MessageDoc.timestamp (snd x)) l ->
  StronglySorted (fun x y => Message.timestamp x <= Message.timestamp y)
    (rev (List.map (readBack chatId) l)).
Proof.
  intros H.
  apply (StronglySorted_rev
           (fun x y => Message.timestamp y <= Message.timestamp x)).
  rewrite <- (filter_all_true (fun _ => true) l) by reflexivity.
  now apply readBack_sorted.
Qed.

(** X5. Paging back with [loadMoreMessages] from the oldest message of a page
    delivered by [getChatMessages]: the older page has at most [limit]
    messages, each a stored document strictly older than that message; put
    in front of the page, the list stays oldest first and no message id
    occurs twice; and nothing is skipped: a stored message older than the
    page that is not loaded is no newer than any loaded one, and all of them
    are loaded when their number is at most [limit]. *)
Theorem loadMoreMessages_extends_page (limit limit' : nat) (chatId : string)
    (now now' : Z) (db : ChatStore) (oldest : Message.t)
    (rest older : list Message.t) :
  let msgs := getMessagesCollection chatId db in
  getChatMessages limit' chatId now' db = oldest :: rest ->
  loadMoreMessages true limit chatId (Message.timestamp oldest) now db
  = Ok older ->
  (length older <= limit)%nat
  /\ (forall m, In m older ->
        Message.timestamp m < Message.timestamp oldest
        /\ exists d, msgs !! Message.id m = Some d
                     /\ m = readBack chatId (Message.id m, d))
  /\ StronglySorted (fun x y => Message.timestamp x <= Message.timestamp y)
       (older ++ oldest :: rest)
  /\ NoDup (List.map Message.id (older ++ oldest :: rest))
  /\ (forall id d m,
        msgs !! id = Some d ->
        MessageDoc.timestamp d < Message.timestamp oldest ->
        ~ In (readBack chatId (id, d)) older ->
        In m older -> MessageDoc.timestamp d <= Message.timestamp m)
  /\ ((length (List.filter
                 (fun e => (MessageDoc.timestamp (snd e)
                            <? Message.timestamp oldest)%Z)
                 (map_to_list msgs)) <= limit)%nat ->
      forall id d, msgs !! id = Some d ->
        MessageDoc.timestamp d < Message.timestamp oldest ->
        In (readBack chatId (id, d)) older).
Proof.
  intros msgs Hpage Hload.
  rewrite loadMoreMessages_stored in Hload. injection Hload as <-.
  fold msgs.
  set (last := Message.timestamp oldest).
  set (old := olderMessages last limit msgs).
  assert (Hin : forall m, In m (rev (List.map (readBack chatId) old))
                  <-> exists e, In e old /\ m = readBack chatId e).
  { intros m. rewrite <- in_rev, in_map_iff. split.
    - intros (e & <- & He). eauto.
    - intros (e & He & ->). eauto. }
  assert (Hcand : forall id d, msgs !! id = Some d ->
            MessageDoc.timestamp d < last ->
            In (id, d)
              (Js.sort byDocTimestampDesc
                 (List.filter (fun e => MessageDoc.timestamp (snd e) <? last)
                    (map_to_list msgs)))).
  { intros id d Hd Hts. apply sort_In, filter_In. split.
    - now apply list_elem_of_In, elem_of_map_to_list.
    - simpl. lia. }
  assert (Hpg : StronglySorted
            (fun x y => Message.timestamp x <= Message.timestamp y)
            (oldest :: rest)).
  { rewrite <- Hpage, getChatMessages_stored.
    apply (StronglySorted_rev
             (fun x y => Message.timestamp y <= Message.timestamp x)).
    apply readBack_sorted, StronglySorted_firstn, sort_desc_docs. }
  assert (Hpin : forall m, In m (oldest :: rest) ->
            last <= Message.timestamp m
            /\ exists d, msgs !! Message.id m = Some d
                         /\ Message.timestamp m = MessageDoc.timestamp d).
  { intros m Hm. split.
    - apply StronglySorted_inv in Hpg as [_ Hall].
      destruct Hm as [<-|Hm]; [unfold last; lia|].
      exact (proj1 (List.Forall_forall _ _) Hall m Hm).
    - rewrite <- Hpage, getChatMessages_stored, <- in_rev, in_map_iff in Hm.
      destruct Hm as (e & <- & He). apply filter_In in He as [He _].
      apply In_newestMessages in He. exists (snd e). split; [exact He|reflexivity]. }
  split; [|split; [|split; [|split; [|split]]]].
  - rewrite List.length_rev, List.length_map. apply List.firstn_le_length.
  - intros m Hm. apply Hin in Hm as (e & He & ->).
    apply In_olderMessages in He as [He Hts]. split; [exact Hts|].
    exists (snd e). split; [exact He|]. now destruct e.
  - apply StronglySorted_app; [|exact Hpg|].
    + apply page_sorted, StronglySorted_firstn, sort_desc_docs.
    + intros x y Hx Hy. apply Hin in Hx as (e & He & ->).
      apply In_olderMessages in He as [_ Hts].
      apply Hpin in Hy as [Hy _]. simpl. lia.
  - rewrite List.map_app. apply NoDup_app. split; [|split].
    + rewrite List.map_rev, <- Permutation_rev, List.map_map. simpl.
      apply NoDup_fst_firstn_sort, NoDup_map_fst_filter, map_to_list_NoDup_fst.
    + intros i Hi Hi'. apply list_elem_of_In, in_map_iff in Hi as (m & <- & Hm).
      apply list_elem_of_In, in_map_iff in Hi' as (m' & E & Hm').
      apply Hin in Hm as (e & He & ->).
      apply In_olderMessages in He as [He Hts].
      apply Hpin in Hm' as (Hlast & d & Hd & Hm'ts).
      simpl in E. rewrite E, He in Hd. injection Hd as <-. lia.
    + rewrite <- Hpage, getChatMessages_stored, List.map_rev,
        <- Permutation_rev.
      apply readBack_ids. unfold newestMessages.
      apply NoDup_fst_firstn_sort, map_to_list_NoDup_fst.
  - intros id d m Hd Hts Hout Hm. apply Hin in Hm as (e & He & ->). simpl.
    apply (firstn_before_rest
             (fun x y => MessageDoc.timestamp (snd y) <= MessageDoc.timestamp (snd x))
             limit
             (Js.sort byDocTimestampDesc
                (List.filter (fun e => MessageDoc.timestamp (snd e) <? last)
                   (map_to_list msgs)))
             e (id, d)).
    + apply sort_desc_docs.
    + exact He.
    + now apply Hcand.
    + intros Hc. apply Hout, Hin. exists (id, d). split; [exact Hc|reflexivity].
  - intros Hfew id d Hd Hts. apply Hin. exists (id, d). split; [|reflexivity].
    unfold old, olderMessages. rewrite List.firstn_all2.
    + now apply Hcand.
    + now rewrite sort_length.
Qed.

(** ** Concrete runs of the further properties *)

(** u1 opens a new chat with u2 and sends "hi"; the unread query of u2
    runs; u1 sends "yo"; the transaction of u2 commits. *)
Lemma unread_ledger_never_overstates_witness :
  let cid := getChatId "u1" "u2" in
  let none := mkChatStore ∅ ∅ in
  let chat := snd (createOrGetChat true true 1 "u1" "u2" none none) in
  let first := snd (sendMessage true "m1" 5 cid "u1" "u2" "hi" chat) in
  let second := snd (sendMessage true "m2" 7 cid "u1" "u2" "yo" first) in
  let db' := snd (markMessagesAsRead true cid "u2" first second) in
  (chats db' !! cid = None /\ getMessagesCollection cid db' = ∅)
  \/ (notOverstated cid "u1" db' /\ notOverstated cid "u2" db'
      /\ (false = true -> balanced cid "u1" db' /\ balanced cid "u2" db')).
Proof.
  intros cid none chat first second db'.
  assert (H1 : "u1" <> "u2") by discriminate.
  assert (H2 : chats none !! getChatId "u1" "u2" = None)
    by (vm_compute; reflexivity).
  assert (H3 : getMessagesCollection (getChatId "u1" "u2") none = ∅)
    by (vm_compute; reflexivity).
  assert (H4 : getMessagesCollection cid chat !! "m1" = None)
    by (vm_compute; reflexivity).
  assert (H5 : getMessagesCollection cid first !! "m2" = None)
    by (vm_compute; reflexivity).
  assert (H6 : ("u1" = "u1" /\ "u2" = "u2") \/ ("u1" = "u2" /\ "u2" = "u1"))
    by (left; split; reflexivity).
  assert (H7 : false = true -> first = second) by discriminate.
  assert (H8 : false = true -> none = none) by discriminate.
  assert (H9 : getChatId "u1" "u2" = cid) by reflexivity.
  assert (Hchat : conversation false cid "u1" "u2" none chat)
    by exact (conv_open false cid "u1" "u2" true true 1 "u1" "u2" none none none
                (conv_start false cid "u1" "u2" none)
                (conv_start false cid "u1" "u2" none) H6 H9 H8).
  assert (Hfirst : conversation false cid "u1" "u2" none first)
    by exact (conv_send false cid "u1" "u2" true "m1" 5 "u1" "u2" "hi"
                none chat Hchat H6 H4).
  exact (unread_ledger_never_overstates false "u1" "u2" none db' H1 H2 H3
           (conv_read false cid "u1" "u2" true "u2" none first second
              Hfirst
              (conv_send false cid "u1" "u2" true "m2" 7 "u1" "u2" "yo"
                 first first (conv_start false cid "u1" "u2" first) H6 H5)
              (or_intror eq_refl) H7)).
Defined.

(** In that run the counter of u2 is below the number of its unread
    messages: the ledger is not balanced. *)
Example disturbed_read_unbalances :
  let cid := getChatId "u1" "u2" in
  let chat := snd (createOrGetChat true true 1 "u1" "u2" (mkChatStore ∅ ∅)
                     (mkChatStore ∅ ∅)) in
  let first := snd (sendMessage true "m1" 5 cid "u1" "u2" "hi" chat) in
  let second := snd (sendMessage true "m2" 7 cid "u1" "u2" "yo" first) in
  let db' := snd (markMessagesAsRead true cid "u2" first second) in
  (ChatDoc.unreadCount2 <$> chats db' !! cid) = Some (Some 0)
  /\ size (unreadMessages "u2" (getMessagesCollection cid db')) = 1%nat.
Proof. vm_compute. split; reflexivity. Qed.

(** u1 and u2 open their chat at the same time: both [get()] see no chat.
    The [set()] of u1 arrives, u1 sends "hi", then the [set()] of u2
    arrives. The chat document is the one of u2, with u2 as userId1 and
    both counters at 0, and the message for u2 is unread. *)
Example disturbed_open_unbalances :
  let cid := getChatId "u1" "u2" in
  let none := mkChatStore ∅ ∅ in
  let chat := snd (createOrGetChat true true 1 "u1" "u2" none none) in
  let first := snd (sendMessage true "m1" 5 cid "u1" "u2" "hi" chat) in
  let db' := snd (createOrGetChat true true 6 "u2" "u1" none first) in
  chats first !! cid
  = Some (ChatDoc.mk (Some "u1") (Some "u2") (Some "hi") (Some 5)
            (Some 0) (Some 1))
  /\ chats db' !! cid
     = Some (ChatDoc.mk (Some "u2") (Some "u1") (Some "") (Some 6)
               (Some 0) (Some 0))
  /\ size (unreadMessages "u2" (getMessagesCollection cid db')) = 1%nat.
Proof. vm_compute. repeat split; reflexivity. Qed.

(** A chat with two messages shown one per page. *)
Lemma loadMoreMessages_extends_page_witness :
  NoDup (List.map Message.id
           ([Message.mk "m1" "u1_u2" "u1" "u2" "hi" 5 false]
            ++ [Message.mk "m2" "u1_u2" "u1" "u2" "yo" 7 false])%list).
Proof.
  assert (HA : getChatMessages 1 "u1_u2" 0 store1
               = [Message.mk "m2" "u1_u2" "u1" "u2" "yo" 7 false])
    by (vm_compute; reflexivity).
  assert (HB : loadMoreMessages true 1 "u1_u2"
                 (Message.timestamp (Message.mk "m2" "u1_u2" "u1" "u2" "yo" 7 false))
                 0 store1
               = Ok [Message.mk "m1" "u1_u2" "u1" "u2" "hi" 5 false])
    by (vm_compute; reflexivity).
  exact (proj1 (proj2 (proj2 (proj2
           (loadMoreMessages_extends_page 1 1 "u1_u2" 0 0 store1 _ _ _ HA HB))))).
Defined.

(** ** A sent message coming back through the listener *)

Lemma In_getChatMessages (limit : nat) (chatId : string) (now : Z)
    (db : ChatStore) (m : Message.t) :
  In m (getChatMessages limit chatId now db)
  <-> exists e, In e (newestMessages limit (getMessagesCollection chatId db))
                /\ shown e = true /\ m = readBack chatId e.
Proof.
  rewrite getChatMessages_stored, <- in_rev, in_map_iff. split.
  - intros (e & <- & He). apply filter_In in He as [He Hs]. eauto.
  - intros (e & He & Hs & ->). exists e. split; [reflexivity|].
    now apply filter_In.
Qed.

Lemma newestMessages_head (limit : nat) (msgs : gmap string MessageDoc.t)
    (id : string) (d : MessageDoc.t) :
  (0 < limit)%nat -> msgs !! id = Some d ->
  (forall id' d', msgs !! id' = Some d' -> id' <> id ->
                  MessageDoc.timestamp d' < MessageDoc.timestamp d) ->
  In (id, d) (newestMessages limit msgs).
Proof.
  intros Hlimit Hd Hnewest. unfold newestMessages.
  assert (Hin : In (id, d) (Js.sort byDocTimestampDesc (map_to_list msgs)))
    by now apply sort_In, list_elem_of_In, elem_of_map_to_list.
  assert (Hs := sort_desc_docs (map_to_list msgs)).
  assert (Hall : forall e, In e (Js.sort byDocTimestampDesc (map_to_list msgs)) ->
                   msgs !! fst e = Some (snd e)).
  { intros [i x] He. now apply sort_In, list_elem_of_In, elem_of_map_to_list in He. }
  destruct (Js.sort byDocTimestampDesc (map_to_list msgs)) as [|h t];
    [destruct Hin|].
  destruct limit as [|n]; [lia|]. simpl.
  destruct Hin as [Hh|Ht]; [now left|]. left.
  apply StronglySorted_inv in Hs as [_ Hs].
  assert (Hle := proj1 (List.Forall_forall _ _) Hs _ Ht). simpl in Hle.
  assert (Hh := Hall h (or_introl eq_refl)).
  destruct (String.eqb_spec (fst h) id) as [E|E].
  - rewrite E, Hd in Hh. destruct h as [i x]. simpl in *. congruence.
  - specialize (Hnewest _ _ Hh E). lia.
Qed.

Lemma orString_same (s : string) : Js.orString (Some s) s = s.
Proof. now destruct s. Qed.

Lemma handleSendMessage_ok (stamp : string) (now : Z)
    (chatId currentUserId otherUserId : string) (st : ChatDetailScreen.State) :
  ChatDetailScreen.sendBlocked chatId currentUserId st = false ->
  ChatDetailScreen.handleSendMessage stamp now chatId currentUserId otherUserId
    (Ok tt) [] st
  = ChatDetailScreen.mkState
      (ChatDetailScreen.messages st
       ++ [Message.mk ("temp-" ++ stamp) chatId currentUserId otherUserId
             (Js.trim (ChatDetailScreen.inputText st)) now false])%list
      "" false.
Proof.
  intros Hguard. unfold ChatDetailScreen.handleSendMessage.
  now rewrite Hguard.
Qed.

Lemma sendBlocked_false (chatId currentUserId : string)
    (st : ChatDetailScreen.State) :
  ChatDetailScreen.sendBlocked chatId currentUserId st = false ->
  Js.trim (ChatDetailScreen.inputText st) <> ""
  /\ chatId <> "" /\ currentUserId <> "" /\ currentUserId <> "user1"
  /\ ChatDetailScreen.sending st = false.
Proof.
  unfold ChatDetailScreen.sendBlocked. rewrite !orb_false_iff.
  intros ((((Ht & Hc) & Hu) & Hp) & Hs).
  apply isEmpty_false in Ht, Hc, Hu. apply String.eqb_neq in Hp. tauto.
Qed.

Lemma unmatched_true (newMessages : list Message.t) (p : Message.t) :
  unmatched newMessages p = true
  <-> forall c, In c (confirmedOf newMessages) ->
                ChatDetailScreen.replaces c p = false.
Proof.
  unfold unmatched. rewrite negb_true_iff, <- not_true_iff_false, existsb_exists.
  split.
  - intros H c Hc. apply not_true_iff_false. intros E. apply H. eauto.
  - intros H (c & Hc & E). rewrite (H c Hc) in E. discriminate.
Qed.

(** X6. A send from the chat screen that commits, followed by the listener
    snapshot of the store. The message was sent into an existing chat under
    a fresh document id that is not of the form temp-..., its server
    timestamp is later than every stored one, the pending messages on
    display have distinct ids, and no stored message of the sender has the
    same text within 5 seconds of the local send time. Then the stored
    message is on display; and the optimistic copy is still on display next
    to it exactly when server time and local time of the send are 5 seconds
    or more apart. *)
Theorem optimistic_copy_replaced (messageId stamp chatId me other : string)
    (serverNow now now' : Z) (limit : nat) (st : ChatDetailScreen.State)
    (db : ChatStore) (d : ChatDoc.t) :
  let text := Js.trim (ChatDetailScreen.inputText st) in
  let sent := Message.mk messageId chatId me other text serverNow false in
  let opt := Message.mk ("temp-" ++ stamp) chatId me other text now false in
  let msgs := getMessagesCollection chatId db in
  ChatDetailScreen.sendBlocked chatId me st = false ->
  chats db !! chatId = Some d ->
  msgs !! messageId = None ->
  Js.startsWith messageId "temp-" = false ->
  (0 < limit)%nat ->
  (forall id x, msgs !! id = Some x -> MessageDoc.timestamp x < serverNow) ->
  NoDup (List.map Message.id
           (pendingOf (ChatDetailScreen.messages st ++ [opt])%list)) ->
  (forall id x, msgs !! id = Some x ->
     MessageDoc.senderId x = me -> MessageDoc.text x = text ->
     5000 <= Z.abs (MessageDoc.timestamp x - now)) ->
  let after :=
    sendFromScreen true messageId serverNow stamp now chatId me other [] st db in
  let st' :=
    ChatDetailScreen.onUiEvent (fst after)
      (ChatDetailScreen.MessagesSnapshot
         (getChatMessages limit chatId now' (snd after))) in
  In sent (ChatDetailScreen.messages st')
  /\ ChatDetailScreen.inputText st' = ""
  /\ ChatDetailScreen.sending st' = false
  /\ (In opt (ChatDetailScreen.messages st')
      <-> 5000 <= Z.abs (serverNow - now)).
Proof.
  intros text sent opt msgs Hguard Hd Hfresh Hid Hlimit Hnewest Hnd Hother
    after st'.
  destruct (sendBlocked_false _ _ _ Hguard) as (Htext & _ & Hme & _ & _).
  assert (Hafter : after
            = (ChatDetailScreen.mkState
                 (ChatDetailScreen.messages st ++ [opt])%list "" false,
               mkChatStore
                 (<[chatId := applyChatUpdate (sendUpdate d me text serverNow) d]>
                    (chats db))
                 (<[chatId := <[messageId := MessageDoc.mk chatId me other text
                                               serverNow false]> msgs]>
                    (messages db)))).
  { unfold after, sendFromScreen. rewrite Hguard.
    fold text. rewrite (sendMessage_commit _ _ _ _ _ _ _ _ Hd). simpl.
    now rewrite (handleSendMessage_ok _ _ _ _ _ _ Hguard). }
  set (doc := MessageDoc.mk chatId me other text serverNow false) in *.
  set (page := getChatMessages limit chatId now' (snd after)).
  assert (Hmsgs1 : getMessagesCollection chatId (snd after)
                   = <[messageId := doc]> msgs).
  { rewrite Hafter. simpl. rewrite getMessagesCollection_insert.
    now destruct (decide (chatId = chatId)). }
  assert (Hsent : sent = readBack chatId (messageId, doc)).
  { unfold sent, readBack, doc. cbn [fst snd MessageDoc.chatId
      MessageDoc.senderId MessageDoc.receiverId MessageDoc.text
      MessageDoc.timestamp MessageDoc.read].
    now rewrite orString_same. }
  assert (Hshown : shown (messageId, doc) = true).
  { unfold shown, doc. simpl.
    apply andb_true_iff. split; apply negb_true_iff, isEmpty_false;
      [exact Htext|exact Hme]. }
  assert (Hpage : forall c, In c page ->
            c = sent
            \/ exists id x, msgs !! id = Some x /\ c = readBack chatId (id, x)).
  { intros c Hc. apply In_getChatMessages in Hc as ([id x] & He & _ & ->).
    apply In_newestMessages in He. simpl in He. rewrite Hmsgs1 in He.
    apply lookup_insert_Some in He as [ [<- <-] | [_ He] ].
    - now left.
    - right. eauto. }
  assert (Hsent_page : In sent page).
  { apply In_getChatMessages. exists (messageId, doc).
    split; [|split; [exact Hshown|exact Hsent]].
    apply newestMessages_head; [exact Hlimit| |].
    - rewrite Hmsgs1. apply lookup_insert_eq.
    - intros id' x Hx Hne. rewrite Hmsgs1, lookup_insert_ne in Hx by congruence.
      simpl. eauto. }
  assert (Hst' : ChatDetailScreen.messages st'
                 = ChatDetailScreen.mergeMessages page
                     (ChatDetailScreen.messages st ++ [opt])%list)
    by (unfold st', page; now rewrite Hafter).
  assert (Hperm := mergeMessages_perm page _ Hnd).
  rewrite <- Hst' in Hperm.
  assert (Hin : forall x, In x (ChatDetailScreen.messages st')
                  <-> In x (confirmedOf page)
                      \/ (In x (pendingOf (ChatDetailScreen.messages st ++ [opt])%list)
                          /\ unmatched page x = true)).
  { intros x. rewrite <- filter_In, <- in_app_iff.
    split; apply Permutation_in; [exact Hperm|symmetry; exact Hperm]. }
  assert (Hopt : ChatDetailScreen.isOptimistic opt = true)
    by (unfold opt; destruct stamp; reflexivity).
  assert (Hsent_conf : In sent (confirmedOf page)).
  { apply filter_In. split; [exact Hsent_page|].
    unfold ChatDetailScreen.isOptimistic. simpl. now rewrite Hid. }
  assert (Hrep : ChatDetailScreen.replaces sent opt
                 = (Z.abs (serverNow - now) <? 5000)).
  { unfold ChatDetailScreen.replaces. simpl. now rewrite !String.eqb_refl. }
  split; [apply Hin; now left|].
  split; [unfold st'; now rewrite Hafter|].
  split; [unfold st'; now rewrite Hafter|].
  rewrite Hin. split.
  - intros [Hc|[_ Hu]].
    + apply filter_In in Hc as [_ Hc]. rewrite Hopt in Hc. discriminate.
    + rewrite unmatched_true in Hu. specialize (Hu sent Hsent_conf).
      rewrite Hrep in Hu. lia.
  - intros Hskew. right. split.
    + apply filter_In. split; [|exact Hopt]. apply in_app_iff. right. now left.
    + apply unmatched_true. intros c Hc. apply filter_In in Hc as [Hc _].
      destruct (Hpage c Hc) as [->|(id & x & Hx & ->)].
      * rewrite Hrep. lia.
      * unfold ChatDetailScreen.replaces. simpl.
        destruct (String.eqb_spec (MessageDoc.text x) text) as [Et|]; [|reflexivity].
        destruct (String.eqb_spec (MessageDoc.senderId x) me) as [Es|]; [|reflexivity].
        simpl. specialize (Hother id x Hx Es Et). lia.
Qed.

(** "hi " sent by u1 into the empty chat, stored 200 ms later. *)
Lemma optimistic_copy_replaced_witness :
  let after :=
    sendFromScreen true "m1" 200 "0-0.42" 0 "u1_u2" "u1" "u2" [] draftPadded
      store0 in
  let st' :=
    ChatDetailScreen.onUiEvent (fst after)
      (ChatDetailScreen.MessagesSnapshot
         (getChatMessages 50 "u1_u2" 300 (snd after))) in
  In (Message.mk "m1" "u1_u2" "u1" "u2"
        (Js.trim (ChatDetailScreen.inputText draftPadded)) 200 false)
    (ChatDetailScreen.messages st').
Proof.
  assert (H0 : getMessagesCollection "u1_u2" store0 = ∅)
    by (vm_compute; reflexivity).
  assert (H1 : ChatDetailScreen.sendBlocked "u1_u2" "u1" draftPadded = false)
    by (vm_compute; reflexivity).
  assert (H2 : chats store0 !! "u1_u2"
               = Some (ChatDoc.mk (Some "u1") (Some "u2") (Some "") (Some 0)
                         (Some 0) (Some 0)))
    by (vm_compute; reflexivity).
  assert (H3 : getMessagesCollection "u1_u2" store0 !! "m1" = None)
    by (vm_compute; reflexivity).
  assert (H4 : Js.startsWith "m1" "temp-" = false) by reflexivity.
  assert (H5 : (0 < 50)%nat) by lia.
  assert (H6 : forall id x, getMessagesCollection "u1_u2" store0 !! id = Some x ->
                 MessageDoc.timestamp x < 200)
    by (intros id x; rewrite H0, lookup_empty; discriminate).
  assert (H7 : NoDup (List.map Message.id
                        (pendingOf
                           (ChatDetailScreen.messages draftPadded
                            ++ [Message.mk ("temp-" ++ "0-0.42") "u1_u2" "u1" "u2"
                                  (Js.trim (ChatDetailScreen.inputText draftPadded))
                                  0 false])%list)))
    by (vm_compute; apply NoDup_singleton).
  assert (H8 : forall id x, getMessagesCollection "u1_u2" store0 !! id = Some x ->
                 MessageDoc.senderId x = "u1" ->
                 MessageDoc.text x
                 = Js.trim (ChatDetailScreen.inputText draftPadded) ->
                 5000 <= Z.abs (MessageDoc.timestamp x - 0))
    by (intros id x; rewrite H0, lookup_empty; discriminate).
  exact (proj1 (optimistic_copy_replaced "m1" "0-0.42" "u1_u2" "u1" "u2" 200 0 300
                  50 draftPadded store0 _ H1 H2 H3 H4 H5 H6 H7 H8)).
Defined.

(** ** What a send from the screen writes *)

Lemma trimEnd_idem (s : string) : Js.trimEnd (Js.trimEnd s) = Js.trimEnd s.
Proof.
  induction s as [|c s IH]; simpl; [reflexivity|].
  destruct (Js.trimEnd s) as [|a t] eqn:E.
  - destruct (Js.isWhiteSpace c) eqn:Ec; simpl; [reflexivity|].
    now rewrite Ec.
  - change (Js.trimEnd (String c (String a t)))
      with (match Js.trimEnd (String a t) with
            | EmptyString =>
                if Js.isWhiteSpace c then EmptyString else String c EmptyString
            | String x y => String c (String x y)
            end).
    now rewrite IH.
Qed.

Lemma trimStart_head (s : string) :
  match Js.trimStart s with
  | EmptyString => True
  | String c _ => Js.isWhiteSpace c = false
  end.
Proof.
  induction s as [|c s IH]; simpl; [exact I|].
  destruct (Js.isWhiteSpace c) eqn:Ec; [exact IH|exact Ec].
Qed.

Lemma trimStart_trimEnd (s : string) :
  match s with
  | EmptyString => True
  | String c _ => Js.isWhiteSpace c = false
  end ->
  Js.trimStart (Js.trimEnd s) = Js.trimEnd s.
Proof.
  destruct s as [|c s]; simpl; [reflexivity|]. intros Hc.
  destruct (Js.trimEnd s); rewrite ?Hc; simpl; now rewrite Hc.
Qed.

Lemma trim_idem (s : string) : Js.trim (Js.trim s) = Js.trim s.
Proof.
  unfold Js.trim.
  rewrite (trimStart_trimEnd (Js.trimStart s) (trimStart_head s)).
  apply trimEnd_idem.
Qed.

(** X7. What [handleSendMessage] can do to the store through [sendMessage],
    whatever arrives on the screen meanwhile. Either nothing at all is
    written, or exactly this: the input was not blank, the profile is
    neither empty nor the placeholder user1, no other send was in flight,
    the chat exists, and the one message added is from the profile to the
    other participant, unread, with the input stripped of leading and
    trailing white space as text (a text that is not empty and that
    stripping leaves unchanged), and that text is the last message of the
    chat. A blocked send changes neither screen nor store, and after any
    other send the sending flag is off. *)
Theorem sendFromScreen_writes (commits : bool) (messageId stamp : string)
    (serverNow now : Z) (chatId me other : string)
    (during : list ChatDetailScreen.UiEvent) (st : ChatDetailScreen.State)
    (db : ChatStore) :
  let text := Js.trim (ChatDetailScreen.inputText st) in
  let after :=
    sendFromScreen commits messageId serverNow stamp now chatId me other during
      st db in
  (snd after = db
   \/ (text <> "" /\ Js.trim text = text /\ chatId <> "" /\ me <> ""
       /\ me <> "user1" /\ ChatDetailScreen.sending st = false
       /\ exists d d',
            chats db !! chatId = Some d
            /\ getMessagesCollection chatId (snd after)
               = <[messageId := MessageDoc.mk chatId me other text serverNow
                                  false]> (getMessagesCollection chatId db)
            /\ chats (snd after) !! chatId = Some d'
            /\ ChatDoc.lastMessage d' = Some text
            /\ ChatDoc.lastMessageTime d' = Some serverNow))
  /\ (ChatDetailScreen.sendBlocked chatId me st = true -> after = (st, db))
  /\ (ChatDetailScreen.sendBlocked chatId me st = false ->
      ChatDetailScreen.sending (fst after) = false).
Proof.
  intros text after. unfold after, sendFromScreen.
  destruct (ChatDetailScreen.sendBlocked chatId me st) eqn:Hguard.
  - split; [now left|]. split; [reflexivity|discriminate].
  - destruct (sendBlocked_false _ _ _ Hguard) as (Ht & Hc & Hme & Hu & Hs).
    fold text. simpl. split; [|split; [discriminate|]].
    + destruct commits;
        [|left; unfold sendMessage; now rewrite runTransaction_false].
      destruct (chats db !! chatId) as [d|] eqn:Hd;
        [|left; now rewrite (sendMessage_missing _ _ _ _ _ _ _ _ Hd)].
      right. rewrite (sendMessage_commit _ _ _ _ _ _ _ _ Hd). simpl.
      repeat (split; [first [assumption | apply trim_idem]|]).
      exists d, (applyChatUpdate (sendUpdate d me text serverNow) d).
      split; [reflexivity|]. split.
      { rewrite getMessagesCollection_insert.
        now destruct (decide (chatId = chatId)). }
      split; [apply lookup_insert_eq|].
      unfold sendUpdate. now destruct (Js.fieldIs _ _).
    + intros _. unfold ChatDetailScreen.handleSendMessage. rewrite Hguard.
      simpl.
      now destruct (fst (sendMessage commits messageId serverNow chatId me
                           other text db)).
Qed.

(** ** Likes *)

Lemma whereEq_insert_other {A} (field : A -> option string) (v k : string)
    (x : A) (coll : gmap string A) :
  coll !! k = None -> field x <> Some v ->
  whereEq field v (<[k := x]> coll) = whereEq field v coll.
Proof.
  intros Hk Hx. unfold whereEq. f_equal.
  apply map_filter_insert_not'; [exact Hx|].
  intros y Hy. rewrite Hk in Hy. discriminate.
Qed.

(** X8. Likes answer each other. Once a like by profile O on a pet recorded
    as owned by profile U is stored (under the fresh id the store
    generates), the mutual-like check run for a like by U on a pet of O
    reports a match, whichever pets are involved. Storing a like never
    turns a reported match into no match, and leaves every check against
    the likes of another profile as it was. *)
Theorem saveLike_then_checkMutualLike (docId : string) (now : Z)
    (O P U : string) (likesCollection : gmap string LikeDoc.t) :
  likesCollection !! docId = None ->
  let after := snd (saveLike true docId now O P U likesCollection) in
  (forall animals,
     isMatch (checkMutualLike true U O animals after) = true)
  /\ (forall L X animals,
        isMatch (checkMutualLike true L X animals likesCollection) = true ->
        isMatch (checkMutualLike true L X animals after) = true)
  /\ (forall L X animals, X <> O ->
        checkMutualLike true L X animals after
        = checkMutualLike true L X animals likesCollection).
Proof.
  intros Hfresh after. unfold after, saveLike, checkMutualLike. simpl.
  split; [|split].
  - intros animals. apply scanOwnerLikes_isMatch.
    exists (docId, LikeDoc.mk O P U now). split; [|now left].
    apply whereEq_In. split; [apply lookup_insert_eq|reflexivity].
  - intros L X animals. rewrite !scanOwnerLikes_isMatch.
    intros ([id e] & He & Ht). exists (id, e). split; [|exact Ht].
    apply whereEq_In in He as [He Hf]. apply whereEq_In. split; [|exact Hf].
    rewrite lookup_insert_ne; [exact He|]. intros <-. congruence.
  - intros L X animals HX.
    rewrite whereEq_insert_other; [reflexivity|exact Hfresh|].
    simpl. congruence.
Qed.

Lemma scanOwnerLikes_matched (likerUserId : string)
    (userAnimalIds : list string) (ownerLikes : list (string * LikeDoc.t)) :
  match matchedAnimalId (scanOwnerLikes likerUserId userAnimalIds ownerLikes) with
  | Some a =>
      isMatch (scanOwnerLikes likerUserId userAnimalIds ownerLikes) = true
      /\ exists e, In e ownerLikes /\ LikeDoc.likedAnimalId (snd e) = a
           /\ (LikeDoc.ownerId (snd e) = likerUserId
               \/ In (LikeDoc.likedAnimalId (snd e)) userAnimalIds)
  | None =>
      isMatch (scanOwnerLikes likerUserId userAnimalIds ownerLikes) = false
  end.
Proof.
  induction ownerLikes as [|e l IH]; simpl; [reflexivity|].
  destruct (String.eqb_spec (LikeDoc.ownerId (snd e)) likerUserId) as [E|E];
    simpl.
  - split; [reflexivity|]. exists e. split; [now left|]. split; [reflexivity|now left].
  - destruct (Js.includes userAnimalIds (LikeDoc.likedAnimalId (snd e))) eqn:Ei;
      simpl.
    + split; [reflexivity|]. exists e. split; [now left|]. split; [reflexivity|].
      right. now apply includes_In.
    + destruct (matchedAnimalId (scanOwnerLikes likerUserId userAnimalIds l));
        [|exact IH].
      destruct IH as (Hm & e' & He' & Ha & Ht). split; [exact Hm|].
      exists e'. split; [now right|]. now split.
Qed.

(** X9. The pet named by a reported match. Whenever [checkMutualLike] names
    a matched animal, it reports a match, and that animal is the liked pet
    of a stored like by the owner that targets the liker (it names the
    liker as owner, or the pet is one of the liker's animals). When it names
    none, it reports no match; and it names none when the likes cannot be
    fetched. *)
Theorem checkMutualLike_matched_animal (fetches : bool)
    (likerUserId ownerId : string) (userAnimals : list Animal)
    (likesCollection : gmap string LikeDoc.t) :
  let found :=
    checkMutualLike fetches likerUserId ownerId userAnimals likesCollection in
  match matchedAnimalId found with
  | Some a =>
      isMatch found = true /\ fetches = true
      /\ exists id edge,
           likesCollection !! id = Some edge
           /\ LikeDoc.likerUserId edge = ownerId
           /\ LikeDoc.likedAnimalId edge = a
           /\ targetsPetOf likerUserId userAnimals edge
  | None => isMatch found = false
  end.
Proof.
  intros found. unfold found, checkMutualLike.
  destruct fetches; [|reflexivity].
  assert (H := scanOwnerLikes_matched likerUserId
                 (List.map animal_id userAnimals)
                 (whereEq (fun d => Some (LikeDoc.likerUserId d)) ownerId
                    likesCollection)).
  destruct (matchedAnimalId _); [|exact H].
  destruct H as (Hm & [id e] & He & Ha & Ht).
  split; [exact Hm|]. split; [reflexivity|].
  apply whereEq_In in He as [He Hf]. exists id, e.
  repeat split; try assumption. simpl in Hf. congruence.
Qed.

(** ** Listing matches *)

Lemma sort_desc_matches (l : list Match.t) :
  StronglySorted (fun x y => Match.timestamp y <= Match.timestamp x)
    (Js.sort byTimestampDesc l).
Proof.
  assert (Hs := sort_sorted byTimestampDesc
                  ltac:(unfold byTimestampDesc; intros; lia) l).
  apply Sorted_StronglySorted in Hs.
  - eapply StronglySorted_weaken; [|exact Hs].
    unfold inOrder, byTimestampDesc. intros a b. lia.
  - unfold inOrder, byTimestampDesc. intros a b c. lia.
Qed.

Lemma toMatch_ids (now : Z) (l : list (string * MatchDoc.t)) :
  List.map Match.id (List.map (fun d => toMatch now (fst d) (snd d)) l)
  = List.map fst l.
Proof. rewrite List.map_map. now apply List.map_ext. Qed.

(** X10. The one-shot listing [getUserMatches]: when both queries can be
    fetched it returns, newest first, exactly the stored matches in which
    the profile is userId1 or userId2, each converted from its document; it
    has as many entries as the two query results together, so a match id is
    listed twice exactly when a stored match names the profile in both
    roles. When a query fails the call rejects. *)
Theorem getUserMatches_listing (now : Z) (userId : string)
    (matchesCollection : gmap string MatchDoc.t) :
  (exists listed,
     getUserMatches true now userId matchesCollection = Ok listed
     /\ StronglySorted (fun x y => Match.timestamp y <= Match.timestamp x) listed
     /\ (forall m, In m listed
           <-> exists id d,
                 matchesCollection !! id = Some d
                 /\ (MatchDoc.userId1 d = Some userId
                     \/ MatchDoc.userId2 d = Some userId)
                 /\ m = toMatch now id d)
     /\ length listed
        = (length (whereEq MatchDoc.userId1 userId matchesCollection)
           + length (whereEq MatchDoc.userId2 userId matchesCollection))%nat
     /\ (NoDup (List.map Match.id listed)
         <-> forall id d, matchesCollection !! id = Some d ->
               ~ (MatchDoc.userId1 d = Some userId
                  /\ MatchDoc.userId2 d = Some userId)))
  /\ exists e, getUserMatches false now userId matchesCollection = Error e.
Proof.
  split; [|eexists; reflexivity].
  eexists. split; [reflexivity|].
  split; [apply sort_desc_matches|]. split; [|split].
  - intros m. rewrite sort_In, in_app_iff, !in_map_iff. split.
    + intros [([id d] & <- & Hin)|([id d] & <- & Hin)];
        apply whereEq_In in Hin as [Hd Hf]; exists id, d; simpl; auto.
    + intros (id & d & Hd & [Hf|Hf] & ->); [left|right];
        exists (id, d); (split; [reflexivity|]); now apply whereEq_In.
  - now rewrite sort_length, List.length_app, !List.length_map.
  - rewrite (Permutation_map Match.id (sort_perm byTimestampDesc _)).
    rewrite List.map_app, !toMatch_ids, NoDup_app. split.
    + intros (_ & Hdisj & _) id d Hd [H1 H2].
      apply (Hdisj id); apply list_elem_of_In, In_map_fst_whereEq; eauto.
    + intros Hno. split; [apply whereEq_NoDup|]. split; [|apply whereEq_NoDup].
      intros id H1 H2.
      apply list_elem_of_In, In_map_fst_whereEq in H1 as (d & Hd & H1).
      apply list_elem_of_In, In_map_fst_whereEq in H2 as (d' & Hd' & H2).
      rewrite Hd in Hd'. injection Hd' as <-. exact (Hno id d Hd (conj H1 H2)).
Qed.

(** ** The first snapshots of the match listeners *)

Lemma setDocs_get_In (now : Z) (k : string) (d : MatchDoc.t)
    (l : list (string * MatchDoc.t)) :
  forall m, NoDup (List.map fst l) -> In (k, d) l ->
    JsMap.get k (fold_left (setDoc now) l m) = Some (toMatch now k d).
Proof.
  induction l as [|e l IH]; intros m Hnd Hin; simpl; [destruct Hin|].
  simpl in Hnd. apply NoDup_cons in Hnd as [Hnotin Hnd].
  destruct Hin as [->|Hin]; [|now apply IH].
  rewrite setDocs_untouched by (now rewrite <- list_elem_of_In).
  unfold setDoc. simpl. now rewrite get_set, String.eqb_refl.
Qed.

Lemma first_load_listed (userId : string) (now : Z)
    (ds : list (string * MatchDoc.t)) (ch : list DocumentChange) (q : string)
    (m : JsMap.t Match.t) (k : string) (d : MatchDoc.t) :
  wf m -> NoDup (List.map fst ds) -> In (k, d) ds ->
  JsMap.get k (handleSnapshot userId now (mkQuerySnapshot ds ch) true q m)
  = Some (toMatch now k d).
Proof.
  intros Hm Hnd Hin. unfold handleSnapshot. simpl. fold (setDoc now).
  rewrite get_deleteWhere by now apply wf_setDocs.
  rewrite (setDocs_get_In now k d ds m Hnd Hin).
  rewrite noLongerInQuery_listed; [reflexivity|].
  apply in_map_iff. now exists (k, d).
Qed.

Lemma first_load_unlisted (userId : string) (now : Z)
    (ds : list (string * MatchDoc.t)) (ch : list DocumentChange) (q : string)
    (m : JsMap.t Match.t) (k : string) :
  wf m -> ~ In k (List.map fst ds) ->
  JsMap.get k (handleSnapshot userId now (mkQuerySnapshot ds ch) true q m)
  = match JsMap.get k m with
    | Some v =>
        if noLongerInQuery userId q (List.map fst ds) k v then None else Some v
    | None => None
    end.
Proof.
  intros Hm Hnin. unfold handleSnapshot. simpl. fold (setDoc now).
  rewrite get_deleteWhere by now apply wf_setDocs.
  now rewrite setDocs_untouched.
Qed.

Lemma orEmpty_eq (x : option string) (u : string) :
  u <> "" -> Js.orEmpty x = u -> x = Some u.
Proof. destruct x as [[|c s]|]; simpl; congruence. Qed.

Lemma role1_kept (userId : string) (now : Z)
    (coll : gmap string MatchDoc.t) (k : string) (d : MatchDoc.t) :
  userId <> "" -> coll !! k = Some d ->
  ~ In k (List.map fst (whereEq MatchDoc.userId1 userId coll)) ->
  noLongerInQuery userId "userId1"
    (List.map fst (whereEq MatchDoc.userId1 userId coll)) k (toMatch now k d)
  = false.
Proof.
  intros Hu Hd Hnin. unfold noLongerInQuery. simpl.
  destruct (String.eqb_spec (Js.orEmpty (MatchDoc.userId1 d)) userId) as [E|E];
    [|reflexivity].
  exfalso. apply Hnin, In_map_fst_whereEq. exists d. split; [exact Hd|].
  now apply orEmpty_eq.
Qed.

Lemma role2_kept (userId : string) (now : Z)
    (coll : gmap string MatchDoc.t) (k : string) (d : MatchDoc.t) :
  userId <> "" -> coll !! k = Some d ->
  ~ In k (List.map fst (whereEq MatchDoc.userId2 userId coll)) ->
  noLongerInQuery userId "userId2"
    (List.map fst (whereEq MatchDoc.userId2 userId coll)) k (toMatch now k d)
  = false.
Proof.
  intros Hu Hd Hnin. unfold noLongerInQuery. simpl.
  destruct (String.eqb_spec (Js.orEmpty (MatchDoc.userId2 d)) userId) as [E|E];
    [|reflexivity].
  exfalso. apply Hnin, In_map_fst_whereEq. exists d. split; [exact Hd|].
  now apply orEmpty_eq.
Qed.

(** Two first loads in a row, for the queries on the fields [fa] and then
    [fb], starting from the empty map. *)
Lemma two_first_loads (userId : string) (nowA nowB : Z)
    (coll : gmap string MatchDoc.t)
    (fa fb : MatchDoc.t -> option string) (qa qb : string)
    (chA chB : list DocumentChange) :
  (forall now k d, coll !! k = Some d ->
     ~ In k (List.map fst (whereEq fb userId coll)) ->
     noLongerInQuery userId qb (List.map fst (whereEq fb userId coll)) k
       (toMatch now k d) = false) ->
  let loaded :=
    handleSnapshot userId nowB (mkQuerySnapshot (whereEq fb userId coll) chB)
      true qb
      (handleSnapshot userId nowA (mkQuerySnapshot (whereEq fa userId coll) chA)
         true qa JsMap.empty) in
  wf loaded
  /\ (forall k v, JsMap.get k loaded = Some v ->
        exists d, coll !! k = Some d
                  /\ (fa d = Some userId \/ fb d = Some userId)
                  /\ (v = toMatch nowA k d \/ v = toMatch nowB k d))
  /\ (forall k d, coll !! k = Some d ->
        fa d = Some userId \/ fb d = Some userId ->
        exists v, JsMap.get k loaded = Some v).
Proof.
  intros Hkeep loaded.
  set (first := handleSnapshot userId nowA
                  (mkQuerySnapshot (whereEq fa userId coll) chA) true qa
                  JsMap.empty) in *.
  assert (Hwf1 : wf first) by apply wf_handleSnapshot, wf_empty.
  assert (HA : forall k d, In (k, d) (whereEq fa userId coll) ->
                 JsMap.get k first = Some (toMatch nowA k d)).
  { intros k d Hin. apply first_load_listed;
      [apply wf_empty|apply whereEq_NoDup|exact Hin]. }
  assert (HA' : forall k, ~ In k (List.map fst (whereEq fa userId coll)) ->
                  JsMap.get k first = None).
  { intros k Hnin. unfold first.
    now rewrite first_load_unlisted by (try apply wf_empty; exact Hnin). }
  assert (HB : forall k d, In (k, d) (whereEq fb userId coll) ->
                 JsMap.get k loaded = Some (toMatch nowB k d)).
  { intros k d Hin. apply first_load_listed;
      [exact Hwf1|apply whereEq_NoDup|exact Hin]. }
  assert (HB' : forall k, ~ In k (List.map fst (whereEq fb userId coll)) ->
                  forall d, In (k, d) (whereEq fa userId coll) ->
                  JsMap.get k loaded = Some (toMatch nowA k d)).
  { intros k Hnin d Hin. unfold loaded.
    rewrite first_load_unlisted by assumption.
    rewrite (HA k d Hin). rewrite Hkeep; [reflexivity| |exact Hnin].
    now apply whereEq_In in Hin as [Hd _]. }
  assert (Hnone : forall k, ~ In k (List.map fst (whereEq fb userId coll)) ->
                    ~ In k (List.map fst (whereEq fa userId coll)) ->
                    JsMap.get k loaded = None).
  { intros k HnB HnA. unfold loaded.
    rewrite first_load_unlisted by assumption. now rewrite (HA' k HnA). }
  split; [now apply wf_handleSnapshot|]. split.
  - intros k v Hv.
    destruct (in_dec string_dec k (List.map fst (whereEq fb userId coll)))
      as [HinB|HnB].
    + apply in_map_iff in HinB as ([k' d] & <- & Hin). simpl in *.
      rewrite (HB k' d Hin) in Hv. injection Hv as <-.
      apply whereEq_In in Hin as [Hd Hf]. exists d. auto.
    + destruct (in_dec string_dec k (List.map fst (whereEq fa userId coll)))
        as [HinA|HnA].
      * apply in_map_iff in HinA as ([k' d] & <- & Hin). simpl in *.
        rewrite (HB' k' HnB d Hin) in Hv. injection Hv as <-.
        apply whereEq_In in Hin as [Hd Hf]. exists d. auto.
      * rewrite (Hnone k HnB HnA) in Hv. discriminate.
  - intros k d Hd Hrole.
    destruct (in_dec string_dec k (List.map fst (whereEq fb userId coll)))
      as [HinB|HnB].
    + apply in_map_iff in HinB as ([k' d'] & <- & Hin). simpl in *.
      rewrite (HB k' d' Hin). eauto.
    + destruct Hrole as [Hf|Hf].
      * assert (Hin : In (k, d) (whereEq fa userId coll))
          by now apply whereEq_In.
        rewrite (HB' k HnB d Hin). eauto.
      * exfalso. apply HnB, In_map_fst_whereEq. eauto.
Qed.

(** X11. The first two snapshots of [getUserMatchesRealtime]. For a
    non-empty profile id, once each of the two listeners has delivered its
    first snapshot of the stored matches, in either order, the list handed
    to the callback is newest first, lists no match id twice, lists exactly
    the stored matches in which the profile is userId1 or userId2, and
    every entry is the conversion of its stored document. *)
Theorem matches_initial_load (userId : string) (clock : nat -> Z)
    (matchesCollection : gmap string MatchDoc.t)
    (changes1 changes2 : list DocumentChange) (stream : list MatchesEvent) :
  let s1 :=
    mkQuerySnapshot (whereEq MatchDoc.userId1 userId matchesCollection)
      changes1 in
  let s2 :=
    mkQuerySnapshot (whereEq MatchDoc.userId2 userId matchesCollection)
      changes2 in
  userId <> "" ->
  stream = [Snapshot1 s1; Snapshot2 s2] \/ stream = [Snapshot2 s2; Snapshot1 s1] ->
  let delivered :=
    processMatches
      (matchesMap (runMatchesRealtime userId clock 0 stream matchesRealtimeInit)) in
  StronglySorted (fun x y => Match.timestamp y <= Match.timestamp x) delivered
  /\ NoDup (List.map Match.id delivered)
  /\ (forall id,
        In id (List.map Match.id delivered)
        <-> exists d, matchesCollection !! id = Some d
              /\ (MatchDoc.userId1 d = Some userId
                  \/ MatchDoc.userId2 d = Some userId))
  /\ (forall m, In m delivered ->
        exists d, matchesCollection !! Match.id m = Some d
          /\ (m = toMatch (clock 0%nat) (Match.id m) d
              \/ m = toMatch (clock 1%nat) (Match.id m) d)).
Proof.
  intros s1 s2 Hu Hstream delivered.
  set (loaded := matchesMap
                   (runMatchesRealtime userId clock 0 stream matchesRealtimeInit))
    in *.
  assert (H : wf loaded
              /\ (forall k v, JsMap.get k loaded = Some v ->
                    exists d, matchesCollection !! k = Some d
                      /\ (MatchDoc.userId1 d = Some userId
                          \/ MatchDoc.userId2 d = Some userId)
                      /\ (v = toMatch (clock 0%nat) k d
                          \/ v = toMatch (clock 1%nat) k d))
              /\ (forall k d, matchesCollection !! k = Some d ->
                    MatchDoc.userId1 d = Some userId
                    \/ MatchDoc.userId2 d = Some userId ->
                    exists v, JsMap.get k loaded = Some v)).
  { destruct Hstream as [-> | ->].
    - apply (two_first_loads userId (clock 0%nat) (clock 1%nat) matchesCollection
               MatchDoc.userId1 MatchDoc.userId2 "userId1" "userId2").
      intros now k d. now apply role2_kept.
    - destruct (two_first_loads userId (clock 0%nat) (clock 1%nat)
                  matchesCollection MatchDoc.userId2 MatchDoc.userId1
                  "userId2" "userId1" changes2 changes1)
        as (Hwf & Hsome & Hall).
      { intros now k d. now apply role1_kept. }
      split; [exact Hwf|]. split.
      + intros k v Hv. destruct (Hsome k v Hv) as (d & Hd & Hr & Hv').
        exists d. tauto.
      + intros k d Hd Hr. apply (Hall k d Hd). tauto. }
  destruct H as (Hwf & Hsome & Hall).
  assert (Hid : forall k v, In (k, v) loaded -> Match.id v = k).
  { intros k v Hin. apply get_Some_In in Hin; [|exact Hwf].
    destruct (Hsome k v Hin) as (d & _ & _ & [-> | ->]); reflexivity. }
  assert (Hids : List.map Match.id (JsMap.values loaded) = JsMap.keys loaded).
  { unfold JsMap.values, JsMap.keys. rewrite List.map_map.
    apply List.map_ext_in. intros [k v] Hin. simpl. now apply Hid. }
  assert (Hperm : Permutation (List.map Match.id delivered) (JsMap.keys loaded)).
  { unfold delivered, processMatches.
    now rewrite (Permutation_map Match.id (sort_perm byTimestampDesc _)), Hids. }
  split; [apply sort_desc_matches|]. split; [now rewrite Hperm|]. split.
  - intros id. rewrite Hperm. split.
    + intros Hin. destruct (JsMap.get id loaded) as [v|] eqn:Hv.
      * destruct (Hsome id v Hv) as (d & Hd & Hr & _). eauto.
      * apply get_None_keys in Hv. contradiction.
    + intros (d & Hd & Hr). destruct (Hall id d Hd Hr) as (v & Hv).
      destruct (in_dec string_dec id (JsMap.keys loaded)) as [Hin|Hnin];
        [exact Hin|].
      apply get_None_keys in Hnin. congruence.
  - intros m Hm. unfold delivered, processMatches in Hm.
    apply sort_In in Hm. unfold JsMap.values in Hm.
    apply in_map_iff in Hm as ([k v] & <- & Hin). simpl.
    rewrite (Hid k v Hin). apply get_Some_In in Hin; [|exact Hwf].
    destruct (Hsome k v Hin) as (d & Hd & _ & Hv). eauto.
Qed.

(** ** What the match listeners deliver *)

Lemma In_delete {V} (k k' : string) (v : V) (m : JsMap.t V) :
  In (k, v) (JsMap.delete k' m) -> In (k, v) m.
Proof.
  induction m as [|[k0 v0] m IH]; simpl; [tauto|].
  destruct (String.eqb k' k0); simpl; tauto.
Qed.

Lemma keyed_set (now : Z) (k : string) (d : MatchDoc.t) (m : JsMap.t Match.t) :
  keyed m -> keyed (JsMap.set k (toMatch now k d) m).
Proof.
  intros Hm k' v Hin. apply In_set in Hin as [[= -> ->]|Hin];
    [reflexivity|now apply Hm].
Qed.

Lemma keyed_handleSnapshot (userId : string) (now : Z) (s : QuerySnapshot)
    (first : bool) (q : string) (m : JsMap.t Match.t) :
  keyed m -> keyed (handleSnapshot userId now s first q m).
Proof.
  intros Hm. unfold handleSnapshot. destruct first.
  - intros k v Hin. apply filter_In in Hin as [Hin _]. revert k v Hin.
    fold (keyed (fold_left
                   (fun m d => JsMap.set (fst d) (toMatch now (fst d) (snd d)) m)
                   (docs s) m)).
    generalize dependent m.
    induction (docs s) as [|d l IH]; intros m Hm; simpl; [exact Hm|].
    apply IH. now apply keyed_set.
  - generalize dependent m.
    induction (docChanges s) as [|c l IH]; intros m Hm; simpl; [exact Hm|].
    apply IH. destruct (change_type c); try now apply keyed_set.
    intros k v Hin. apply In_delete in Hin. now apply Hm.
Qed.

Lemma keyed_replay (userId : string) (clock : nat -> Z)
    (events : list SnapshotEvent) :
  forall start m, keyed m -> keyed (replay userId clock start events m).
Proof.
  induction events as [|ev events IH]; intros start m Hm; simpl; [exact Hm|].
  apply IH. now apply keyed_handleSnapshot.
Qed.

Lemma processMatches_ids (m : JsMap.t Match.t) :
  wf m -> keyed m -> NoDup (List.map Match.id (processMatches m)).
Proof.
  intros Hwf Hk. unfold processMatches.
  rewrite (Permutation_map Match.id (sort_perm byTimestampDesc _)).
  replace (List.map Match.id (JsMap.values m)) with (JsMap.keys m); [exact Hwf|].
  unfold JsMap.values, JsMap.keys. rewrite List.map_map.
  apply List.map_ext_in. intros [k v] Hin. simpl. symmetry. now apply Hk.
Qed.

(** X12. Whatever the two listeners of [getUserMatchesRealtime] have
    received so far, snapshots and errors in any order, every list the next
    event hands to the callback is newest first and names no match id
    twice. A listener error hands over the empty list and forgets nothing:
    the matches kept and the first-load flags stay as they were. *)
Theorem matches_delivery_invariant (userId : string) (clock : nat -> Z)
    (now : Z) (stream : list MatchesEvent) (ev : MatchesEvent) :
  let st := runMatchesRealtime userId clock 0 stream matchesRealtimeInit in
  let delivered := snd (onMatchesEvent userId now ev st) in
  StronglySorted (fun x y => Match.timestamp y <= Match.timestamp x) delivered
  /\ NoDup (List.map Match.id delivered)
  /\ (ev = ListenError1 \/ ev = ListenError2 ->
      onMatchesEvent userId now ev st = (st, [])).
Proof.
  intros st delivered.
  assert (Hwf : wf (matchesMap st)).
  { unfold st. rewrite runMatchesRealtime_calls. apply wf_replay, wf_empty. }
  assert (Hk : keyed (matchesMap st)).
  { unfold st. rewrite runMatchesRealtime_calls. apply keyed_replay.
    intros k v []. }
  split; [|split].
  - unfold delivered. destruct ev; simpl;
      try apply sort_desc_matches; constructor.
  - unfold delivered. destruct ev; simpl; try apply NoDup_nil_2;
      apply processMatches_ids;
      auto using wf_handleSnapshot, keyed_handleSnapshot.
  - intros [-> | ->]; reflexivity.
Qed.

Lemma find_app {A} (p : A -> bool) (l1 l2 : list A) :
  List.find p (l1 ++ l2)
  = match List.find p l1 with
    | Some x => Some x
    | None => List.find p l2
    end.
Proof.
  induction l1 as [|x l1 IH]; simpl; [reflexivity|].
  now destruct (p x).
Qed.

(** X13. A later snapshot of a match listener is applied as a diff in which
    the last change listed for a document wins: a document whose last
    change is a removal is dropped from the map, one whose last change is
    an addition or modification is stored as the conversion of the changed
    document, and every document that the changes do not mention stays as
    it was. The documents of the snapshot other than its changes, and the
    role of the query, play no part. *)
Theorem matches_changes_applied (userId : string) (now : Z)
    (s : QuerySnapshot) (q : string) (m : JsMap.t Match.t) (k : string) :
  JsMap.get k (handleSnapshot userId now s false q m)
  = match lastChange k (docChanges s) with
    | Some c =>
        match change_type c with
        | removed => None
        | _ => Some (toMatch now k (change_data c))
        end
    | None => JsMap.get k m
    end.
Proof.
  unfold handleSnapshot. fold (applyChange now).
  generalize dependent m.
  induction (docChanges s) as [|c l IH]; intros m; simpl; [reflexivity|].
  rewrite IH. unfold lastChange. simpl. rewrite find_app.
  destruct (List.find _ (rev l)) as [c'|]; [reflexivity|]. simpl.
  unfold applyChange.
  destruct (String.eqb_spec (change_id c) k) as [<-|Hne].
  - destruct (change_type c);
      rewrite ?get_set, ?get_delete, String.eqb_refl; reflexivity.
  - assert (String.eqb k (change_id c) = false) as E
      by (apply String.eqb_neq; congruence).
    destruct (change_type c); rewrite ?get_set, ?get_delete, E; reflexivity.
Qed.

(** ** Notifications for incoming messages *)





Lemma NoDup_map_filter {A B} (f : A -> B) (p : A -> bool) (l : list A) :
  NoDup (List.map f l) -> NoDup (List.map f (List.filter p l)).
Proof.
  induction l as [|x l IH]; simpl; [trivial|].
  intros Hnd. apply NoDup_cons in Hnd as [Hnotin Hnd].
  destruct (p x); simpl; [|now apply IH].
  apply NoDup_cons. split; [|now apply IH].
  rewrite list_elem_of_In in *. rewrite in_map_iff in *.
  intros (y & E & Hy). apply Hnotin. exists y. split; [exact E|].
  now apply filter_In in Hy as [Hy _].
Qed.






(** ** Opening the chat of a match *)

Lemma handleMatchPress_run (reads writes : bool) (now : Z) (me : string)
    (otherUser : option User) (m : Match.t) (dbRead db : ChatStore) :
  me <> "user1" ->
  let other :=
    if String.eqb (Match.userId1 m) me then Match.userId2 m
    else Match.userId1 m in
  forall chat db',
    createOrGetChat reads writes now me other dbRead db = (Ok chat, db') ->
    exists r,
      handleMatchPress reads writes now me false (Ok otherUser) m dbRead db
      = (Some r, db')
      /\ route_chatId r = Chat.id chat
      /\ route_otherUserId r = other.
Proof.
  intros Hme other chat db' Hrun. unfold handleMatchPress.
  assert (String.eqb me "user1" = false) as -> by now apply String.eqb_neq.
  simpl. fold other. rewrite Hrun.
  eexists. split; [reflexivity|]. now split.
Qed.

(** X15. Both profiles of a match reach the same chat. A profile other
    than the placeholder user1 presses a match between two distinct
    profiles; [getUser] and the two requests of [createOrGetChat] succeed,
    and a chat document that the read saw is still stored. Then the chat
    screen is opened on the other profile of the match and on the thread id
    of the pair, and the chat exists afterwards, so that a message sent
    into it is not rejected for a missing chat. When the other profile then
    presses the same match and its read sees the store as it is now, it is
    sent to the same thread id and the store is left as it is. When
    [getUser] rejects, or a request of [createOrGetChat] fails, nothing is
    opened and nothing is written; the same holds for user1 and while a
    press is being handled. *)
Theorem handleMatchPress_shared_chat (now now' : Z) (me other : string)
    (otherUser otherUser' : option User) (m : Match.t)
    (dbRead db : ChatStore) :
  let cid := getChatId me other in
  me <> "user1" -> other <> "user1" -> me <> other ->
  (Match.userId1 m = me /\ Match.userId2 m = other)
  \/ (Match.userId1 m = other /\ Match.userId2 m = me) ->
  (forall d, chats dbRead !! cid = Some d -> is_Some (chats db !! cid)) ->
  let mine :=
    handleMatchPress true true now me false (Ok otherUser) m dbRead db in
  (exists r,
     fst mine = Some r
     /\ route_otherUserId r = other
     /\ route_chatId r = cid
     /\ (exists d, chats (snd mine) !! cid = Some d)
     /\ (forall messageId t text,
           fst (sendMessage true messageId t (route_chatId r) me other text
                  (snd mine)) = Ok tt)
     /\ (forall writes,
           exists r',
             handleMatchPress true writes now' other false (Ok otherUser') m
               (snd mine) (snd mine)
             = (Some r', snd mine)
             /\ route_otherUserId r' = me
             /\ route_chatId r' = route_chatId r))
  /\ (forall reads writes e,
        handleMatchPress reads writes now me false (Error e) m dbRead db
        = (None, db))
  /\ (forall writes,
        handleMatchPress false writes now me false (Ok otherUser) m dbRead db
        = (None, db))
  /\ (chats dbRead !! cid = None ->
      handleMatchPress true false now me false (Ok otherUser) m dbRead db
      = (None, db))
  /\ (forall reads writes navigating settled,
        handleMatchPress reads writes now "user1" navigating settled m dbRead db
        = (None, db))
  /\ (forall reads writes settled,
        handleMatchPress reads writes now me true settled m dbRead db
        = (None, db)).
Proof.
  intros cid Hme Hother Hne Hm Hstill mine.
  assert (Ho : (if String.eqb (Match.userId1 m) me then Match.userId2 m
                else Match.userId1 m) = other).
  { destruct Hm as [[-> ->]|[-> ->]].
    - now rewrite String.eqb_refl.
    - assert (String.eqb other me = false) as ->; [|reflexivity].
      apply String.eqb_neq. congruence. }
  assert (Ho' : (if String.eqb (Match.userId1 m) other then Match.userId2 m
                 else Match.userId1 m) = me).
  { destruct Hm as [[-> ->]|[-> ->]].
    - assert (String.eqb me other = false) as ->; [|reflexivity].
      now apply String.eqb_neq.
    - now rewrite String.eqb_refl. }
  assert (Eme : String.eqb me "user1" = false) by now apply String.eqb_neq.
  assert (Hcreate : exists chat db' d,
            createOrGetChat true true now me other dbRead db = (Ok chat, db')
            /\ Chat.id chat = cid /\ chats db' !! cid = Some d).
  { destruct (chats dbRead !! cid) as [d|] eqn:Hd.
    - destruct (Hstill d eq_refl) as [d' Hd'].
      rewrite (createOrGetChat_existing true now me other dbRead db d Hd).
      eexists _, db, d'. repeat split. exact Hd'.
    - rewrite (createOrGetChat_new now me other dbRead db Hd).
      eexists _, _, _. repeat split. apply lookup_insert_eq. }
  destruct Hcreate as (chat & db1 & d & Hrun & Hcid & Hd).
  destruct (handleMatchPress_run true true now me otherUser m dbRead db Hme)
    with (chat := chat) (db' := db1) as (r & Hr & Hrc & Hro).
  { now rewrite Ho. }
  rewrite Ho in Hro.
  assert (Hmine : mine = (Some r, db1)) by exact Hr.
  split; [|split; [|split; [|split; [|split]]]].
  - exists r. rewrite Hmine. simpl.
    split; [reflexivity|]. split; [exact Hro|].
    split; [now rewrite Hrc|]. split; [eauto|]. split.
    + intros messageId t text. rewrite Hrc, Hcid.
      now rewrite (sendMessage_commit messageId t cid me other text db1 d Hd).
    + intros writes.
      assert (Hd' : chats db1 !! getChatId other me = Some d)
        by (rewrite getChatId_sym; exact Hd).
      destruct (handleMatchPress_run true writes now' other otherUser' m
                  db1 db1 Hother) with
        (chat := Chat.mk (getChatId other me)
                   (Js.orString (ChatDoc.userId1 d) other)
                   (Js.orString (ChatDoc.userId2 d) me)
                   (Js.orUndefined (ChatDoc.lastMessage d))
                   (ChatDoc.lastMessageTime d)
                   (Js.orZero (ChatDoc.unreadCount1 d))
                   (Js.orZero (ChatDoc.unreadCount2 d)) None None)
        (db' := db1) as (r' & Hr' & Hrc' & Hro').
      { rewrite Ho'.
        apply (createOrGetChat_existing writes now' other me db1 db1 d Hd'). }
      exists r'. split; [exact Hr'|]. rewrite Ho' in Hro'.
      split; [exact Hro'|]. rewrite Hrc', Hrc, Hcid. simpl.
      apply getChatId_sym.
  - intros reads writes e. unfold handleMatchPress. now rewrite Eme.
  - intros writes. unfold handleMatchPress. now rewrite Eme.
  - intros Hnone. unfold handleMatchPress. rewrite Eme, Ho. simpl.
    unfold createOrGetChat. unfold cid in Hnone.
    now rewrite (getDoc_None _ _ Hnone).
  - intros reads writes navigating settled. reflexivity.
  - intros reads writes settled. unfold handleMatchPress.
    now rewrite orb_true_r.
Qed.

(** ** Likes given by a profile *)

Lemma whereEq_insert_new {A} (field : A -> option string) (v k : string)
    (x : A) (coll : gmap string A) :
  coll !! k = None -> field x = Some v ->
  Permutation (whereEq field v (<[k := x]> coll))
    ((k, x) :: whereEq field v coll).
Proof.
  intros Hk Hx. unfold whereEq.
  rewrite map_filter_insert_True by exact Hx.
  apply map_to_list_insert. apply map_lookup_filter_None. now left.
Qed.

Lemma toLike_stored (id a b c : string) (t : Z) :
  toLike (id, LikeDoc.mk a b c t) = Like.mk id a b c t.
Proof. now destruct a, b, c. Qed.

(** X16. Saving a like and listing likes. After [saveLike] has stored a
    like under the fresh id the store generates, [getUserLikes] for the
    liker lists that like, with the liked animal, its owner and the time
    of the write, next to everything it listed before; the listing of every
    other profile is unchanged. Every like listed for a profile was given
    by that profile. A [saveLike] that fails stores nothing. *)
Theorem saveLike_getUserLikes (docId : string) (now : Z)
    (likerUserId likedAnimalId ownerId : string)
    (likesCollection : gmap string LikeDoc.t) :
  likesCollection !! docId = None ->
  let after :=
    snd (saveLike true docId now likerUserId likedAnimalId ownerId
           likesCollection) in
  (exists before listed,
     getUserLikes true likerUserId likesCollection = Ok before
     /\ getUserLikes true likerUserId after = Ok listed
     /\ Permutation listed
          (Like.mk docId likerUserId likedAnimalId ownerId now :: before))
  /\ (forall other, other <> likerUserId ->
        getUserLikes true other after = getUserLikes true other likesCollection)
  /\ (forall userId listed like,
        getUserLikes true userId after = Ok listed -> In like listed ->
        Like.likerUserId like = userId
        /\ exists d, after !! Like.id like = Some d
             /\ Like.likedAnimalId like = LikeDoc.likedAnimalId d
             /\ Like.ownerId like = LikeDoc.ownerId d)
  /\ snd (saveLike false docId now likerUserId likedAnimalId ownerId
            likesCollection) = likesCollection.
Proof.
  intros Hfresh after. unfold after, saveLike, getUserLikes. simpl.
  split; [|split; [|split; [|reflexivity]]].
  - eexists _, _. split; [reflexivity|]. split; [reflexivity|].
    rewrite (Permutation_map toLike
               (whereEq_insert_new _ likerUserId docId
                  (LikeDoc.mk likerUserId likedAnimalId ownerId now)
                  likesCollection Hfresh eq_refl)).
    now rewrite List.map_cons, toLike_stored.
  - intros other Hne.
    rewrite whereEq_insert_other; [reflexivity|exact Hfresh|].
    simpl. congruence.
  - intros userId listed like [= <-] Hin.
    apply in_map_iff in Hin as ([id d] & <- & Hin).
    apply whereEq_In in Hin as [Hd Hf]. destruct d as [a b c t].
    rewrite toLike_stored. simpl in *. split; [congruence|].
    eexists. split; [exact Hd|]. now split.
Qed.

(** ** The chat list *)

Lemma sort_desc_chats (l : list Chat.t) :
  StronglySorted
    (fun x y => Js.orZero (Chat.lastMessageTime y)
                <= Js.orZero (Chat.lastMessageTime x))
    (Js.sort byLastMessageTimeDesc l).
Proof.
  assert (Hs := sort_sorted byLastMessageTimeDesc
                  ltac:(unfold byLastMessageTimeDesc; intros; lia) l).
  apply Sorted_StronglySorted in Hs.
  - eapply StronglySorted_weaken; [|exact Hs].
    unfold inOrder, byLastMessageTimeDesc. intros a b. lia.
  - unfold inOrder, byLastMessageTimeDesc. intros a b c. lia.
Qed.

Lemma In_processChats (userId : string) (coll : gmap string ChatDoc.t)
    (users : gmap string User) (c : Chat.t) :
  In c (processChats userId coll users)
  <-> exists id d,
        coll !! id = Some d
        /\ (ChatDoc.userId1 d = Some userId \/ ChatDoc.userId2 d = Some userId)
        /\ c = withUserData userId users (toChat id d).
Proof.
  unfold processChats.
  set (entries := List.map (fun chat => (Chat.id chat, chat)) _).
  assert (Hentries : forall k v, In (k, v) entries
            <-> exists d, coll !! k = Some d
                  /\ (ChatDoc.userId1 d = Some userId
                      \/ ChatDoc.userId2 d = Some userId)
                  /\ v = toChat k d).
  { intros k v. unfold entries. rewrite in_map_iff. split.
    - intros (chat & [= <- <-] & Hin).
      apply in_app_iff in Hin as [Hin|Hin];
        apply in_map_iff in Hin as ([id d] & <- & Hin);
        apply whereEq_In in Hin as [Hd Hf]; exists d; simpl; auto.
    - intros (d & Hd & Hr & ->). exists (toChat k d). split; [reflexivity|].
      apply in_app_iff. destruct Hr as [Hr|Hr]; [left|right];
        apply in_map_iff; exists (k, d); (split; [reflexivity|]);
        now apply whereEq_In. }
  assert (Hwf : wf (JsMap.ofEntries entries)) by (apply wf_setAll, wf_empty).
  rewrite sort_In, in_map_iff. unfold JsMap.values. split.
  - intros (v & <- & Hv). apply in_map_iff in Hv as ([k v'] & <- & Hin).
    simpl. apply In_setAll in Hin as [Hin|[]].
    apply Hentries in Hin as (d & Hd & Hr & ->). eauto.
  - intros (id & d & Hd & Hr & ->). exists (toChat id d).
    split; [reflexivity|]. apply in_map_iff.
    assert (Hkey : In id (JsMap.keys (JsMap.ofEntries entries))).
    { unfold JsMap.ofEntries. fold (setAll entries JsMap.empty).
      apply In_keys_setAll. right. apply in_map_iff.
      exists (id, toChat id d). split; [reflexivity|]. apply Hentries. eauto. }
    destruct (JsMap.get id (JsMap.ofEntries entries)) as [v|] eqn:Hv;
      [|now apply get_None_keys in Hv].
    apply get_Some_In in Hv; [|exact Hwf].
    exists (id, v). split; [|exact Hv]. simpl.
    apply In_setAll in Hv as [Hv|[]].
    apply Hentries in Hv as (d' & Hd' & _ & ->). congruence.
Qed.

(** X17. The chat list of [getUserChats]. The list handed to the callback
    is ordered by time of the last message, newest first, a chat without
    one counting as the oldest; it holds exactly the conversions of the
    stored chats in which the profile is userId1 or userId2; and in each
    entry the stored profile of the other participant is attached on the
    other participant's side and nothing on the profile's own side. *)
Theorem processChats_listing (userId : string)
    (chatsCollection : gmap string ChatDoc.t)
    (usersCollection : gmap string User) :
  let delivered := processChats userId chatsCollection usersCollection in
  StronglySorted
    (fun x y => Js.orZero (Chat.lastMessageTime y)
                <= Js.orZero (Chat.lastMessageTime x)) delivered
  /\ (forall c, In c delivered
        <-> exists id d,
              chatsCollection !! id = Some d
              /\ (ChatDoc.userId1 d = Some userId
                  \/ ChatDoc.userId2 d = Some userId)
              /\ c = withUserData userId usersCollection (toChat id d))
  /\ (forall c, In c delivered ->
        (Chat.userId1 c = userId -> Chat.user1Data c = None)
        /\ (Chat.userId2 c = userId -> Chat.user2Data c = None)
        /\ (Chat.userId1 c = userId -> Chat.userId2 c <> userId ->
            Chat.user2Data c = usersCollection !! Chat.userId2 c)
        /\ (Chat.userId1 c <> userId ->
            Chat.user1Data c = usersCollection !! Chat.userId1 c)).
Proof.
  intros delivered. split; [apply sort_desc_chats|].
  split; [apply In_processChats|].
  intros c Hc. apply In_processChats in Hc as (id & d & _ & _ & ->).
  unfold withUserData. simpl.
  destruct (String.eqb_spec (Js.orEmpty (ChatDoc.userId1 d)) userId) as [E1|E1];
    destruct (String.eqb_spec (Js.orEmpty (ChatDoc.userId2 d)) userId) as [E2|E2];
    repeat split; intros; congruence.
Qed.

Lemma applyChatUpdate_send (d : ChatDoc.t) (senderId text : string) (now : Z) :
  let d' := applyChatUpdate (sendUpdate d senderId text now) d in
  ChatDoc.userId1 d' = ChatDoc.userId1 d
  /\ ChatDoc.userId2 d' = ChatDoc.userId2 d
  /\ ChatDoc.lastMessage d' = Some text
  /\ ChatDoc.lastMessageTime d' = Some now.
Proof.
  unfold sendUpdate. destruct (Js.fieldIs _ _); simpl; repeat split.
Qed.

Lemma processChats_NoDup (userId : string) (coll : gmap string ChatDoc.t)
    (users : gmap string User) :
  NoDup (List.map Chat.id (processChats userId coll users)).
Proof.
  rewrite processChats_ids. apply NoDup_app.
  split; [apply whereEq_NoDup|]. split.
  - intros id Ha Hb. rewrite list_elem_of_In in *.
    apply In_map_fst_whereEq in Ha as (x & Hx & Ha).
    apply in_map_iff in Hb as ([id' x'] & <- & Hb). simpl in Hx.
    apply filter_In in Hb as [Hb Hf]. apply whereEq_In in Hb as [Hx' _].
    simpl in Hf. rewrite Hx in Hx'. injection Hx' as <-.
    apply negb_true_iff in Hf. apply fieldIs_true in Ha. congruence.
  - apply NoDup_map_fst_filter, whereEq_NoDup.
Qed.

Lemma NoDup_of_map {A B} (f : A -> B) (l : list A) :
  NoDup (List.map f l) -> NoDup l.
Proof. rewrite <- fmap_map. apply NoDup_fmap_1. Qed.

(** X18. A sent message brings its chat to the top. After a committed send
    of a non-empty text between the two participants of a chat, at a time
    later than the last message of every other chat, the chat list of
    either participant starts with that chat, showing the text as last
    message and the time of the send. The rest of the list holds exactly
    the entries that the list held before for the other chats, each of
    them once and none of them lost, most recent first. *)
Theorem sendMessage_tops_chat_list (messageId : string) (now : Z)
    (chatId senderId receiverId text viewer : string) (db : ChatStore)
    (d : ChatDoc.t) (usersCollection : gmap string User) :
  chats db !! chatId = Some d ->
  participants d senderId receiverId ->
  viewer = senderId \/ viewer = receiverId ->
  text <> "" ->
  (forall id d', chats db !! id = Some d' -> id <> chatId ->
     Js.orZero (ChatDoc.lastMessageTime d') < now) ->
  let db' :=
    snd (sendMessage true messageId now chatId senderId receiverId text db) in
  exists top rest,
    processChats viewer (chats db') usersCollection = top :: rest
    /\ Chat.id top = chatId
    /\ Chat.lastMessage top = Some text
    /\ Chat.lastMessageTime top = Some now
    /\ (forall c, In c rest ->
          Chat.id c <> chatId
          /\ In c (processChats viewer (chats db) usersCollection))
    /\ Permutation rest
         (List.filter (fun c => negb (String.eqb (Chat.id c) chatId))
            (processChats viewer (chats db) usersCollection))
    /\ StronglySorted
         (fun x y => Js.orZero (Chat.lastMessageTime y)
                     <= Js.orZero (Chat.lastMessageTime x)) rest.
Proof.
  intros Hd [Hne Hpart] Hviewer Htext Hlater db'.
  set (d' := applyChatUpdate (sendUpdate d senderId text now) d).
  destruct (applyChatUpdate_send d senderId text now) as (H1 & H2 & H3 & H4).
  fold d' in H1, H2, H3, H4.
  assert (Hchats : chats db' = <[chatId := d']> (chats db)).
  { unfold db'. now rewrite (sendMessage_commit _ _ _ _ _ _ _ _ Hd). }
  assert (Hrole : ChatDoc.userId1 d' = Some viewer
                  \/ ChatDoc.userId2 d' = Some viewer).
  { rewrite H1, H2.
    destruct Hviewer as [-> | ->], Hpart as [[Ha Hb]|[Ha Hb]]; auto. }
  set (c0 := withUserData viewer usersCollection (toChat chatId d')).
  set (before := processChats viewer (chats db) usersCollection).
  set (delivered := processChats viewer (chats db') usersCollection).
  assert (Hc0 : In c0 delivered).
  { apply In_processChats. exists chatId, d'. split; [|now split].
    rewrite Hchats. apply lookup_insert_eq. }
  assert (Hothers : forall c, In c delivered -> Chat.id c <> chatId ->
            Js.orZero (Chat.lastMessageTime c) < now /\ In c before).
  { intros c Hc Hid. apply In_processChats in Hc as (id & x & Hx & Hr & ->).
    simpl in Hid. rewrite Hchats, lookup_insert_ne in Hx by congruence.
    split; [simpl; now apply (Hlater id)|].
    apply In_processChats. eauto. }
  assert (Hkept : forall c, In c before -> Chat.id c <> chatId ->
            In c delivered).
  { intros c Hc Hid. apply In_processChats in Hc as (id & x & Hx & Hr & ->).
    simpl in Hid. apply In_processChats. exists id, x.
    split; [|now split]. rewrite Hchats, lookup_insert_ne by congruence.
    exact Hx. }
  assert (Hsame : forall c, In c delivered -> Chat.id c = chatId -> c = c0).
  { intros c Hc Hid. apply In_processChats in Hc as (id & x & Hx & Hr & ->).
    simpl in Hid. subst id. rewrite Hchats, lookup_insert_eq in Hx.
    now injection Hx as <-. }
  assert (Htime : Js.orZero (Chat.lastMessageTime c0) = now).
  { change (Js.orZero (ChatDoc.lastMessageTime d') = now). now rewrite H4. }
  assert (Hsorted : StronglySorted
            (fun x y => Js.orZero (Chat.lastMessageTime y)
                        <= Js.orZero (Chat.lastMessageTime x)) delivered)
    by apply sort_desc_chats.
  assert (Hnd : NoDup (List.map Chat.id delivered))
    by apply processChats_NoDup.
  assert (Hndb : NoDup before)
    by (apply (NoDup_of_map Chat.id), processChats_NoDup).
  destruct delivered as [|top rest] eqn:Edel; [destruct Hc0|].
  exists top, rest. split; [reflexivity|].
  apply StronglySorted_inv in Hsorted as [Hrest Hall].
  assert (Htop : Chat.id top = chatId).
  { destruct (String.eqb_spec (Chat.id top) chatId) as [E|E]; [exact E|].
    exfalso. destruct (Hothers top (or_introl eq_refl) E) as [Hlt _].
    destruct Hc0 as [Hc0|Hc0]; [subst top; lia|].
    assert (Hle := proj1 (List.Forall_forall _ _) Hall c0 Hc0).
    cbv beta in Hle. rewrite Htime in Hle. lia. }
  assert (Etop : top = c0) by (apply Hsame; [now left|exact Htop]).
  split; [exact Htop|]. rewrite Etop.
  split.
  { change (Js.orUndefined (ChatDoc.lastMessage d') = Some text).
    rewrite H3. now destruct text. }
  split; [exact H4|].
  simpl in Hnd. apply NoDup_cons in Hnd as [Hnotin Hndr].
  assert (Hrid : forall c, In c rest -> Chat.id c <> chatId).
  { intros c Hc E. apply Hnotin. rewrite list_elem_of_In, Htop, <- E.
    now apply in_map. }
  split; [|split; [|exact Hrest]].
  - intros c Hc. split; [now apply Hrid|].
    apply Hothers; [now right|now apply Hrid].
  - apply NoDup_Permutation.
    + exact (NoDup_of_map Chat.id rest Hndr).
    + apply NoDup_ListNoDup, List.NoDup_filter, NoDup_ListNoDup, Hndb.
    + intros c. rewrite !list_elem_of_In, filter_In. split.
      * intros Hc. split; [apply Hothers; [now right|now apply Hrid]|].
        apply negb_true_iff, String.eqb_neq. now apply Hrid.
      * intros [Hc Hid]. apply negb_true_iff, String.eqb_neq in Hid.
        destruct (Hkept c Hc Hid) as [E|Hin]; [|exact Hin].
        congruence.
Qed.

(** ** More concrete runs *)

(** U2 likes pet p1 of U1; the check for a like by U1 on a pet of U2 then
    reports a match. *)
Lemma saveLike_then_checkMutualLike_witness :
  isMatch (checkMutualLike true "U1" "U2" []
             (snd (saveLike true "l1" 10 "U2" "p1" "U1" ∅))) = true.
Proof.
  assert (H : (∅ : gmap string LikeDoc.t) !! "l1" = None) by apply lookup_empty.
  exact (proj1 (saveLike_then_checkMutualLike "l1" 10 "U2" "p1" "U1" ∅ H) []).
Defined.

(** The listing of another profile after U2's like is stored. *)
Lemma saveLike_getUserLikes_witness :
  getUserLikes true "U9" (snd (saveLike true "l1" 10 "U2" "p1" "U1" ∅))
  = getUserLikes true "U9" ∅.
Proof.
  assert (H : (∅ : gmap string LikeDoc.t) !! "l1" = None) by apply lookup_empty.
  assert (Hne : "U9" <> "U2") by discriminate.
  exact (proj1 (proj2 (saveLike_getUserLikes "l1" 10 "U2" "p1" "U1" ∅ H))
           "U9" Hne).
Defined.

(** One stored match of u, delivered by the two first snapshots. *)
Lemma matches_initial_load_witness :
  NoDup
    (List.map Match.id
       (processMatches
          (matchesMap
             (runMatchesRealtime "u" (fun _ => 0) 0
                [Snapshot1
                   (mkQuerySnapshot
                      (whereEq MatchDoc.userId1 "u" (<["k1" := stampedDoc]> ∅))
                      []);
                 Snapshot2
                   (mkQuerySnapshot
                      (whereEq MatchDoc.userId2 "u" (<["k1" := stampedDoc]> ∅))
                      [])]
                matchesRealtimeInit)))).
Proof.
  assert (H : "u" <> "") by discriminate.
  exact (proj1 (proj2
           (matches_initial_load "u" (fun _ => 0) (<["k1" := stampedDoc]> ∅)
              [] [] _ H (or_introl eq_refl)))).
Defined.

(** U2 has pressed its match with U1 in an empty store, which created the
    chat; U1 then presses the match: the chat screen opens on U2 and on the
    thread U1_U2. *)
Lemma handleMatchPress_shared_chat_witness :
  let opened :=
    snd (handleMatchPress true true 0 "U2" false (Ok None) match12
           (mkChatStore ∅ ∅) (mkChatStore ∅ ∅)) in
  let mine :=
    handleMatchPress true true 5 "U1" false (Ok None) match12 opened opened in
  exists r,
    fst mine = Some r
    /\ route_otherUserId r = "U2"
    /\ route_chatId r = getChatId "U1" "U2"
    /\ exists d, chats (snd mine) !! getChatId "U1" "U2" = Some d.
Proof.
  intros opened mine.
  assert (H1 : "U1" <> "user1") by discriminate.
  assert (H2 : "U2" <> "user1") by discriminate.
  assert (H3 : "U1" <> "U2") by discriminate.
  assert (H4 : (Match.userId1 match12 = "U1" /\ Match.userId2 match12 = "U2")
               \/ (Match.userId1 match12 = "U2" /\ Match.userId2 match12 = "U1"))
    by (left; split; reflexivity).
  assert (H5 : forall d,
             chats opened !! getChatId "U1" "U2" = Some d ->
             is_Some (chats opened !! getChatId "U1" "U2"))
    by (intros d H; exists d; exact H).
  destruct (handleMatchPress_shared_chat 5 5 "U1" "U2" None None match12
              opened opened H1 H2 H3 H4 H5)
    as [(r & Hr & Ho & Hc & Hd & _) _].
  exists r. split; [exact Hr|]. split; [exact Ho|]. split; [exact Hc|exact Hd].
Defined.

(** The press of U2 on the empty store, and a press of U1 for which
    [getUser] rejects or the write of [createOrGetChat] fails. *)
Example handleMatchPress_runs :
  handleMatchPress true true 0 "U2" false (Ok None) match12
    (mkChatStore ∅ ∅) (mkChatStore ∅ ∅)
  = (Some (mkRouteParams "U1_U2" "U1" "User" None),
     mkChatStore
       (<["U1_U2" := ChatDoc.mk (Some "U2") (Some "U1") (Some "") (Some 0)
                       (Some 0) (Some 0)]> ∅) ∅)
  /\ handleMatchPress true true 0 "U1" false (Error "offline") match12
       (mkChatStore ∅ ∅) (mkChatStore ∅ ∅)
     = (None, mkChatStore ∅ ∅)
  /\ handleMatchPress true false 0 "U1" false (Ok None) match12
       (mkChatStore ∅ ∅) (mkChatStore ∅ ∅)
     = (None, mkChatStore ∅ ∅).
Proof. vm_compute. repeat split; reflexivity. Qed.

(** u has three chats, last written at 30, 20 and never; "hey" sent by u to
    v at 40 moves the chat u_v from the middle of u's list to its top, and
    the two other chats follow. *)
Lemma sendMessage_tops_chat_list_witness :
  let db := mkChatStore threeThreads ∅ in
  let db' := snd (sendMessage true "m1" 40 "u_v" "u" "v" "hey" db) in
  exists top rest,
    processChats "u" (chats db') ∅ = top :: rest
    /\ Chat.id top = "u_v"
    /\ Chat.lastMessage top = Some "hey"
    /\ Permutation rest
         (List.filter (fun c => negb (String.eqb (Chat.id c) "u_v"))
            (processChats "u" (chats db) ∅)).
Proof.
  intros db db'.
  assert (H1 : chats db !! "u_v"
               = Some (ChatDoc.mk (Some "u") (Some "v") (Some "yo") (Some 20)
                         (Some 2) (Some 0)))
    by (vm_compute; reflexivity).
  assert (H2 : participants
                 (ChatDoc.mk (Some "u") (Some "v") (Some "yo") (Some 20)
                    (Some 2) (Some 0)) "u" "v")
    by (split; [discriminate|left; split; reflexivity]).
  assert (H3 : "u" = "u" \/ "u" = "v") by (left; reflexivity).
  assert (H4 : "hey" <> "") by discriminate.
  assert (H5 : forall id d', chats db !! id = Some d' -> id <> "u_v" ->
                 Js.orZero (ChatDoc.lastMessageTime d') < 40).
  { intros id d' H Hne. unfold db, threeThreads in H. simpl in H.
    apply lookup_insert_Some in H as [[_ <-]|[_ H]]; [reflexivity|].
    apply lookup_insert_Some in H as [[_ <-]|[_ H]]; [reflexivity|].
    apply lookup_insert_Some in H as [[E _]|[_ H]]; [congruence|].
    apply lookup_insert_Some in H as [[_ <-]|[_ H]]; [reflexivity|].
    rewrite lookup_empty in H. discriminate. }
  destruct (sendMessage_tops_chat_list "m1" 40 "u_v" "u" "v" "hey" "u"
              db _ ∅ H1 H2 H3 H4 H5)
    as (top & rest & Ha & Hb & Hc & _ & _ & Hd & _).
  exists top, rest. split; [exact Ha|]. split; [exact Hb|].
  split; [exact Hc|exact Hd].
Defined.

(** The ids of u's list before and after that send. *)
Example sendMessage_threeThreads_list :
  List.map Chat.id (processChats "u" threeThreads ∅) = ["a_u"; "u_v"; "u_w"]
  /\ List.map Chat.id
       (processChats "u"
          (chats (snd (sendMessage true "m1" 40 "u_v" "u" "v" "hey"
                         (mkChatStore threeThreads ∅)))) ∅)
     = ["u_v"; "a_u"; "u_w"].
Proof. vm_compute. split; reflexivity. Qed.

(** ** The listeners of services/matchService.ts *)

Lemma In_keys_onSnapshot (now : Z) (k : string)
    (l : list (string * MatchDoc.t)) :
  forall m,
    In k (JsMap.keys (fold_left (setDoc now) l m))
    <-> In k (JsMap.keys m) \/ In k (List.map fst l).
Proof.
  induction l as [|d l IH]; intros m; simpl; [tauto|].
  rewrite IH. unfold setDoc at 1. rewrite In_keys_set. split.
  - intros [[->|H]|H]; auto.
  - intros [H|[<-|H]]; auto.
Qed.

(** X19. The listeners of services/matchService.ts never forget a match.
    Whatever snapshots they receive, the map holds exactly the ids it held
    before together with the ids of all documents listed by the snapshots:
    a match that a later snapshot no longer lists stays on the delivered
    list, which therefore never gets shorter. *)
Theorem matchServiceTs_never_forgets (clock : nat -> Z) (start : nat)
    (snapshots : list QuerySnapshot) (m : JsMap.t Match.t) :
  wf m ->
  let m' := MatchServiceTs.replay clock start snapshots m in
  (forall k, In k (JsMap.keys m')
     <-> In k (JsMap.keys m)
         \/ exists s, In s snapshots /\ In k (List.map fst (docs s)))
  /\ (length (processMatches m) <= length (processMatches m'))%nat.
Proof.
  intros Hwf m'.
  assert (Hkeys : forall k, In k (JsMap.keys m')
            <-> In k (JsMap.keys m)
                \/ exists s, In s snapshots /\ In k (List.map fst (docs s))).
  { unfold m'. clear m'. revert start m Hwf.
    induction snapshots as [|s l IH]; intros start m Hwf k; simpl.
    - split; [tauto|]. intros [H|(s & [] & _)]. exact H.
    - unfold MatchServiceTs.onSnapshot. fold (setDoc (clock start)).
      rewrite IH by now apply wf_setDocs.
      rewrite In_keys_onSnapshot. split.
      + intros [[H|H]|(s' & Hs' & H)]; eauto.
      + intros [H|(s' & [<-|Hs'] & H)]; eauto. }
  split; [exact Hkeys|].
  unfold processMatches. rewrite !sort_length.
  unfold JsMap.values. rewrite !List.length_map.
  rewrite <- (List.length_map fst m), <- (List.length_map fst m').
  apply NoDup_incl_length.
  - apply NoDup_ListNoDup. exact Hwf.
  - intros k Hk. apply Hkeys. now left.
Qed.

(** ** A screen with nothing pending *)

Lemma sort_insert_head {A} (cmp : A -> A -> Z) (x : A) (l : list A) :
  List.Forall (fun y => cmp x y <= 0) l -> Js.sort_insert cmp x l = x :: l.
Proof.
  destruct l as [|y l]; simpl; [reflexivity|].
  intros H. apply List.Forall_inv in H.
  destruct (Z.leb_spec (cmp x y) 0); [reflexivity|lia].
Qed.

Lemma sort_sorted_id {A} (cmp : A -> A -> Z) (l : list A) :
  StronglySorted (fun x y => cmp x y <= 0) l -> Js.sort cmp l = l.
Proof.
  induction 1 as [|x l Hl IH Hx]; [reflexivity|].
  change (Js.sort_insert cmp x (Js.sort cmp l) = x :: l).
  rewrite IH. now apply sort_insert_head.
Qed.

(** X20. With nothing pending, the screen shows the page of the store. When
    the displayed list holds no optimistic message and no stored message id
    has the form temp-..., the snapshot callback replaces the displayed
    list by exactly the messages [getChatMessages] delivers, in the order
    delivered: whatever was displayed before and is not on the page is
    gone. *)
Theorem merge_without_pending (limit : nat) (chatId : string) (now : Z)
    (db : ChatStore) (prev : list Message.t) :
  (forall m, In m prev -> ChatDetailScreen.isOptimistic m = false) ->
  (forall id d, getMessagesCollection chatId db !! id = Some d ->
     Js.startsWith id "temp-" = false) ->
  ChatDetailScreen.mergeMessages (getChatMessages limit chatId now db) prev
  = getChatMessages limit chatId now db.
Proof.
  intros Hprev Hids. unfold ChatDetailScreen.mergeMessages.
  assert (Hpending : List.filter ChatDetailScreen.isOptimistic prev = []).
  { induction prev as [|m prev IH]; simpl; [reflexivity|].
    rewrite (Hprev m) by now left. apply IH. intros x Hx. apply Hprev. now right. }
  rewrite Hpending. simpl. rewrite List.app_nil_r.
  rewrite filter_all_true.
  - apply sort_sorted_id.
    rewrite getChatMessages_stored.
    eapply StronglySorted_weaken;
      [|apply (StronglySorted_rev
                 (fun x y => Message.timestamp y <= Message.timestamp x)),
          readBack_sorted, StronglySorted_firstn, sort_desc_docs].
    unfold ChatDetailScreen.byTimestampAsc. intros a b. simpl. lia.
  - intros m Hm. apply In_getChatMessages in Hm as ([id d] & He & _ & ->).
    apply In_newestMessages in He. simpl in He.
    unfold ChatDetailScreen.isOptimistic. simpl.
    now rewrite (Hids id d He).
Qed.

(** The page of a chat with two stored messages replaces an older display. *)
Lemma merge_without_pending_witness :
  ChatDetailScreen.mergeMessages (getChatMessages 50 "u1_u2" 0 store1)
    [Message.mk "m0" "u1_u2" "u2" "u1" "gone" 1 true]
  = getChatMessages 50 "u1_u2" 0 store1.
Proof.
  assert (H1 : forall m, In m [Message.mk "m0" "u1_u2" "u2" "u1" "gone" 1 true] ->
                 ChatDetailScreen.isOptimistic m = false)
    by (intros m [<-|[]]; reflexivity).
  assert (H0 : getMessagesCollection "u1_u2" store1
               = <["m2" := MessageDoc.mk "u1_u2" "u1" "u2" "yo" 7 false]>
                   (<["m1" := MessageDoc.mk "u1_u2" "u1" "u2" "hi" 5 false]> ∅))
    by (vm_compute; reflexivity).
  assert (H2 : forall id d, getMessagesCollection "u1_u2" store1 !! id = Some d ->
                 Js.startsWith id "temp-" = false).
  { intros id d. rewrite H0. intros H.
    apply lookup_insert_Some in H as [[<- _]|[_ H]]; [reflexivity|].
    apply lookup_insert_Some in H as [[<- _]|[_ H]]; [reflexivity|].
    rewrite lookup_empty in H. discriminate. }
  exact (merge_without_pending 50 "u1_u2" 0 store1 _ H1 H2).
Defined.

(** A map with one match, fed one snapshot that lists another. *)
Lemma matchServiceTs_never_forgets_witness :
  (length (processMatches [("k0", toMatch 0%Z "k0" stampedDoc)])
   <= length (processMatches
                (MatchServiceTs.replay (fun _ => 0%Z) 0
                   [mkQuerySnapshot [("k1", stampedDoc)] []]
                   [("k0", toMatch 0%Z "k0" stampedDoc)])))%nat.
Proof.
  assert (H : wf [("k0", toMatch 0 "k0" stampedDoc)])
    by (apply NoDup_singleton).
  exact (proj2 (matchServiceTs_never_forgets (fun _ => 0) 0
                  [mkQuerySnapshot [("k1", stampedDoc)] []]
                  [("k0", toMatch 0 "k0" stampedDoc)] H)).
Defined.

(** ** Time labels of messages *)

(** The hour and the minute of the local time of day of [date]. *)
Lemma local_time_of_day (localOffset : Z -> Z) (date day hour minute rest : Z) :
  date + localOffset date
  = 86400000 * day + 3600000 * hour + 60000 * minute + rest ->
  0 <= hour < 24 -> 0 <= minute < 60 -> 0 <= rest < 60000 ->
  getHours localOffset date = hour /\ getMinutes localOffset date = minute.
Proof.
  intros Hlocal Hh Hm Hr. unfold getHours, getMinutes. rewrite Hlocal. split.
  - replace (86400000 * day + 3600000 * hour + 60000 * minute + rest)
      with (60000 * minute + rest + (24 * day + hour) * 3600000) by lia.
    rewrite Z.div_add by lia.
    rewrite (Z.div_small (60000 * minute + rest)) by lia.
    replace (0 + (24 * day + hour)) with (hour + day * 24) by lia.
    rewrite Z.mod_add by lia. apply Z.mod_small. lia.
  - replace (86400000 * day + 3600000 * hour + 60000 * minute + rest)
      with (rest + (1440 * day + 60 * hour + minute) * 60000) by lia.
    rewrite Z.div_add by lia.
    rewrite (Z.div_small rest) by lia.
    replace (0 + (1440 * day + 60 * hour + minute))
      with (minute + (24 * day + hour) * 60) by lia.
    rewrite Z.mod_add by lia. apply Z.mod_small. lia.
Qed.

Lemma local_time_exists (t : Z) :
  exists day hour minute rest,
    t = 86400000 * day + 3600000 * hour + 60000 * minute + rest
    /\ 0 <= hour < 24 /\ 0 <= minute < 60 /\ 0 <= rest < 60000.
Proof.
  set (s := t mod 86400000). set (u := s mod 3600000).
  exists (t / 86400000), (s / 3600000), (u / 60000), (u mod 60000).
  pose proof (Z.div_mod t 86400000 ltac:(lia)) as Hd.
  pose proof (Z.mod_pos_bound t 86400000 ltac:(lia)) as Hdb.
  pose proof (Z.div_mod s 3600000 ltac:(lia)) as Hh.
  pose proof (Z.mod_pos_bound s 3600000 ltac:(lia)) as Hhb.
  pose proof (Z.div_mod u 60000 ltac:(lia)) as Hm.
  pose proof (Z.mod_pos_bound u 60000 ltac:(lia)) as Hmb.
  fold s in Hd, Hdb. fold u in Hh, Hhb.
  assert (0 <= s / 3600000 < 24).
  { split; [apply Z.div_pos; lia|apply Z.div_lt_upper_bound; lia]. }
  assert (0 <= u / 60000 < 60).
  { split; [apply Z.div_pos; lia|apply Z.div_lt_upper_bound; lia]. }
  repeat split; lia.
Qed.

(** X21. The time label of a message. A message less than a minute old,
    or stamped later than the local clock, is labelled Just now; one less
    than an hour old is labelled with its age in whole minutes, between 1
    and 59. An older one is labelled with the local time of day of its
    date on a 12-hour clock and with nothing else: when the local time of
    the date is hour:minute of some day, with the hour counted from 0 to
    23, the label shows hour 0 as 12 AM, the hours 1 to 11 as they are
    with AM, hour 12 as 12 PM and the hours 13 to 23 as 1 to 11 PM,
    followed by the minute padded to two characters; such an hour and
    minute always exist, and the hour shown lies between 1 and 12. Two such
    messages whose local times lie a whole number of days apart get the
    same label. *)
Theorem formatMessageTime_label (localOffset : Z -> Z) (now date : Z) :
  (now - date < 60000 -> formatMessageTime localOffset now date = "Just now")
  /\ (60000 <= now - date < 3600000 ->
      formatMessageTime localOffset now date
      = pretty ((now - date) / 60000) ++ "m ago"
      /\ 1 <= (now - date) / 60000 < 60)
  /\ (3600000 <= now - date ->
      (forall day hour minute rest,
         date + localOffset date
         = 86400000 * day + 3600000 * hour + 60000 * minute + rest ->
         0 <= hour < 24 -> 0 <= minute < 60 -> 0 <= rest < 60000 ->
         formatMessageTime localOffset now date
         = pretty (if hour =? 0 then 12
                   else if hour <=? 12 then hour else hour - 12)
           ++ ":" ++ padStartZero 2 (pretty minute) ++ " "
           ++ (if hour <? 12 then "AM" else "PM"))
      /\ (exists day hour minute rest,
            date + localOffset date
            = 86400000 * day + 3600000 * hour + 60000 * minute + rest
            /\ 0 <= hour < 24 /\ 0 <= minute < 60 /\ 0 <= rest < 60000
            /\ getHours localOffset date = hour
            /\ getMinutes localOffset date = minute
            /\ 1 <= (if hour =? 0 then 12
                     else if hour <=? 12 then hour else hour - 12) <= 12)
      /\ forall date' days,
           3600000 <= now - date' ->
           date' + localOffset date'
           = date + localOffset date + 86400000 * days ->
           formatMessageTime localOffset now date'
           = formatMessageTime localOffset now date).
Proof.
  unfold formatMessageTime. split; [|split].
  - intros H.
    assert ((now - date) / 60000 < 1)
      by (apply Z.div_lt_upper_bound; lia).
    destruct (Z.ltb_spec ((now - date) / 60000) 1); [reflexivity|lia].
  - intros [Hlo Hhi].
    assert (1 <= (now - date) / 60000)
      by (apply Z.div_le_lower_bound; lia).
    assert ((now - date) / 60000 < 60)
      by (apply Z.div_lt_upper_bound; lia).
    destruct (Z.ltb_spec ((now - date) / 60000) 1); [lia|].
    destruct (Z.ltb_spec ((now - date) / 60000) 60); [|lia].
    split; [reflexivity|lia].
  - intros Hold.
    assert (Hage : forall d, 3600000 <= now - d -> 60 <= (now - d) / 60000)
      by (intros d Hd; apply Z.div_le_lower_bound; lia).
    assert (H60 := Hage date Hold).
    destruct (Z.ltb_spec ((now - date) / 60000) 1); [lia|].
    destruct (Z.ltb_spec ((now - date) / 60000) 60); [lia|].
    split; [|split].
    + intros day hour minute rest Hlocal Hh Hm Hr.
      destruct (local_time_of_day localOffset date day hour minute rest
                  Hlocal Hh Hm Hr) as [-> ->].
      assert (Ehour : (if hour mod 12 =? 0 then 12 else hour mod 12)
                      = (if hour =? 0 then 12
                         else if hour <=? 12 then hour else hour - 12)).
      { destruct (Z.eqb_spec hour 0) as [->|Hz]; [reflexivity|].
        destruct (Z.leb_spec hour 12) as [Hle|Hgt].
        - destruct (Z.eq_dec hour 12) as [->|Hne]; [reflexivity|].
          rewrite Z.mod_small by lia.
          destruct (Z.eqb_spec hour 0); [lia|reflexivity].
        - assert (hour mod 12 = hour - 12) as ->.
          { replace hour with (hour - 12 + 1 * 12) at 1 by lia.
            rewrite Z.mod_add by lia. apply Z.mod_small. lia. }
          destruct (Z.eqb_spec (hour - 12) 0); [lia|reflexivity]. }
      assert (Ehalf : (if 12 <=? hour then "PM" else "AM")
                      = (if hour <? 12 then "AM" else "PM")).
      { destruct (Z.leb_spec 12 hour), (Z.ltb_spec hour 12);
          (reflexivity || lia). }
      now rewrite Ehour, Ehalf.
    + destruct (local_time_exists (date + localOffset date))
        as (day & hour & minute & rest & Hlocal & Hh & Hm & Hr).
      destruct (local_time_of_day localOffset date day hour minute rest
                  Hlocal Hh Hm Hr) as [Eh Em].
      exists day, hour, minute, rest.
      repeat (split; [assumption || lia|]).
      destruct (Z.eqb_spec hour 0); [lia|].
      destruct (Z.leb_spec hour 12); lia.
    + intros date' days Hold' Hlocal.
      assert (H60' := Hage date' Hold').
      destruct (Z.ltb_spec ((now - date') / 60000) 1); [lia|].
      destruct (Z.ltb_spec ((now - date') / 60000) 60); [lia|].
      assert (Hh : getHours localOffset date' = getHours localOffset date).
      { unfold getHours. rewrite Hlocal.
        replace (86400000 * days) with (24 * days * 3600000) by lia.
        rewrite Z.div_add by lia.
        replace (24 * days) with (days * 24) by lia.
        now rewrite Z.mod_add by lia. }
      assert (Hm : getMinutes localOffset date' = getMinutes localOffset date).
      { unfold getMinutes. rewrite Hlocal.
        replace (86400000 * days) with (1440 * days * 60000) by lia.
        rewrite Z.div_add by lia.
        replace (1440 * days) with (24 * days * 60) by lia.
        now rewrite Z.mod_add by lia. }
      now rewrite Hh, Hm.
Qed.

(** Labels at 13:05, at 00:07 and at 12:00 local time, two hours later, in
    a zone one hour ahead of UTC. *)
Example formatMessageTime_afternoon :
  formatMessageTime (fun _ => 3600000) 50700000 43500000 = "1:05 PM"
  /\ formatMessageTime (fun _ => 3600000) 90420000 83220000 = "12:07 AM"
  /\ formatMessageTime (fun _ => 3600000) 46800000 39600000 = "12:00 PM"
  /\ formatMessageTime (fun _ => 3600000) 46800000 46000000 = "13m ago".
Proof. vm_compute. repeat split; reflexivity. Qed.

(** ** Counters and the role of the acting profile *)

Lemma fieldIs_false (x : option string) (s : string) :
  x <> Some s -> Js.fieldIs x s = false.
Proof.
  intros H. destruct (Js.fieldIs x s) eqn:E; [|reflexivity].
  apply fieldIs_true in E. contradiction.
Qed.

(** X22. Which unread counter a write touches is decided by a single test,
    whether the acting profile is userId1 of the chat. Any other profile,
    be it userId2 or no participant of the chat at all, resets unreadCount2
    and keeps unreadCount1 when its mark-as-read commits, and raises
    unreadCount1 by one and keeps unreadCount2 when its send commits. For
    the mark-as-read this holds whichever store its query of unread
    messages saw, as long as the messages it listed are still stored. *)
Theorem counters_follow_userId1_test (chatId userId receiverId messageId text
    : string) (now : Z) (db : ChatStore) (d : ChatDoc.t) :
  chats db !! chatId = Some d ->
  ChatDoc.userId1 d <> Some userId ->
  (exists db1 d1,
     markMessagesAsRead true chatId userId db db = (Ok tt, db1)
     /\ chats db1 !! chatId = Some d1
     /\ ChatDoc.unreadCount2 d1 = Some 0
     /\ ChatDoc.unreadCount1 d1 = ChatDoc.unreadCount1 d)
  /\ (exists db2 d2,
        sendMessage true messageId now chatId userId receiverId text db
        = (Ok tt, db2)
        /\ chats db2 !! chatId = Some d2
        /\ ChatDoc.unreadCount1 d2
           = Some (Js.orZero (ChatDoc.unreadCount1 d) + 1)
        /\ ChatDoc.unreadCount2 d2 = ChatDoc.unreadCount2 d)
  /\ (forall dbQuery,
        (forall k, k ∈ (unreadQuery chatId userId dbQuery).*1 ->
                   is_Some (getMessagesCollection chatId db !! k)) ->
        exists db1 d1,
          markMessagesAsRead true chatId userId dbQuery db = (Ok tt, db1)
          /\ chats db1 !! chatId = Some d1
          /\ ChatDoc.unreadCount2 d1 = Some 0
          /\ ChatDoc.unreadCount1 d1 = ChatDoc.unreadCount1 d).
Proof.
  intros Hd Hrole. apply fieldIs_false in Hrole.
  assert (Hread : forall dbQuery,
            (forall k, k ∈ (unreadQuery chatId userId dbQuery).*1 ->
                       is_Some (getMessagesCollection chatId db !! k)) ->
            exists db1 d1,
              markMessagesAsRead true chatId userId dbQuery db = (Ok tt, db1)
              /\ chats db1 !! chatId = Some d1
              /\ ChatDoc.unreadCount2 d1 = Some 0
              /\ ChatDoc.unreadCount1 d1 = ChatDoc.unreadCount1 d).
  { intros dbQuery Hstored.
    destruct (markMessagesAsRead_commit_at chatId userId dbQuery db d Hd Hstored)
      as (db1 & Hrun & Hchats & _).
    exists db1, (applyChatUpdate (resetFor userId d) d).
    split; [exact Hrun|]. split; [rewrite Hchats; apply lookup_insert_eq|].
    unfold resetFor. rewrite Hrole. now split. }
  split; [|split].
  - apply Hread. intros k. apply unreadQuery_stored.
  - eexists _, _. split; [apply (sendMessage_commit _ _ _ _ _ _ _ _ Hd)|].
    simpl. split; [apply lookup_insert_eq|].
    unfold sendUpdate. rewrite Hrole. now split.
  - exact Hread.
Qed.

(** A profile that is no participant of the chat of u1 and u2. *)
Lemma counters_follow_userId1_test_witness :
  exists db1 d1,
    markMessagesAsRead true "u1_u2" "zed" store1 store1 = (Ok tt, db1)
    /\ chats db1 !! "u1_u2" = Some d1
    /\ ChatDoc.unreadCount2 d1 = Some 0.
Proof.
  assert (H1 : chats store1 !! "u1_u2"
               = Some (ChatDoc.mk (Some "u1") (Some "u2") (Some "yo") (Some 7)
                         (Some 0) (Some 2)))
    by (vm_compute; reflexivity).
  assert (H2 : ChatDoc.userId1
                 (ChatDoc.mk (Some "u1") (Some "u2") (Some "yo") (Some 7)
                    (Some 0) (Some 2)) <> Some "zed")
    by discriminate.
  destruct (proj1 (counters_follow_userId1_test "u1_u2" "zed" "u1" "m9" "x" 9
                     store1 _ H1 H2)) as (db1 & d1 & Ha & Hb & Hc & _).
  exists db1, d1. split; [exact Ha|]. split; [exact Hb|exact Hc].
Defined.

(** X23. Mark-as-read for a chat that has no chat document. Unlike a send,
    which is rejected, a committed [markMessagesAsRead] whose query of
    unread messages saw the store it then writes to resolves: every
    unread message stored under the chat id and addressed to the reader is
    marked read, every other message is left as it was, and no chat
    document is created or changed. When the query saw another store, and
    the messages it listed are still stored, the call resolves as well: it
    marks the listed messages and no other, and again touches no chat
    document. *)
Theorem markMessagesAsRead_without_chat (chatId userId : string)
    (db : ChatStore) :
  chats db !! chatId = None ->
  exists db',
    markMessagesAsRead true chatId userId db db = (Ok tt, db')
    /\ chats db' = chats db
    /\ (forall k,
          getMessagesCollection chatId db' !! k
          = markFor userId <$> getMessagesCollection chatId db !! k)
    /\ unreadMessages userId (getMessagesCollection chatId db') = ∅
    /\ (forall c, c <> chatId -> messages db' !! c = messages db !! c)
    /\ (forall dbQuery,
          (forall k, k ∈ (unreadQuery chatId userId dbQuery).*1 ->
                     is_Some (getMessagesCollection chatId db !! k)) ->
          exists db2,
            markMessagesAsRead true chatId userId dbQuery db = (Ok tt, db2)
            /\ chats db2 = chats db
            /\ (forall c, c <> chatId -> messages db2 !! c = messages db !! c)
            /\ (forall k,
                  getMessagesCollection chatId db2 !! k
                  = if decide (k ∈ (unreadQuery chatId userId dbQuery).*1)
                    then setRead true <$> getMessagesCollection chatId db !! k
                    else getMessagesCollection chatId db !! k)).
Proof.
  intros Hnone.
  assert (Hat : forall dbQuery,
            (forall k, k ∈ (unreadQuery chatId userId dbQuery).*1 ->
                       is_Some (getMessagesCollection chatId db !! k)) ->
            exists db2,
              markMessagesAsRead true chatId userId dbQuery db = (Ok tt, db2)
              /\ chats db2 = chats db
              /\ (forall c, c <> chatId -> messages db2 !! c = messages db !! c)
              /\ (forall k,
                    getMessagesCollection chatId db2 !! k
                    = if decide (k ∈ (unreadQuery chatId userId dbQuery).*1)
                      then setRead true <$> getMessagesCollection chatId db !! k
                      else getMessagesCollection chatId db !! k)).
  { intros dbQuery Hstored.
    unfold markMessagesAsRead, runTransaction, markMessagesAsReadWrites.
    rewrite (getDoc_None _ _ Hnone). simpl.
    set (l := unreadQuery chatId userId dbQuery) in *.
    destruct (applyWrites_reads chatId l db Hstored)
      as (db1 & Hrun & Hchats & Hother & Hlook).
    rewrite Hrun. exists db1. split; [reflexivity|]. split; [exact Hchats|].
    split; [exact Hother|exact Hlook]. }
  destruct (Hat db (unreadQuery_stored chatId userId db))
    as (db1 & Hrun & Hchats & Hother & Hlook).
  exists db1. split; [exact Hrun|]. split; [exact Hchats|].
  assert (Hmark : forall k,
            getMessagesCollection chatId db1 !! k
            = markFor userId <$> getMessagesCollection chatId db !! k).
  { intros k. rewrite Hlook. apply markFor_unread. }
  split; [exact Hmark|].
  split; [exact (unreadMessages_after_mark userId _ _ Hmark)|].
  split; [exact Hother|exact Hat].
Qed.

(** Messages stored under a chat id whose chat document is gone. *)
Lemma markMessagesAsRead_without_chat_witness :
  exists db',
    markMessagesAsRead true "u1_u2" "u2"
      (mkChatStore ∅ (messages store1)) (mkChatStore ∅ (messages store1))
    = (Ok tt, db')
    /\ chats db' = ∅.
Proof.
  assert (H : chats (mkChatStore ∅ (messages store1)) !! "u1_u2" = None)
    by apply lookup_empty.
  destruct (markMessagesAsRead_without_chat "u1_u2" "u2"
              (mkChatStore ∅ (messages store1)) H) as (db' & Ha & Hb & _).
  exists db'. split; [exact Ha|exact Hb].
Defined.

(** ** Redelivered snapshots and listener errors on the chat screen *)

Lemma filter_filter_same {A} (f : A -> bool) (l : list A) :
  List.filter f (List.filter f l) = List.filter f l.
Proof.
  apply filter_all_true. intros x Hx. now apply filter_In in Hx as [_ Hx].
Qed.

Lemma filter_none {A} (f : A -> bool) (l : list A) :
  (forall x, In x l -> f x = false) -> List.filter f l = [].
Proof.
  induction l as [|x l IH]; simpl; intros H; [reflexivity|].
  rewrite (H x) by now left. apply IH. intros y Hy. apply H. now right.
Qed.

(** X24. Reconciliation is stable under redelivery, and a listener error
    clears the confirmed messages. For pending messages with distinct ids,
    handing the same snapshot to the callback of the chat screen a second
    time leaves the same messages on display, again oldest first. When the
    listener fails, [getChatMessages] hands over the empty list, and the
    display then holds the pending messages only, oldest first. *)
Theorem merge_redelivery (newMessages prev : list Message.t) :
  NoDup (List.map Message.id (pendingOf prev)) ->
  let once := ChatDetailScreen.mergeMessages newMessages prev in
  let twice := ChatDetailScreen.mergeMessages newMessages once in
  Permutation twice once
  /\ StronglySorted
       (fun a b => Message.timestamp a <= Message.timestamp b) twice
  /\ ChatDetailScreen.mergeMessages [] prev
     = Js.sort ChatDetailScreen.byTimestampAsc (pendingOf prev)
  /\ (forall m, In m (ChatDetailScreen.mergeMessages [] prev)
        <-> In m prev /\ ChatDetailScreen.isOptimistic m = true).
Proof.
  intros Hnd once twice.
  set (C := confirmedOf newMessages).
  set (F := List.filter (unmatched newMessages) (pendingOf prev)).
  assert (H1 : Permutation once (C ++ F))
    by exact (mergeMessages_perm newMessages prev Hnd).
  assert (HC : List.filter ChatDetailScreen.isOptimistic C = []).
  { apply filter_none. intros x Hx. unfold C, confirmedOf in Hx.
    apply filter_In in Hx as [_ Hx]. now apply negb_true_iff in Hx. }
  assert (HF : List.filter ChatDetailScreen.isOptimistic F = F).
  { apply filter_all_true. intros x Hx. unfold F, pendingOf in Hx.
    apply filter_In in Hx as [Hx _]. now apply filter_In in Hx as [_ Hx]. }
  assert (Hpend : Permutation (pendingOf once) F).
  { unfold pendingOf at 1.
    rewrite (filter_perm ChatDetailScreen.isOptimistic _ _ H1).
    now rewrite List.filter_app, HC, HF. }
  assert (Hnd1 : NoDup (List.map Message.id (pendingOf once))).
  { rewrite (Permutation_map Message.id Hpend). unfold F.
    now apply NoDup_map_filter. }
  assert (H2 : Permutation twice (C ++ F)).
  { unfold twice. rewrite (mergeMessages_perm newMessages once Hnd1).
    fold C. apply Permutation_app_head.
    rewrite (filter_perm (unmatched newMessages) _ _ Hpend).
    unfold F. now rewrite filter_filter_same. }
  assert (Herr : ChatDetailScreen.mergeMessages [] prev
                 = Js.sort ChatDetailScreen.byTimestampAsc (pendingOf prev)).
  { unfold ChatDetailScreen.mergeMessages. simpl.
    fold (pendingOf prev). f_equal. apply filter_all_true.
    intros x _. now rewrite (filter_none (fun _ => false)). }
  split; [now rewrite H2, H1|]. split; [apply mergeMessages_sorted|].
  split; [exact Herr|].
  intros m. rewrite Herr, sort_In. unfold pendingOf. apply filter_In.
Qed.

(** One pending message and the snapshot that confirms another. *)
Lemma merge_redelivery_witness :
  Permutation
    (ChatDetailScreen.mergeMessages [confirmedHi]
       (ChatDetailScreen.mergeMessages [confirmedHi] [pendingHi]))
    (ChatDetailScreen.mergeMessages [confirmedHi] [pendingHi]).
Proof.
  assert (H : NoDup (List.map Message.id (pendingOf [pendingHi])))
    by (vm_compute; apply NoDup_singleton).
  exact (proj1 (merge_redelivery [confirmedHi] [pendingHi] H)).
Defined.

(** ** Saving a match and listing matches *)

(** X25. Saving a match and listing matches. After [saveMatch] has stored a
    match under the fresh id the store generates, [getUserMatches] lists it
    for each of its two profiles, under the generated id (the id of the
    match handed in plays no part) and with the time of the write; the
    listing of every other profile is unchanged. A [saveMatch] that fails
    stores nothing. *)
Theorem saveMatch_getUserMatches (docId : string) (now now' : Z)
    (matchData : Match.t) (matchesCollection : gmap string MatchDoc.t) :
  matchesCollection !! docId = None ->
  let after := snd (saveMatch true docId now matchData matchesCollection) in
  let stored :=
    Match.mk docId (Match.userId1 matchData) (Match.userId2 matchData)
      (Match.animal1Id matchData) (Match.animal1 matchData)
      (Match.animal2Id matchData) (Match.animal2 matchData) now in
  (forall userId,
     userId = Match.userId1 matchData \/ userId = Match.userId2 matchData ->
     exists listed,
       getUserMatches true now' userId after = Ok listed /\ In stored listed)
  /\ (forall userId,
        userId <> Match.userId1 matchData ->
        userId <> Match.userId2 matchData ->
        getUserMatches true now' userId after
        = getUserMatches true now' userId matchesCollection)
  /\ snd (saveMatch false docId now matchData matchesCollection)
     = matchesCollection.
Proof.
  intros Hfresh after stored.
  set (doc := MatchDoc.mk (Some (Match.userId1 matchData))
                (Some (Match.userId2 matchData))
                (Some (Match.animal1Id matchData)) (Match.animal1 matchData)
                (Some (Match.animal2Id matchData)) (Match.animal2 matchData)
                (Some now)).
  assert (Hafter : after = <[docId := doc]> matchesCollection) by reflexivity.
  assert (Hstored : toMatch now' docId doc = stored).
  { unfold toMatch, stored, doc.
    destruct matchData as [i u1 u2 a1 x1 a2 x2 t].
    destruct u1, u2, a1, a2; reflexivity. }
  split; [|split; [|reflexivity]].
  - intros userId Hrole. eexists. split; [reflexivity|].
    apply sort_In, in_app_iff.
    destruct Hrole as [-> | ->]; [left|right]; apply in_map_iff;
      exists (docId, doc); (split; [exact Hstored|]); apply whereEq_In;
      (split; [rewrite Hafter; apply lookup_insert_eq|reflexivity]).
  - intros userId H1 H2. unfold getUserMatches. rewrite Hafter.
    rewrite !whereEq_insert_other; try exact Hfresh; try reflexivity;
      simpl; congruence.
Qed.

(** The match of U1 and U2 saved into an empty collection. *)
Lemma saveMatch_getUserMatches_witness :
  exists listed,
    getUserMatches true 9 "U2" (snd (saveMatch true "k1" 5 match12 ∅))
    = Ok listed
    /\ In (Match.mk "k1" "U1" "U2" "p1" None "p2" None 5) listed.
Proof.
  assert (H : (∅ : gmap string MatchDoc.t) !! "k1" = None) by apply lookup_empty.
  exact (proj1 (saveMatch_getUserMatches "k1" 5 9 match12 ∅ H) "U2"
           (or_intror eq_refl)).
Defined.
